(** * finetune: target blocks (finetune/nn/target_blocks.py)

    A shallow embedding of the task heads of the fine-tuning library:
    the class-weight helpers, the regressor, the CRF sequence labeler and
    the semi-supervised engines (vat, pseudo_label, ict, mean_teacher).

    Conventions of the embedding.
    - A float32 tensor is a nested list of real numbers: rank 1 is
      [list R], rank 2 is [list (list R)], rank 3 is
      [list (list (list R))].  Arithmetic is the exact arithmetic of [R];
      the rounding of float32 is not modelled.  Where the code decides on
      a float32 value that leaves the range of float32 (the [tf.exp] that
      [pseudo_label] compares with its threshold underflows to 0.0), the
      operation is a Section variable and the statements say what they
      assume of it.
    - Where the source divides by a quantity that can be zero and the
      claim depends on it, the operation returns [option R] and [None]
      stands for the NaN that TensorFlow produces.
    - Python exceptions are the [Raise] case of [pyresult]; a name that
      neither the function nor its module binds raises a NameError.
    - TensorFlow variables and random draws are explicit arguments; the
      transition matrices of the sequence labeler are built by
      [get_variable] with the shape they are declared with.
    - Helpers of the repository that live outside this file
      (tsa_filter, warmup_constant, sequence_decode,
      k_best_sequence_decode, the featurizer callback) and
      [tf.gradients] are Section variables.
    - The document pipeline (finetune/target_models/document_labeling.py)
      is embedded in the module [DocumentLabeling], with its own
      exceptions and results. *)

From Stdlib Require Import Reals Lra Lia List String Ascii Bool.
From stdpp Require Import base list gmap strings.
Import ListNotations.
Open Scope R_scope.

(** ** Tensors as nested lists *)

Abbreviation vec := (list R).
Abbreviation mat := (list (list R)).
Abbreviation ten3 := (list (list (list R))).

(** tf.reduce_sum over every element. *)
Definition reduce_sum (v : vec) : R := foldr Rplus 0 v.
Definition reduce_sum2 (m : mat) : R := reduce_sum (map reduce_sum m).
Definition reduce_sum3 (t : ten3) : R := reduce_sum (map reduce_sum2 t).

(** tf.shape of a rank-2 / rank-3 tensor, read off the first row. *)
Definition shape1 (v : vec) : list nat := [length v].
Definition shape2 (m : mat) : list nat := [length m; length (hd [] m)].
Definition shape3 (t : ten3) : list nat :=
  [length t; length (hd [] t); length (hd [] (hd [] t))].

(** tf.reduce_prod of a shape. *)
Definition reduce_prod (s : list nat) : nat := foldr Nat.mul 1%nat s.

(** Every row of a matrix has [n] columns. *)
Definition rows_of_width (n : nat) (m : mat) : Prop := Forall (fun r => length r = n) m.

(** ** Class weights *)

Module ClassWeight.

(** [tf.reduce_sum(class_weights * tf.cast(targets, float32), axis=1)]:
    the weight of each example, looked up through its one-hot target row. *)
Definition lookup_weights (class_weights : vec) (targets : mat) : vec :=
  map (fun t => reduce_sum (zip_with Rmult class_weights t)) targets.

(** [weights *= reduce_prod(shape(weights)) / reduce_sum(weights)] on a
    rank-1 tensor. *)
Definition renormalize1 (weights : vec) : vec :=
  map (fun w => w * (INR (reduce_prod (shape1 weights)) / reduce_sum weights)) weights.

(** The same statement on a rank-2 tensor. *)
Definition renormalize2 (weights : mat) : mat :=
  map (map (fun w => w * (INR (reduce_prod (shape2 weights)) / reduce_sum2 weights))) weights.

(** The local [weights] of [_apply_class_weight] after renormalization. *)
Definition single_label_weights (class_weights : vec) (targets : mat) : vec :=
  renormalize1 (lookup_weights class_weights targets).

(** [losses *= tf.expand_dims(weights, 1)] with [losses] of shape [batch]
    and [weights] of shape [batch]: broadcasting [batch] against
    [batch, 1] gives a [batch, batch] tensor whose entry (i, j) is
    [weights[i] * losses[j]]. *)
Definition mul_expand_dims (losses weights : vec) : mat :=
  map (fun w => map (fun l => l * w) losses) weights.

(** [_apply_class_weight(losses, targets, class_weights=None)]. *)
Definition _apply_class_weight (losses : vec) (targets : mat)
    (class_weights : option vec) : vec + mat :=
  match class_weights with
  | Some cw => inr (mul_expand_dims losses (single_label_weights cw targets))
  | None => inl losses
  end.

(** [class_weights * targets + ones_like(class_weights) * (1 - targets)]. *)
Definition multilabel_raw_weights (class_weights : vec) (targets : mat) : mat :=
  map (fun t => zip_with Rplus
                  (zip_with Rmult class_weights t)
                  (zip_with Rmult (map (fun _ => 1) class_weights) (map (fun x => 1 - x) t)))
      targets.

(** The local [weights] of [_apply_multilabel_class_weight] after
    renormalization. *)
Definition multilabel_weights (class_weights : vec) (targets : mat) : mat :=
  renormalize2 (multilabel_raw_weights class_weights targets).

(** [_apply_multilabel_class_weight(losses, targets, class_weights=None)]:
    [losses] and [weights] both have shape [batch, n_targets]. *)
Definition _apply_multilabel_class_weight (losses : mat) (targets : mat)
    (class_weights : option vec) : mat :=
  match class_weights with
  | Some cw => zip_with (zip_with Rmult) losses (multilabel_weights cw targets)
  | None => losses
  end.

(** Multiplication of a rank-3 tensor by a per-token weight tensor whose
    last axis has size 1 ([keepdims=True], [expand_dims(.., -1)]) or the
    same size: TensorFlow broadcasting on the last axis. *)
Definition bcast_row (g w : vec) : vec :=
  match w with
  | [c] => map (fun x => x * c) g
  | _ => zip_with Rmult g w
  end.
Definition bcast_mul (g w : ten3) : ten3 := zip_with (zip_with bcast_row) g w.

(** Multiplication of a tensor by a scalar tensor. *)
Definition scale3 (t : ten3) (c : R) : ten3 := map (map (map (fun x => x * c))) t.

(** [tf.norm]: the Euclidean norm over every element. *)
Definition sumsq3 (t : ten3) : R := reduce_sum3 (map (map (map (fun x => x * x))) t).
Definition norm3 (t : ten3) : R := sqrt (sumsq3 t).

(** A function decorated with [tf.custom_gradient]: its forward value and
    the function that maps the incoming gradient to the outgoing one. *)
Record custom_gradient := {
  forward : ten3 -> ten3;
  grad : ten3 -> ten3
}.

(** [class_reweighting(class_weights)]. *)
Definition class_reweighting (class_weights : ten3) : custom_gradient := {|
  forward := fun logits => logits;
  grad := fun g =>
    let new_g := bcast_mul g class_weights in
    let ratio := norm3 g / norm3 new_g in
    scale3 new_g ratio
|}.

End ClassWeight.

(** ** Python results and loss values *)

(** The exceptions the modelled code can raise. *)
Inductive exn :=
| FinetuneError (msg : string)
| NameError (name : string)
| IndexError
| ValueError.

(** The outcome of a Python call: a value or a raised exception. *)
Inductive pyresult (A : Type) :=
| Ok (a : A)
| Raise (e : exn).
Arguments Ok {A} a.
Arguments Raise {A} e.

Definition bind {A B : Type} (r : pyresult A) (k : A -> pyresult B) : pyresult B :=
  match r with
  | Ok a => k a
  | Raise e => Raise e
  end.
Notation "'let*' x ':=' r 'in' k" := (bind r (fun x => k))
  (at level 10, x name, r at level 100, k at level 200).

(** A loss is a Python float or a tensor of rank 0, 1 or 2. *)
Inductive tensor :=
| Scalar (x : R)
| Vector (v : vec)
| Matrix (m : mat).

Definition tensor_shape (t : tensor) : list nat :=
  match t with
  | Scalar _ => []
  | Vector v => shape1 v
  | Matrix m => shape2 m
  end.

(** [a - b] and [a + b] where [a] is a scalar or a vector and [b] a vector
    or a scalar: a scalar broadcasts over the vector. *)
Definition tensor_sub_vec (a : tensor) (b : vec) : tensor :=
  match a with
  | Scalar x => Vector (map (fun y => x - y) b)
  | Vector v => Vector (zip_with Rminus v b)
  | Matrix m => Matrix (map (fun r => zip_with Rminus r b) m)
  end.
Definition tensor_add_scalar (a : tensor) (b : R) : tensor :=
  match a with
  | Scalar x => Scalar (x + b)
  | Vector v => Vector (map (fun y => y + b) v)
  | Matrix m => Matrix (map (map (fun y => y + b)) m)
  end.

(** [tf.reduce_mean]: the mean over every element; the mean of a tensor
    without elements is 0/0, the NaN that [None] stands for. *)
Definition mean (v : vec) : option R :=
  match v with
  | [] => None
  | _ => Some (reduce_sum v / INR (length v))
  end.
Definition reduce_mean (t : tensor) : option R :=
  match t with
  | Scalar x => Some x
  | Vector v => mean v
  | Matrix m => mean (concat m)
  end.

(** ** Linear-chain CRF (tensorflow_addons.text.crf), one batch row at a time

    [crf_log_likelihood] is imported from tensorflow_addons; the module
    follows its functions row by row.  Tags and lengths are natural
    numbers.  Reading a tag or a position out of range yields 0 here
    (TensorFlow rejects it), and the statements below assume tags in
    range.  The library's special case for a padded length of 1 computes
    the same values as the general path, which is the one embedded. *)

Module Crf.

(** [tf.reduce_logsumexp] of a vector. *)
Definition logsumexp (v : vec) : R := ln (reduce_sum (map exp v)).

(** One row of [tf.sequence_mask(lengths, maxlen)]. *)
Definition sequence_mask (len maxlen : nat) : vec :=
  map (fun t => if (t <? len)%nat then 1 else 0) (seq 0 maxlen).

(** [crf_unary_score]: the logits of the given tags, masked by length. *)
Definition crf_unary_score (tag_indices : list nat) (len : nat) (inputs : mat) : R :=
  let unary_scores := zip_with (fun row y => nth y row 0) inputs tag_indices in
  let masks := sequence_mask len (length tag_indices) in
  reduce_sum (zip_with Rmult unary_scores masks).

(** [crf_binary_score]: the transition scores along the given tags,
    masked by length. *)
Definition crf_binary_score (tag_indices : list nat) (len : nat) (transition_params : mat) : R :=
  let num_transitions := (length tag_indices - 1)%nat in
  let start_tag_indices := take num_transitions tag_indices in
  let end_tag_indices := drop 1 tag_indices in
  let binary_scores :=
    zip_with (fun a b => nth b (nth a transition_params []) 0)
             start_tag_indices end_tag_indices in
  let masks := sequence_mask len (length tag_indices) in
  let truncated_masks := drop 1 masks in
  reduce_sum (zip_with Rmult binary_scores truncated_masks).

(** [crf_sequence_score]. *)
Definition crf_sequence_score (inputs : mat) (tag_indices : list nat) (len : nat)
    (transition_params : mat) : R :=
  crf_unary_score tag_indices len inputs + crf_binary_score tag_indices len transition_params.

(** The step of the forward recursion: [new_alphas[j] = inputs[j] +
    logsumexp_i (state[i] + transition_params[i][j])]. *)
Definition scan_fn (transition_params : mat) (state inputs : vec) : vec :=
  zip_with Rplus inputs
    (map (fun j => logsumexp (zip_with (fun s row => s + nth j row 0) state transition_params))
         (seq 0 (length inputs))).

(** [tf.scan]: the list of the successive states. *)
Fixpoint scan (f : vec -> vec -> vec) (elems : mat) (state : vec) : mat :=
  match elems with
  | [] => []
  | x :: rest => let s := f state x in s :: scan f rest s
  end.

(** [crf_forward]: the alpha values at the last valid position,
    [last_index = maximum(0, sequence_lengths - 1)]. *)
Definition crf_forward (inputs : mat) (state : vec) (transition_params : mat) (len : nat) : vec :=
  let last_index := (len - 1)%nat in
  let all_alphas := state :: scan (scan_fn transition_params) inputs state in
  nth last_index all_alphas [].

(** [crf_log_norm]: the log partition function, 0 for an empty sequence. *)
Definition crf_log_norm (inputs : mat) (len : nat) (transition_params : mat) : R :=
  let first_input := hd [] inputs in
  let rest_of_input := drop 1 inputs in
  let alphas := crf_forward rest_of_input first_input transition_params len in
  let log_norm := logsumexp alphas in
  if (len <=? 0)%nat then 0 else log_norm.

(** The log-likelihood of one sequence. *)
Definition crf_log_likelihood_row (inputs : mat) (tag_indices : list nat) (len : nat)
    (transition_params : mat) : R :=
  crf_sequence_score inputs tag_indices len transition_params
  - crf_log_norm inputs len transition_params.

(** [crf_log_likelihood(inputs, tag_indices, sequence_lengths,
    transition_params)]: a [batch] vector of log-likelihoods and the
    transition matrix. *)
Definition crf_log_likelihood (inputs : ten3) (tag_indices : list (list nat))
    (sequence_lengths : list nat) (transition_params : mat) : vec * mat :=
  (zip_with (fun '(x, y) len => crf_log_likelihood_row x y len transition_params)
            (zip inputs tag_indices) sequence_lengths,
   transition_params).

End Crf.

(** ** Configuration *)

(** The fields of the config object that the modelled functions read.
    [tsa_method] is [None] when the option is unset (falsy). *)
Record config := {
  clf_p_drop : R;
  regression_loss : string;
  is_bidirectional : bool;
  low_memory_mode : bool;
  tsa_method : option string;
  ssl_loss_coef : R;
  pseudo_thresh : R;
  ema_decay : R
}.

(** ** Strings *)



(** ** Dense layers *)

(** Row vector times matrix, [ny] output columns. *)
Definition vecmat (ny : nat) (x : vec) (w : mat) : vec :=
  map (fun j => reduce_sum (zip_with (fun xi wrow => xi * nth j wrow 0) x w)) (seq 0 ny).

(** [tf.matmul(x, w) + b] with [w] of shape [nx, ny] and [b] of shape [ny]. *)
Definition matmul_add (ny : nat) (x : mat) (w : mat) (b : vec) : mat :=
  map (fun row => zip_with Rplus (vecmat ny row w) b) x.

(** A dense layer applied to the last axis of a rank-3 tensor. *)
Definition dense (ny : nat) (kernel : mat) (bias : vec) (x : ten3) : ten3 :=
  map (fun m => matmul_add ny m kernel bias) x.

(** ** Linear heads *)

Module Heads.




Section WithDropout.

(** [dropout(x, pdrop, train)] of the featurizer module. *)
Variable dropout : mat -> R -> bool -> mat.

(** [perceptron(x, ny, config)]; [w] and [b] are the variables of the
    scope ["perceptron"]. *)
Definition perceptron (w : mat) (b : vec) (x : mat) (ny : nat) : mat :=
  matmul_add ny x w b.


End WithDropout.


End Heads.

(** ** Weighted cross-entropy *)

#[global] Instance R_eq_dec : EqDecision R := Req_dec_T.
#[global] Instance R_lt_dec : RelDecision Rlt := Rlt_dec.

(** [tf.nn.sparse_softmax_cross_entropy_with_logits] for one token. *)
Definition token_xent (logits : vec) (y : nat) : R :=
  Crf.logsumexp logits - nth y logits 0.

(** [tf.sequence_mask(lengths, maxlen) / tf.expand_dims(lengths, -1)]: the
    mask of a sequence of length 0 is all zeros, and its weights are 0/0,
    the NaN that [None] stands for. *)
Definition length_weights (lengths : list nat) (maxlen : nat) : list (list (option R)) :=
  map (fun len =>
         map (fun m => if (len =? 0)%nat then None else Some (m / INR len))
             (Crf.sequence_mask len maxlen))
      lengths.

(** The entries of a tensor when none of them is NaN. *)
Definition all_numbers (w : list (list (option R))) : option mat :=
  mapM (mapM (fun x : option R => x)) w.

(** The number of weights that are not zero. *)
Definition count_nonzero (w : mat) : nat :=
  length (filter (fun x => x <> 0) (concat w)).

(** [tf.compat.v1.losses.sparse_softmax_cross_entropy(labels, logits,
    weights)] with its default reduction: the weighted sum of the token
    losses over the number of non-zero weights, 0 when there is none. *)
Definition sparse_softmax_cross_entropy (labels : list (list nat)) (logits : ten3)
    (weights : mat) : R :=
  let losses := zip_with (zip_with token_xent) logits labels in
  let weighted := zip_with (zip_with Rmult) losses weights in
  let num_present := count_nonzero weights in
  if (num_present =? 0)%nat then 0 else reduce_sum2 weighted / INR num_present.

(** The cross-entropy branch shared by the labeler and the SSL engines:
    [weights = sequence_mask(lengths, maxlen=shape(targets)[1]) / lengths]
    and the weighted cross-entropy with these weights.  A NaN weight makes
    the weighted sum, and the loss, NaN. *)
Definition weighted_xent_loss (targets : list (list nat)) (logits : ten3)
    (lengths : list nat) : option R :=
  let weights := length_weights lengths (length (hd [] targets)) in
  match all_numbers weights with
  | Some weights => Some (sparse_softmax_cross_entropy targets logits weights)
  | None => None
  end.

(** [tf.compat.v1.get_variable(name, shape=[rows, cols])]: the variable
    has the declared shape; [entries] are its values. *)
Definition get_variable (entries : nat -> nat -> R) (rows cols : nat) : mat :=
  map (fun i => map (fun j => entries i j) (seq 0 cols)) (seq 0 rows).

(** The CRF branch: [loss = -log_likelihood], a [batch] vector. *)
Definition crf_loss (logits : ten3) (targets : list (list nat)) (lengths : list nat)
    (transition_params : mat) : vec :=
  map Ropp (fst (Crf.crf_log_likelihood logits targets lengths transition_params)).

(** [tf.one_hot(y, depth)] for one label. *)
Definition one_hot (y depth : nat) : vec :=
  map (fun k => if (k =? y)%nat then 1 else 0) (seq 0 depth).

(** The per-token weights of the class-weight mode:
    [reduce_sum(class_weights * one_hot(targets), axis=-1, keepdims=True)]. *)
Definition per_token_weights (class_weights : vec) (targets : list (list nat))
    (n_targets : nat) : ten3 :=
  map (map (fun y => [reduce_sum (zip_with Rmult class_weights (one_hot y n_targets))])) targets.

(** Python list indexing [l[i]] and [l[-1]]. *)
Definition py_index {A : Type} (l : list A) (i : nat) : pyresult A :=
  match l !! i with
  | Some x => Ok x
  | None => Raise IndexError
  end.
Definition py_last {A : Type} (l : list A) : pyresult A :=
  match last l with
  | Some x => Ok x
  | None => Raise IndexError
  end.

(** A [for] loop whose body can raise. *)
Fixpoint for_each {S A : Type} (body : S -> A -> pyresult S) (xs : list A) (st : S) : pyresult S :=
  match xs with
  | [] => Ok st
  | x :: rest => let* st' := body st x in for_each body rest st'
  end.

(** ** The CRF sequence labeler *)

Module SeqLab.

(** Targets: [batch, seq] label ids, or [batch, seq, n_targets] 0/1 flags
    in multilabel mode. *)
Inductive seq_targets :=
| Labels (y : list (list nat))
| MultiLabels (y : list (list (list nat))).

(** Logits: a [batch, seq, n_targets] tensor, or in multilabel mode the
    stack of [n_targets] tensors of shape [batch, seq, 2] (the embedding
    keeps the stacking axis outermost). *)
Inductive logits_t :=
| Logits3 (t : ten3)
| LogitsStack (ts : list ten3).

Inductive transitions_t :=
| Transition (m : mat)
| Transitions (ms : list mat).

Record predict_params := {
  transition_matrix : transitions_t;
  sequence_length : list nat
}.

(** The result dictionary; a [losses] of [None] is a NaN. *)
Record labeler_output := {
  logits : logits_t;
  losses : option tensor;
  predict : predict_params
}.

(** The variables of the scope ["sequence-labeler"]: the kernel and bias
    of the dense projection, and the entries of ["Transition_matrix"] and
    of ["Transition_matrix_{i}"], whose shapes the code declares. *)
Record labeler_vars := {
  kernel : mat;
  bias : vec;
  Transition_matrix : nat -> nat -> R;
  Transition_matrix_ : nat -> nat -> nat -> R
}.

Definition add3 (a b : ten3) : ten3 := zip_with (zip_with (zip_with Rplus)) a b.

(** [tf.reshape(t, [b, s, -1])] of a rank-3 tensor: the rows of the
    flattened tensor, regrouped. *)
Definition reshape3 (t : ten3) (b s : nat) : ten3 :=
  let flat := concat t in
  map (fun i => map (fun j => nth (i * s + j) flat []) (seq 0 s)) (seq 0 b).

(** [tf.unstack(t, n, axis=-1)]. *)
Definition unstack (n : nat) (t : ten3) : list mat :=
  map (fun k => map (map (fun tok => nth k tok 0)) t) (seq 0 n).
Definition unstack_labels (n : nat) (t : list (list (list nat))) : list (list (list nat)) :=
  map (fun k => map (map (fun tok => nth k tok 0%nat)) t) (seq 0 n).

(** [tf.stack((a, b), axis=-1)] of two [batch, seq] tensors. *)
Definition stack2 (a b : mat) : ten3 := zip_with (zip_with (fun x y => [x; y])) a b.

(** The state of the loop over the classes in multilabel mode. *)
Record loop_state := {
  st_transition_params : list mat;
  st_logits : list ten3;
  st_loss : option tensor
}.

(** [loss -= v] and [loss += x] on a loss that can be NaN. *)
Definition loss_sub_vec (loss : option tensor) (v : vec) : option tensor :=
  option_map (fun t => tensor_sub_vec t v) loss.
Definition loss_add_scalar (loss : option tensor) (x : option R) : option tensor :=
  match loss, x with
  | Some t, Some x => Some (tensor_add_scalar t x)
  | _, _ => None
  end.

Section WithAttention.

(** [attn(hidden, "seq_label_attn", ..., train=train, mask=False)] and
    [norm(x, "seq_label_residual")] of the featurizer modules. *)
Variable attn : bool -> ten3 -> ten3.
Variable norm : ten3 -> ten3.

(** The inner function [seq_lab_internal(hidden)]. *)
Definition seq_lab_internal (vars : labeler_vars) (cfg : config) (n_targets : nat)
    (train : bool) (hidden : ten3) : ten3 :=
  let n := if is_bidirectional cfg then hidden
           else norm (add3 (attn train hidden) hidden) in
  let flat_logits := dense n_targets (kernel vars) (bias vars) n in
  reshape3 flat_logits (length hidden) (length (hd [] hidden)).

(** [recompute_grad(f, use_entire_scope=True)]: the same forward function. *)
Definition recompute_grad (f : ten3 -> ten3) : ten3 -> ten3 := f.

(** The body of [for i in range(n_targets)] in multilabel mode. *)
Definition multilabel_step (vars : labeler_vars) (logits_individual : list mat)
    (targets_individual : option (list (list (list nat)))) (pad_id : nat)
    (lengths : list nat) (use_crf : bool) (class_weights : option vec)
    (st : loop_state) (i : nat) : pyresult loop_state :=
  let transition_params :=
    st_transition_params st ++ [get_variable (Transition_matrix_ vars i) 2 2] in
  let* l_pad := py_index logits_individual pad_id in
  let* l_i := py_index logits_individual i in
  let logits := st_logits st ++ [stack2 l_pad l_i] in
  match targets_individual with
  | Some targets_individual =>
      if negb (i =? pad_id)%nat then
        let* targets_i := py_index targets_individual i in
        let* logits_i :=
          match class_weights with
          | Some cw =>
              let* cw_i := py_index cw i in
              let* cw_pad := py_index cw pad_id in
              let class_weight :=
                map (map (fun y => [cw_i * INR y + cw_pad * (1 - INR y)])) targets_i in
              let* top := py_last logits in
              Ok (ClassWeight.forward (ClassWeight.class_reweighting class_weight) top)
          | None => py_index logits i
          end in
        let* transition_i := py_last transition_params in
        if use_crf then
          Ok {| st_transition_params := transition_params;
                st_logits := logits;
                st_loss := loss_sub_vec (st_loss st)
                             (fst (Crf.crf_log_likelihood logits_i targets_i lengths transition_i)) |}
        else
          Ok {| st_transition_params := transition_params;
                st_logits := logits;
                st_loss := loss_add_scalar (st_loss st)
                             (weighted_xent_loss targets_i logits_i lengths) |}
      else
        Ok {| st_transition_params := transition_params;
              st_logits := logits;
              st_loss := st_loss st |}
  | None =>
      Ok {| st_transition_params := transition_params;
            st_logits := logits;
            st_loss := st_loss st |}
  end.

(** [sequence_labeler(hidden, targets, n_targets, config, pad_id,
    multilabel, train, reuse, lengths, use_crf, class_weights=...)].
    Targets of the wrong rank for the mode, and the class-weight mode
    without targets, end in an error of the tensor library. *)
Definition sequence_labeler (vars : labeler_vars) (hidden : ten3)
    (targets : option seq_targets) (n_targets : nat) (cfg : config) (pad_id : nat)
    (multilabel train : bool) (lengths : option (list nat)) (use_crf : bool)
    (class_weights : option vec) : pyresult labeler_output :=
  let internal :=
    if low_memory_mode cfg && train
    then recompute_grad (seq_lab_internal vars cfg n_targets train)
    else seq_lab_internal vars cfg n_targets train in
  let logits := internal hidden in
  let loss := Some (Scalar 0) in
  let default_lengths := replicate (length hidden) (length (hd [] hidden)) in
  let lengths := match lengths with Some l => l | None => default_lengths end in
  if multilabel then
    let logits_individual := unstack n_targets logits in
    let* targets_individual :=
      match targets with
      | Some (MultiLabels y) => Ok (Some (unstack_labels n_targets y))
      | Some (Labels _) => Raise ValueError
      | None => Ok None
      end in
    let* st := for_each
                 (multilabel_step vars logits_individual targets_individual pad_id
                    lengths use_crf class_weights)
                 (seq 0 n_targets)
                 {| st_transition_params := []; st_logits := []; st_loss := loss |} in
    Ok {| logits := LogitsStack (st_logits st);
          losses := st_loss st;
          predict := {| transition_matrix := Transitions (st_transition_params st);
                        sequence_length := lengths |} |}
  else
    let* logits :=
      match class_weights with
      | Some cw =>
          if train then
            match targets with
            | Some (Labels y) =>
                Ok (ClassWeight.forward
                      (ClassWeight.class_reweighting (per_token_weights cw y n_targets))
                      logits)
            | _ => Raise ValueError
            end
          else Ok logits
      | None => Ok logits
      end in
    let transition_params := get_variable (Transition_matrix vars) n_targets n_targets in
    let* loss :=
      match targets with
      | Some (Labels y) =>
          if use_crf then Ok (Some (Vector (crf_loss logits y lengths transition_params)))
          else Ok (option_map Scalar (weighted_xent_loss y logits lengths))
      | Some (MultiLabels _) => Raise ValueError
      | None => Ok loss
      end in
    Ok {| logits := Logits3 logits;
          losses := loss;
          predict := {| transition_matrix := Transition transition_params;
                        sequence_length := lengths |} |}.

End WithAttention.

End SeqLab.

(** ** Names in scope *)

Module Names.

(** The names bound at module level in target_blocks.py: its imports and
    its function definitions. *)
Definition module_globals : gset string :=
  list_to_set
    ["functools"; "tf"; "crf_log_likelihood"; "attn"; "dropout"; "norm";
     "shape_list"; "merge_leading_dims"; "recompute_grad"; "FinetuneError";
     "act_fns"; "build_ema_getter"; "tsa_filter"; "sequence_decode";
     "k_best_sequence_decode"; "warmup_constant";
     "perceptron"; "masked_language_model"; "language_model";
     "_apply_class_weight"; "_apply_multilabel_class_weight"; "classifier";
     "multi_choice_question"; "multi_classifier"; "regressor";
     "ordinal_regressor"; "class_reweighting"; "sequence_labeler"; "vat";
     "pseudo_label"; "ict"; "mean_teacher"; "association"]%string.

(** The parameters shared by the SSL engines. *)
Definition engine_params : list string :=
  ["hidden"; "targets"; "n_targets"; "config"; "pad_id"; "multilabel"; "train";
   "reuse"; "lengths"; "use_crf"; "embedding_out"; "kwargs"]%string.

(** The names assigned in the body of [vat]. *)
Definition vat_locals : gset string :=
  list_to_set
    (engine_params ++
     ["layer"; "logits"; "loss"; "default_lengths"; "target_shape"; "batch_size";
      "all_logits"; "all_lengths"; "class_weights"; "one_hot_class_weights";
      "per_token_weights"; "transition_params"; "after_embeddings";
      "after_transformer"; "out_fn"; "pert_shape"; "top_k_targets"; "_";
      "crf_probs"; "softmax_probs"; "prob_fn"; "adv_vector"; "kl_div"; "mask";
      "probs"; "adv_logits"; "adv_probs"; "adv_loss"; "gradient";
      "log_likelihood"; "weights"]%string).

(** The names assigned in the body of [ict]. *)
Definition ict_locals : gset string :=
  list_to_set
    (engine_params ++
     ["layer"; "logits"; "loss"; "default_lengths"; "device"; "target_shape";
      "u_logits"; "u_lengths"; "u_embed"; "u_batch_size"; "class_weights";
      "one_hot_class_weights"; "per_token_weights"; "transition_params"; "scope";
      "featurizer_fn"; "shuffle_indicies"; "beta_dist"; "lam"; "shuffle_input";
      "mix_input"; "featurizer_state"; "mix_logits"; "custom_getter";
      "update_ops"; "ema_logits"; "ema_shuffle_logits"; "ema_mix_logits";
      "u_loss"; "log_likelihood"; "_"; "weights"; "total_steps"; "global_step";
      "training_fraction"; "coef_fraction"; "loss_coef"]%string).

(** The names assigned in the body of [mean_teacher]. *)
Definition mean_teacher_locals : gset string :=
  list_to_set
    (engine_params ++
     ["layer"; "logits"; "loss"; "default_lengths"; "target_shape"; "all_logits";
      "all_lengths"; "class_weights"; "one_hot_class_weights";
      "per_token_weights"; "transition_params"; "scope"; "featurizer_fn";
      "custom_getter"; "update_ops"; "featurizer_state"; "ema_logits"; "u_loss";
      "log_likelihood"; "_"; "weights"; "total_steps"; "global_step";
      "training_fraction"; "coef_fraction"; "loss_coef"]%string).

(** Reading the name [x] inside a function whose assigned names are
    [locals]: the value [v] it is bound to, or a NameError when neither the
    function nor the module binds it ([device] is no builtin). *)
Definition load_name {A : Type} (locals : gset string) (x : string) (v : A) : pyresult A :=
  if bool_decide (x ∈ locals ∪ module_globals) then Ok v else Raise (NameError x).

(** The argument of [tf.device] in the CRF branch of an engine:
    ["CPU:0" if train else device]. *)
Definition crf_device (locals : gset string) (train : bool) (device : string) : pyresult string :=
  if train then Ok "CPU:0"%string else load_name locals "device" device.

End Names.

(** ** The semi-supervised engines *)

Module Ssl.

Record predict_params := {
  transition_matrix : mat;
  sequence_length : list nat
}.

(** The result dictionary of an engine; a [losses] of [None] is a NaN. *)
Record engine_output := {
  logits : ten3;
  losses : option tensor;
  predict : predict_params
}.

(** The variables of an engine's scope: the kernel and bias of its
    [tf.keras.layers.Dense(n_targets)] and ["Transition_matrix"]. *)
Record engine_vars := {
  kernel : mat;
  bias : vec;
  Transition_matrix : mat
}.

(** Float arithmetic with NaN. *)
Definition nan_add (a b : option R) : option R :=
  match a, b with
  | Some x, Some y => Some (x + y)
  | _, _ => None
  end.
Definition nan_mul (a b : option R) : option R :=
  match a, b with
  | Some x, Some y => Some (x * y)
  | _, _ => None
  end.

(** [config.tsa_method] as a condition. *)
Definition tsa_on (cfg : config) : option string :=
  match tsa_method cfg with
  | Some m => if String.eqb m "" then None else Some m
  | None => None
  end.

(** [tf.keras.losses.MSE(y_true, y_pred)]: the mean over the last axis
    of the squared differences. *)
Definition MSE (y_true y_pred : ten3) : list (list (option R)) :=
  zip_with (zip_with (fun t p => mean (map (fun d => d * d) (zip_with Rminus p t))))
           y_true y_pred.

(** [tf.reduce_mean] of a [batch, seq] tensor whose entries can be NaN. *)
Definition reduce_mean_nan (m : list (list (option R))) : option R :=
  match mapM (fun x : option R => x) (concat m) with
  | Some v => mean v
  | None => None
  end.

(** [tf.gather(t, indices, axis=0)]. *)
Definition gather {A : Type} (t : list (list A)) (indices : list nat) : list (list A) :=
  map (fun i => nth i t []) indices.

(** [lam * a + (1 - lam) * b] with [lam] of shape [batch, 1, 1]. *)
Definition mix (lam : vec) (a b : ten3) : ten3 :=
  zip_with (fun l ab =>
              zip_with (zip_with (fun x y => l * x + (1 - l) * y)) (fst ab) (snd ab))
           lam (zip a b).




(** The class-weight mode of the engines: the forward value of
    [class_reweighting(per_token_weights)(logits)]. *)
Definition reweight_logits (class_weights : option vec) (train : bool)
    (targets : option (list (list nat))) (n_targets : nat) (logits : ten3) : pyresult ten3 :=
  match class_weights with
  | Some cw =>
      if train then
        match targets with
        | Some y =>
            Ok (ClassWeight.forward
                  (ClassWeight.class_reweighting (per_token_weights cw y n_targets))
                  logits)
        | None => Raise ValueError
        end
      else Ok logits
  | None => Ok logits
  end.

(** The fields of the config that the adversarial part of [vat] reads. *)
Record vat_config := {
  vat_preturb_embed : bool;
  vat_top_k : nat;
  vat_k : nat;
  vat_e : R
}.

(** [tf.nn.l2_normalize(x, axis=-1)] on one vector of the last axis:
    [x * rsqrt(maximum(reduce_sum(x ** 2), 1e-12))]. *)
Definition l2_normalize (v : vec) : vec :=
  let square_sum := reduce_sum (map (fun x => x * x) v) in
  map (fun x => x / sqrt (Rmax square_sum 1e-12)) v.

(** [e * tf.nn.l2_normalize(t, axis=-1)]. *)
Definition scaled_direction (e : R) (t : ten3) : ten3 :=
  map (map (fun v => map (fun x => e * x) (l2_normalize v))) t.

(** [tf.nn.softmax] over one vector of the last axis. *)
Definition softmax (v : vec) : vec :=
  map (fun x => exp x / reduce_sum (map exp v)) v.

(** [K.clip(x, K.epsilon(), 1)]. *)
Definition clip (x : R) : R := Rmax (Rmin x 1) 1e-7.

(** [tf.losses.KLDivergence(reduction=NONE)] on one pair of distributions:
    [sum(y_true * log(y_true / y_pred))] after clipping both. *)
Definition kl_div (y_true y_pred : vec) : R :=
  reduce_sum (zip_with (fun t p => clip t * ln (clip t / clip p)) y_true y_pred).

Section WithHelpers.

(** [tsa_filter(method, logits, targets, lengths, use_crf,
    transition_params, total_num_steps)] of finetune.nn.nn_utils. *)
Variable tsa_filter :
  string -> ten3 -> list (list nat) -> list nat -> bool -> mat -> R ->
  ten3 * list (list nat) * list nat.

(** [warmup_constant(x, warmup)] of the learning-rate schedules. *)
Variable warmup_constant : R -> R -> R.

(** [sequence_decode(logits, transition_matrix, sequence_length,
    use_gpu_op, use_crf)] of finetune.nn.crf: the decoded tags and the
    per-token probabilities. *)
Variable sequence_decode : ten3 -> mat -> list nat -> bool -> list (list nat) * ten3.

(** The featurizer callback [featurizer_fn(embedding, reuse)], run with
    the variables its scope resolves to: the live ones, or their moving
    averages under the getter of [build_ema_getter]. *)
Variable params : Type.
Variable featurizer_fn : params -> ten3 -> ten3.

(** [tf.exp] on a float32 tensor.  It is not [exp] over the reals at
    arguments of large magnitude: a float32 result below the smallest
    positive number is 0.0.  The statements say what they assume of it. *)
Variable float_exp : R -> R.

(** [k_best_sequence_decode(logits, transition_matrix, k)] of
    finetune.nn.crf: the [k] best tag sequences of every example, a
    [batch, k, seq] tensor. *)
Variable k_best_sequence_decode : ten3 -> mat -> nat -> list (list (list nat)).

(** [tf.gradients(ys, xs)] for a scalar [ys], given as a function of the
    tensor [xs], at the current value of [xs]. *)
Variable gradients : (ten3 -> option R) -> ten3 -> ten3.

(** The TSA step: [logits, targets, lengths = tsa_filter(...)] when a
    method is configured. *)
Definition apply_tsa (cfg : config) (logits : ten3) (targets : list (list nat))
    (lengths : list nat) (use_crf : bool) (transition_params : mat) (total_num_steps : R)
    : ten3 * list (list nat) * list nat :=
  match tsa_on cfg with
  | Some m => tsa_filter m logits targets lengths use_crf transition_params total_num_steps
  | None => (logits, targets, lengths)
  end.

(** The supervised loss of an engine, from the CRF branch or the
    cross-entropy branch; [locals] are the names the engine assigns. *)
Definition supervised_loss (locals : gset string) (train : bool) (device : string)
    (use_crf : bool) (logits : ten3) (targets : list (list nat)) (lengths : list nat)
    (transition_params : mat) : pyresult (option tensor) :=
  if use_crf then
    let* _dev := Names.crf_device locals train device in
    Ok (Some (Vector (crf_loss logits targets lengths transition_params)))
  else
    Ok (option_map Scalar (weighted_xent_loss targets logits lengths)).

(** [tf.cond(tf.equal(tf.shape(targets)[0], 0), lambda: 0.0, lambda: loss)]
    when a TSA method is configured. *)
Definition tsa_guard (cfg : config) (targets : list (list nat)) (loss : option tensor)
    : option tensor :=
  match tsa_on cfg with
  | Some _ => if (length targets =? 0)%nat then Some (Scalar 0) else loss
  | None => loss
  end.

(** [tf.reduce_mean] of a loss that can be NaN. *)
Definition reduce_mean_loss (loss : option tensor) : option R :=
  match loss with
  | Some t => reduce_mean t
  | None => None
  end.

(** The supervised part shared by [vat], [ict] and [mean_teacher]: the TSA
    step, the CRF or cross-entropy loss, the TSA guard and
    [tf.reduce_mean(loss)].  It yields the filtered logits and lengths and
    the mean loss. *)
Definition supervised_mean (locals : gset string) (cfg : config) (train : bool)
    (device : string) (use_crf : bool) (logits : ten3) (targets : list (list nat))
    (lengths : list nat) (transition_params : mat) (total_num_steps : R)
    : pyresult (ten3 * list nat * option R) :=
  let '(logits, targets, lengths) :=
    apply_tsa cfg logits targets lengths use_crf transition_params total_num_steps in
  let* loss := supervised_loss locals train device use_crf
                 logits targets lengths transition_params in
  let loss := tsa_guard cfg targets loss in
  Ok (logits, lengths, reduce_mean_loss loss).

(** The SSL coefficient of [ict] and [mean_teacher]:
    [tf.maximum(0.0, ssl_loss_coef * warmup_constant(global_step /
    total_steps, warmup=0.25))]. *)
Definition ssl_coef (cfg : config) (global_step : nat) (total_steps : R) : R :=
  let training_fraction := INR global_step / total_steps in
  let coef_fraction := warmup_constant training_fraction 0.25 in
  Rmax 0 (ssl_loss_coef cfg * coef_fraction).

Definition default_lengths (hidden : ten3) : list nat :=
  replicate (length hidden) (length (hd [] hidden)).

(** The adversarial part of [vat] (lines 604-681), for a batch with
    targets.  [out_fn] maps a perturbation to logits, through the
    featurizer or on the features. *)
Definition out_fn (vars : engine_vars) (vcfg : vat_config) (live : params)
    (n_targets : nat) (hidden embedding_out : ten3) (perturbation : ten3) : ten3 :=
  let layer := dense n_targets (kernel vars) (bias vars) in
  if vat_preturb_embed vcfg
  then layer (featurizer_fn live (SeqLab.add3 perturbation embedding_out))
  else layer (SeqLab.add3 hidden perturbation).

(** [crf_probs(logits)]: for every example the probabilities of its
    [top_k] best sequences and the left-over probability. *)
Definition crf_probs (top_k : nat) (top_k_targets : list (list (list nat)))
    (all_lengths : list nat) (transition_params : mat) (batch_size : nat) (logits : ten3)
    : mat :=
  let all_probs :=
    map (fun cur_k =>
           let k_seqs := map (fun seqs => nth cur_k seqs []) top_k_targets in
           map float_exp
               (fst (Crf.crf_log_likelihood logits k_seqs all_lengths transition_params)))
        (seq 0 top_k) in
  map (fun b =>
         let best := map (fun k_probs => nth b k_probs 0) all_probs in
         best ++ [1 - reduce_sum best])
      (seq 0 batch_size).

(** [prob_fn(logits)]: the distributions that the divergence compares, one
    per example ([crf_probs]) or one per token ([softmax_probs]). *)
Definition prob_fn (vcfg : vat_config) (top_k_targets : list (list (list nat)))
    (all_lengths : list nat) (transition_params : mat) (batch_size : nat) (logits : ten3)
    : list vec :=
  if (vat_top_k vcfg =? 0)%nat
  then concat (map (map softmax) logits)
  else crf_probs (vat_top_k vcfg) top_k_targets all_lengths transition_params batch_size
                 logits.

(** [for _ in range(config.vat_k)]: the perturbation follows the gradient
    of the divergence. *)
Fixpoint power_iteration (k : nat) (loss_at : ten3 -> option R) (e : R)
    (adv_vector : ten3) : ten3 :=
  match k with
  | O => adv_vector
  | S k =>
      let gradient := gradients loss_at adv_vector in
      power_iteration k loss_at e (scaled_direction e gradient)
  end.

(** The value of [adv_loss] after line 681; [uniform] is the draw of
    [tf.random.uniform(shape=pert_shape)]. *)
Definition adversarial_loss (vars : engine_vars) (vcfg : vat_config) (live : params)
    (uniform : ten3) (hidden : ten3) (n_targets : nat) (lengths : option (list nat))
    (embedding_out : ten3) : option R :=
  let all_logits := dense n_targets (kernel vars) (bias vars) hidden in
  let all_lengths := match lengths with Some l => l | None => default_lengths hidden end in
  let batch_size := length all_logits in
  let transition_params := Transition_matrix vars in
  let top_k_targets :=
    if (vat_top_k vcfg =? 0)%nat then []
    else k_best_sequence_decode all_logits transition_params (vat_top_k vcfg) in
  let prob_fn := prob_fn vcfg top_k_targets all_lengths transition_params batch_size in
  let probs := prob_fn all_logits in
  let loss_at := fun adv_vector =>
    let adv_logits := out_fn vars vcfg live n_targets hidden embedding_out adv_vector in
    let adv_probs := prob_fn adv_logits in
    mean (zip_with kl_div probs adv_probs) in
  let adv_vector := scaled_direction (vat_e vcfg) uniform in
  let adv_vector := power_iteration (vat_k vcfg) loss_at (vat_e vcfg) adv_vector in
  loss_at adv_vector.

(** [vat(hidden, targets, n_targets, config, pad_id, multilabel, train,
    reuse, lengths, use_crf, embedding_out, class_weights=...,
    total_num_steps=...)] from the value [adv_loss] of the local of that
    name after line 681, which is [adversarial_loss] above.  No statement
    of [vat] binds [device]; the argument is the value the name would
    have. *)
Definition vat (vars : engine_vars) (adv_loss : option R) (device : string)
    (hidden : ten3) (targets : option (list (list nat))) (n_targets : nat)
    (cfg : config) (train : bool) (lengths : option (list nat)) (use_crf : bool)
    (class_weights : option vec) (total_num_steps : R) : pyresult engine_output :=
  let logits := dense n_targets (kernel vars) (bias vars) hidden in
  let lengths := match lengths with Some l => l | None => default_lengths hidden end in
  let logits := match targets with Some y => take (length y) logits | None => logits end in
  let lengths := match targets with Some y => take (length y) lengths | None => lengths end in
  let* logits := reweight_logits class_weights train targets n_targets logits in
  let transition_params := Transition_matrix vars in
  match targets with
  | Some targets =>
      let* sup :=
        supervised_mean Names.vat_locals cfg train device use_crf
          logits targets lengths transition_params total_num_steps in
      let '(logits, lengths, loss) := sup in
      let loss := nan_add loss (nan_mul (Some (ssl_loss_coef cfg)) adv_loss) in
      Ok {| logits := logits;
            losses := option_map Scalar loss;
            predict := {| transition_matrix := transition_params;
                          sequence_length := lengths |} |}
  | None =>
      Ok {| logits := logits;
            losses := Some (Scalar 0);
            predict := {| transition_matrix := transition_params;
                          sequence_length := lengths |} |}
  end.




(** The consistency loss of [ict]: the mean squared error between the
    prediction on the mixed input and the mix of the moving-average
    predictions.  [shuffle_indicies] is the draw of [tf.random.shuffle],
    [lam] and [lam'] the two draws of [beta_dist.sample]. *)
Definition ict_u_loss (vars : engine_vars) (live ema : params) (n_targets : nat)
    (shuffle_indicies : list nat) (lam lam' : vec) (embedding_out : ten3) : option R :=
  let layer := dense n_targets (kernel vars) (bias vars) in
  let u_embed := embedding_out in
  let shuffle_input := gather u_embed shuffle_indicies in
  let mix_input := mix lam u_embed shuffle_input in
  let hidden := featurizer_fn live mix_input in
  let mix_logits := layer hidden in
  let hidden := featurizer_fn ema u_embed in
  let ema_logits := layer hidden in
  let ema_shuffle_logits := gather ema_logits shuffle_indicies in
  let ema_mix_logits := mix lam' ema_logits ema_shuffle_logits in
  reduce_mean_nan (MSE mix_logits ema_mix_logits).

(** [ict(hidden, targets, n_targets, config, pad_id, multilabel, train,
    reuse, lengths, use_crf, embedding_out, class_weights=...,
    total_num_steps=...)].  [device] is [logits.device], [global_step] the
    value of the global step. *)
Definition ict (vars : engine_vars) (live ema : params) (shuffle_indicies : list nat)
    (lam lam' : vec) (device : string) (global_step : nat)
    (hidden : ten3) (targets : option (list (list nat))) (n_targets : nat)
    (cfg : config) (train : bool) (lengths : option (list nat)) (use_crf : bool)
    (embedding_out : ten3) (class_weights : option vec) (total_num_steps : R)
    : pyresult engine_output :=
  let logits := dense n_targets (kernel vars) (bias vars) hidden in
  let lengths := match lengths with Some l => l | None => default_lengths hidden end in
  let logits := match targets with Some y => take (length y) logits | None => logits end in
  let lengths := match targets with Some y => take (length y) lengths | None => lengths end in
  let* logits := reweight_logits class_weights train targets n_targets logits in
  let transition_params := Transition_matrix vars in
  match targets with
  | Some targets =>
      let u_loss := ict_u_loss vars live ema n_targets shuffle_indicies lam lam' embedding_out in
      let* sup :=
        supervised_mean Names.ict_locals cfg train device use_crf
          logits targets lengths transition_params total_num_steps in
      let '(logits, lengths, loss) := sup in
      let loss_coef := ssl_coef cfg global_step total_num_steps in
      let loss := nan_add loss (nan_mul (Some loss_coef) u_loss) in
      Ok {| logits := logits;
            losses := option_map Scalar loss;
            predict := {| transition_matrix := transition_params;
                          sequence_length := lengths |} |}
  | None =>
      Ok {| logits := logits;
            losses := Some (Scalar 0);
            predict := {| transition_matrix := transition_params;
                          sequence_length := lengths |} |}
  end.

(** The consistency loss of [mean_teacher]: the mean squared error between
    the logits of the call and those of the moving-average model on
    [embedding_out]. *)
Definition mean_teacher_u_loss (vars : engine_vars) (ema : params) (n_targets : nat)
    (all_logits : ten3) (embedding_out : ten3) : option R :=
  let layer := dense n_targets (kernel vars) (bias vars) in
  let hidden := featurizer_fn ema embedding_out in
  let ema_logits := layer hidden in
  reduce_mean_nan (MSE all_logits ema_logits).

(** [mean_teacher(hidden, targets, n_targets, config, pad_id, multilabel,
    train, reuse, lengths, use_crf, embedding_out, class_weights=...,
    total_num_steps=...)].  No statement of [mean_teacher] binds [device];
    the argument is the value the name would have. *)
Definition mean_teacher (vars : engine_vars) (ema : params) (device : string)
    (global_step : nat)
    (hidden : ten3) (targets : option (list (list nat))) (n_targets : nat)
    (cfg : config) (train : bool) (lengths : option (list nat)) (use_crf : bool)
    (embedding_out : ten3) (class_weights : option vec) (total_num_steps : R)
    : pyresult engine_output :=
  let logits := dense n_targets (kernel vars) (bias vars) hidden in
  let all_logits := logits in
  let lengths := match lengths with Some l => l | None => default_lengths hidden end in
  let logits := match targets with Some y => take (length y) logits | None => logits end in
  let lengths := match targets with Some y => take (length y) lengths | None => lengths end in
  let* logits := reweight_logits class_weights train targets n_targets logits in
  let transition_params := Transition_matrix vars in
  match targets with
  | Some targets =>
      let u_loss := mean_teacher_u_loss vars ema n_targets all_logits embedding_out in
      let* sup :=
        supervised_mean Names.mean_teacher_locals cfg train device use_crf
          logits targets lengths transition_params total_num_steps in
      let '(logits, lengths, loss) := sup in
      let loss_coef := ssl_coef cfg global_step total_num_steps in
      let loss := nan_add loss (nan_mul (Some (ssl_loss_coef cfg)) u_loss) in
      Ok {| logits := logits;
            losses := option_map Scalar loss;
            predict := {| transition_matrix := transition_params;
                          sequence_length := lengths |} |}
  | None =>
      Ok {| logits := logits;
            losses := Some (Scalar 0);
            predict := {| transition_matrix := transition_params;
                          sequence_length := lengths |} |}
  end.

End WithHelpers.

End Ssl.

(** ** The classification heads *)

Module Classifiers.

(** [tf.nn.softmax_cross_entropy_with_logits(logits, labels)] for one
    example: minus the sum of [labels * log_softmax(logits)]. *)
Definition softmax_cross_entropy (logits labels : vec) : R :=
  reduce_sum (zip_with (fun l z => z * (Crf.logsumexp logits - l)) logits labels).

(** [tf.nn.sigmoid_cross_entropy_with_logits(logits=x, labels=z)] for one
    entry: [max(x, 0) - x * z + log(1 + exp(-abs(x)))]. *)
Definition sigmoid_cross_entropy (x z : R) : R :=
  Rmax x 0 - x * z + ln (1 + exp (- Rabs x)).

(** [tf.sigmoid]. *)
Definition sigmoid (x : R) : R := 1 / (1 + exp (- x)).

(** [a + b] for a row [a] and a bias [b]: an axis of size 1 broadcasts. *)
Definition bcast_add_row (a b : vec) : vec :=
  match a, b with
  | [s], _ => map (fun y => s + y) b
  | _, [c] => map (fun x => x + c) a
  | _, _ => zip_with Rplus a b
  end.

(** The result dictionaries of the heads. *)
Record classifier_output := {
  logits : mat;
  losses : option (vec + mat)
}.

Record multi_output := {
  m_logits : mat;
  m_losses : option mat
}.

Section WithDropout.

Variable dropout : mat -> R -> bool -> mat.
Variable dropout3 : ten3 -> R -> bool -> ten3.

(** [classifier(hidden, targets, n_targets, config, train,
    class_weights=...)]; [targets] are one-hot rows. *)
Definition classifier (w : mat) (b : vec) (hidden : mat) (targets : option mat)
    (n_targets : nat) (cfg : config) (train : bool) (class_weights : option vec)
    : classifier_output :=
  let hidden := dropout hidden (clf_p_drop cfg) train in
  let clf_logits := Heads.perceptron w b hidden n_targets in
  match targets with
  | None => {| logits := clf_logits; losses := None |}
  | Some targets =>
      let clf_losses := zip_with softmax_cross_entropy clf_logits targets in
      {| logits := clf_logits;
         losses := Some (ClassWeight._apply_class_weight clf_losses targets class_weights) |}
  end.

(** [multi_classifier(hidden, targets, n_targets, config, train,
    class_weights=...)]; [targets] are rows of 0/1 flags. *)
Definition multi_classifier (w : mat) (b : vec) (hidden : mat) (targets : option mat)
    (n_targets : nat) (cfg : config) (train : bool) (class_weights : option vec)
    : multi_output :=
  let hidden := dropout hidden (clf_p_drop cfg) train in
  let clf_logits := Heads.perceptron w b hidden n_targets in
  match targets with
  | None => {| m_logits := clf_logits; m_losses := None |}
  | Some targets =>
      let clf_losses := zip_with (zip_with sigmoid_cross_entropy) clf_logits targets in
      {| m_logits := clf_logits;
         m_losses := Some (ClassWeight._apply_multilabel_class_weight clf_losses targets
                             class_weights) |}
  end.

(** [ordinal_regressor(hidden, targets, n_targets, config,
    shared_threshold_weights, train)].  With shared weights [w] has shape
    [nx, 1] and the bias [b] of shape [n_targets] broadcasts over the one
    column of [tf.matmul(hidden, w)]. *)
Definition ordinal_regressor (w : mat) (b : vec) (hidden : mat) (targets : option mat)
    (n_targets : nat) (cfg : config) (shared_threshold_weights train : bool)
    : multi_output :=
  let hidden := dropout hidden (clf_p_drop cfg) train in
  let logits :=
    if shared_threshold_weights
    then map (fun row => bcast_add_row (vecmat 1 row w) b) hidden
    else Heads.perceptron w b hidden n_targets in
  match targets with
  | None => {| m_logits := map (map sigmoid) logits; m_losses := None |}
  | Some targets =>
      {| m_logits := logits;
         m_losses := Some (zip_with (zip_with sigmoid_cross_entropy) logits targets) |}
  end.

(** [tf.unstack(t, num=n, axis=1)] of a [batch, n, embed] tensor. *)
Definition unstack_axis1 (n : nat) (t : ten3) : list mat :=
  map (fun c => map (fun example => nth c example []) t) (seq 0 n).

(** [tf.split(m, n, axis=0)]: [n] blocks of [len(m) / n] rows. *)
Definition split_axis0 (n : nat) (m : mat) : list mat :=
  let size := (length m / n)%nat in
  map (fun c => take size (drop (c * size) m)) (seq 0 n).

(** [tf.concat(ms, 1)] of matrices with the same number of rows. *)
Definition concat_axis1 (ms : list mat) : mat :=
  map (fun i => concat (map (fun m => nth i m []) ms)) (seq 0 (length (hd [] ms))).

(** [multi_choice_question(hidden, targets, n_targets, config, train,
    class_weights=...)]: [hidden] has shape [batch, n_targets, embed] and
    [targets] holds the index of the right choice of each example.  With
    class weights, [_apply_class_weight] reduces the rank-1 targets along
    axis 1, which the tensor library rejects. *)
Definition multi_choice_question (w : mat) (b : vec) (hidden : ten3)
    (targets : option (list nat)) (n_targets : nat) (cfg : config) (train : bool)
    (class_weights : option vec) : pyresult (mat * option vec) :=
  let hidden := dropout3 hidden (clf_p_drop cfg) train in
  let hidden := unstack_axis1 n_targets hidden in
  let hidden := concat hidden in
  let clf_out := Heads.perceptron w b hidden 1 in
  let clf_out := split_axis0 n_targets clf_out in
  let clf_out := concat_axis1 clf_out in
  match targets with
  | None => Ok (clf_out, None)
  | Some targets =>
      let clf_losses := zip_with token_xent clf_out targets in
      match class_weights with
      | Some _ => Raise ValueError
      | None => Ok (clf_out, Some clf_losses)
      end
  end.

End WithDropout.

End Classifiers.

(** ** The language-model head *)

Module LanguageModel.

(** [tf.matmul(lm_h, embed_weights, transpose_b=True)] for one hidden
    state: the logits over the vocabulary, with tied weights. *)
Definition tied_logits (embed_weights : mat) (h : vec) : vec :=
  map (fun e => reduce_sum (zip_with Rmult h e)) embed_weights.

(** [tf.sequence_mask(sequence_lengths)]: without [maxlen] the mask is as
    wide as the largest length. *)
Definition max_length (lengths : list nat) : nat := foldr Nat.max 0%nat lengths.
Definition sequence_mask_default (lengths : list nat) : mat :=
  map (fun len => Crf.sequence_mask len (max_length lengths)) lengths.

(** [a / b] in floats: [None] stands for the NaN or infinity of a division
    by zero. *)
Definition float_div (a b : R) : option R :=
  if decide (b = 0) then None else Some (a / b).

Record lm_output := {
  logits : ten3;
  losses : R;
  perplexity : list (option R)
}.

(** [language_model(X, sequence_lengths, embed_weights, hidden, config)]
    for token ids [X] of shape [batch, seq] and [hidden] of shape
    [batch, seq, embed], which [merge_leading_dims] leaves as they are. *)
Definition language_model (X : list (list nat)) (sequence_lengths : list nat)
    (embed_weights : mat) (hidden : ten3) : lm_output :=
  let M := sequence_mask_default sequence_lengths in
  let logits := map (map (tied_logits embed_weights)) hidden in
  let lm_logits_offset := concat (map (fun row => removelast row) logits) in
  let labels := concat (map (drop 1) X) in
  let weights := concat (map (drop 1) M) in
  let lm_losses := sparse_softmax_cross_entropy [labels] [lm_logits_offset] [weights] in
  let perplexity :=
    map (fun m => float_div (reduce_sum (map (fun w => exp lm_losses * w) (drop 1 m)))
                            (reduce_sum (drop 1 m)))
        M in
  {| logits := logits; losses := lm_losses; perplexity := perplexity |}.

End LanguageModel.

(** ** Document labeling (finetune/target_models/document_labeling.py)

    The documents are the JSON of an OCR service: a list of pages, each a
    dict with its ["tokens"] and a list ["pages"] whose first entry
    describes the page.  The dicts are records of the keys the code reads;
    texts are lists of characters, character offsets are integers, and
    positions and resolutions are real numbers.  The [assert] statements
    are modelled as executed. *)

Module DocumentLabeling.

Abbreviation text := (list ascii).

Inductive exception :=
| ZeroDivisionError
| IndexError
| AssertionError
| FinetuneError (msg : string)
| NameError (name : string).

Inductive outcome (A : Type) :=
| Return (a : A)
| Throw (e : exception).
Arguments Return {A} a.
Arguments Throw {A} e.

Definition and_then {A B : Type} (r : outcome A) (k : A -> outcome B) : outcome B :=
  match r with
  | Return a => k a
  | Throw e => Throw e
  end.

Notation "'let+' x ':=' r 'in' k" := (and_then r (fun x => k))
  (at level 10, x name, r at level 100, k at level 200).

(** [for x in xs: body], the loop state passed along; the first exception
    ends the loop. *)
Fixpoint for_loop {A S : Type} (body : S -> A -> outcome S) (xs : list A) (s : S)
    : outcome S :=
  match xs with
  | [] => Return s
  | x :: xs => let+ s' := body s x in for_loop body xs s'
  end.

(** [xs[0]]. *)
Definition first_item {A : Type} (xs : list A) : outcome A :=
  match xs with
  | [] => Throw IndexError
  | x :: _ => Return x
  end.

(** [a / b] of Python numbers. *)
Definition py_div (a b : R) : outcome R :=
  if decide (b = 0) then Throw ZeroDivisionError else Return (a / b).

(** [s[a:b]]: a negative index counts from the end, and both indices are
    clamped to the sequence. *)
Definition slice_index (n i : Z) : Z :=
  if (i <? 0)%Z then Z.max 0 (i + n) else Z.min i n.
Definition py_slice {A : Type} (s : list A) (a b : Z) : list A :=
  let n := Z.of_nat (length s) in
  let lo := slice_index n a in
  let hi := slice_index n b in
  take (Z.to_nat (hi - lo)) (drop (Z.to_nat lo) s).

Record position := { p_top : R; p_bottom : R; p_left : R; p_right : R }.
Record doc_offset := { start : Z; end_ : Z }.
Record token := {
  token_position : position;
  token_doc_offset : doc_offset;
  token_text : text
}.
Record dpi := { dpix : R; dpiy : R }.
Record page_obj := {
  page_dpi : dpi;
  page_text : text;
  page_doc_offset : doc_offset
}.
Record page := { tokens : list token; pages : list page_obj }.
Abbreviation document := (list page).

Record context_item := {
  c_top : R; c_bottom : R; c_left : R; c_right : R;
  c_start : Z; c_end : Z; c_text : text
}.

(** The body of the inner loop of [get_context]. *)
Definition get_context_token (dpi_norm : bool) (pg : page) (context : list context_item)
    (tok : token) : outcome (list context_item) :=
  let pos := token_position tok in
  let offset := token_doc_offset tok in
  let+ norms :=
    (if dpi_norm
     then let+ page_obj := first_item (pages pg) in
          let d := page_dpi page_obj in
          let+ x_norm := py_div 300 (dpix d) in
          let+ y_norm := py_div 300 (dpiy d) in
          Return (x_norm, y_norm)
     else Return (1, 1)) in
  let '(x_norm, y_norm) := norms in
  Return (context ++ [{| c_top := p_top pos * y_norm;
                         c_bottom := p_bottom pos * y_norm;
                         c_left := p_left pos * x_norm;
                         c_right := p_right pos * x_norm;
                         c_start := start offset;
                         c_end := end_ offset;
                         c_text := token_text tok |}]).

Definition get_context (doc : document) (dpi_norm : bool) : outcome (list context_item) :=
  for_loop (fun context pg => for_loop (get_context_token dpi_norm pg) (tokens pg) context)
           doc [].

Definition newline : ascii := ascii_of_nat 10.

(** The body of the loop of [_single_convert_to_finetune]: the state is
    [(texts, last_end)]. *)
Definition convert_page (st : list text * Z) (pg : page) : outcome (list text * Z) :=
  let '(texts, last_end) := st in
  let+ page_obj := first_item (pages pg) in
  let texts := texts ++ [page_text page_obj ++ [newline]] in
  let offset := page_doc_offset page_obj in
  if decide (start offset = last_end + 1)%Z
  then Return (texts, end_ offset)
  else Throw AssertionError.

Definition _single_convert_to_finetune (doc : document) (dpi_norm : bool)
    : outcome (list text * list context_item) :=
  let+ context := get_context doc dpi_norm in
  let+ st := for_loop convert_page doc ([], (-1)%Z) in
  Return (fst st, context).

Record label := { l_start : Z; l_end : Z; l_text : text; l_label : string }.

(** The dict that [zip_list_to_dict] builds for a document; the keys
    ["context"] and ["Y"] are optional. *)
Record sample := {
  sample_X : list text;
  raw_text : text;
  sample_context : option (list context_item);
  sample_Y : option (list label)
}.

(** [assert cond]. *)
Definition py_assert (cond : bool) : outcome unit :=
  if cond then Return tt else Throw AssertionError.

(** [xs[i]] for an index that is not negative. *)
Definition item {A : Type} (xs : list A) (i : nat) : outcome A :=
  match xs !! i with
  | Some x => Return x
  | None => Throw IndexError
  end.

Definition enumerate {A : Type} (xs : list A) : list (nat * A) :=
  zip (seq 0 (length xs)) xs.

Definition length_mismatch : string :=
  "the length of your labels does not match the length of your text".

(** The names that document_labeling.py binds at module level: the three
    it imports and the ones it defines.  None of the names it loads
    otherwise is a builtin. *)
Definition module_globals : list string :=
  ["SequenceLabeler"; "SequencePipeline"; "EncodedOutput"; "get_context";
   "_single_convert_to_finetune"; "DocumentPipeline"; "DocumentLabeler"]%string.

(** Loading the global name [x]: the value [v] it is bound to, or a
    NameError when the module does not bind it. *)
Definition load_global {A : Type} (x : string) (v : A) : outcome A :=
  if bool_decide (x ∈ module_globals) then Return v else Throw (NameError x).

(** [raise FinetuneError(msg)]: the name is loaded, then the exception it
    builds is raised. *)
Definition raise_finetune_error {A : Type} (msg : string) : outcome A :=
  let+ error := load_global "FinetuneError" (FinetuneError msg) in
  Throw error.

(** The body of the loop of [zip_list_to_dict]. *)
Definition zip_sample (default_context : bool) (Y : option (list (list label)))
    (out : list sample) (ix : nat * document) : outcome (list sample) :=
  let '(i, x) := ix in
  let+ converted := _single_convert_to_finetune x true in
  let '(text, context) := converted in
  let joined_text := concat text in
  let+ sample_context :=
    (if default_context
     then let+ checked :=
            for_loop (fun _ cii =>
                        py_assert (bool_decide
                          (c_text cii = py_slice joined_text (c_start cii) (c_end cii))))
                     context tt in
          Return (Some context)
     else Return None) in
  let+ sample_Y :=
    match Y with
    | Some Y =>
        let+ Yi := item Y i in
        let+ checked :=
          for_loop (fun _ yii =>
                      py_assert (bool_decide
                        (l_text yii = py_slice joined_text (l_start yii) (l_end yii))))
                   Yi tt in
        Return (Some Yi)
    | None => Return None
    end in
  Return (out ++ [{| sample_X := text; raw_text := joined_text;
                     sample_context := sample_context; sample_Y := sample_Y |}]).

(** [DocumentPipeline.zip_list_to_dict(X, Y, context)] for a pipeline whose
    [config.default_context] is [default_context]. *)
Definition zip_list_to_dict {C : Type} (default_context : bool) (X : list document)
    (Y : option (list (list label))) (context : option C) : outcome (list sample) :=
  let+ no_context := py_assert (bool_decide (context = None)) in
  let+ lengths_agree :=
    match Y with
    | Some Y => if decide (length X = length Y) then Return tt
                else raise_finetune_error length_mismatch
    | None => Return tt
    end in
  for_loop (zip_sample default_context Y) (enumerate X) [].

(** The fields of [EncodedOutput] that [_text_to_ids] touches; the other
    fields are carried along unchanged. *)
Record encoded_output (P : Type) := {
  token_starts : list Z;
  token_ends : list Z;
  other_fields : P
}.
Arguments token_starts {P} _.
Arguments token_ends {P} _.
Arguments other_fields {P} _.

(** A generator that is run to its end: what it yields, and the exception
    that ended it, if any. *)
Definition generated (A : Type) : Type := list A * option exception.

Section WithEncoder.
Context {P : Type}.
(** [SequencePipeline._text_to_ids] for a fixed [pad_token]: the chunks of
    one page. *)
Variable super_text_to_ids : text -> list (encoded_output P).

Definition shift_chunk (offset : Z) (chunk : encoded_output P) : encoded_output P :=
  {| token_starts := map (fun start => (start + offset)%Z) (token_starts chunk);
     token_ends := map (fun start => (start + offset)%Z) (token_ends chunk);
     other_fields := other_fields chunk |}.

(** The inner loop, over the chunks of a page. *)
Fixpoint yield_chunks (offset : Z) (chunks : list (encoded_output P))
    : generated (encoded_output P) :=
  match chunks with
  | [] => ([], None)
  | chunk :: chunks =>
      if decide (length (token_starts chunk) = length (token_ends chunk))
      then let '(rest, exc) := yield_chunks offset chunks in
           (shift_chunk offset chunk :: rest, exc)
      else ([], Some AssertionError)
  end.

(** The outer loop, from the page offset reached so far. *)
Fixpoint text_to_ids_from (offset : Z) (X : list text) : generated (encoded_output P) :=
  match X with
  | [] => ([], None)
  | X_page :: X =>
      match yield_chunks offset (super_text_to_ids X_page) with
      | (yielded, Some exc) => (yielded, Some exc)
      | (yielded, None) =>
          let '(rest, exc) := text_to_ids_from (offset + Z.of_nat (length X_page))%Z X in
          (yielded ++ rest, exc)
      end
  end.

Definition _text_to_ids (X : list text) : generated (encoded_output P) :=
  text_to_ids_from 0%Z X.

End WithEncoder.

End DocumentLabeling.

(** ** The sequence labeler with associations *)

Module Association.

(** The variables of the scope ["sequence-labeler"]: the three dense
    layers, in the order of their calls, and ["Transition_matrix"]. *)
Record association_vars := {
  kernel : mat;
  bias : vec;
  head_kernel : mat;
  head_bias : vec;
  pair_kernel : mat;
  pair_bias : vec;
  Transition_matrix : mat
}.

(** The fields of the config that [association] reads besides
    [low_memory_mode]. *)
Record association_config := {
  n_embed : nat;
  max_length : nat;
  association_types : list string;
  assocation_loss_weight : R
}.

(** The dict [targets]. *)
Record association_targets := {
  labels : list (list nat);
  associations : list (list (list nat))
}.

(** The dict under ["logits"], with its keys ["sequence"] and
    ["association"]. *)
Record association_logits := {
  l_sequence : ten3;
  l_association : list ten3
}.

Record association_output := {
  logits : association_logits;
  losses : tensor;
  transition_matrix : mat
}.

(** The features of the pairs of positions of one example, from its
    association head [head] of shape [seq, nx]: with
    [a = expand_dims(head, 0)] and [b = expand_dims(head, 1)] the entry
    [i][j] is the concatenation of [a - b], [a * b], [tile(a)] and
    [tile(b)] at [i][j]. *)
Definition pair_features (length : nat) (head : mat) : ten3 :=
  let a_minus_b := map (fun hi => map (fun hj => zip_with Rminus hj hi) head) head in
  let a_times_b := map (fun hi => map (fun hj => zip_with Rmult hj hi) head) head in
  let tile_a := replicate length head in
  let tile_b := map (fun hi => replicate length hi) head in
  let concat_last := zip_with (zip_with (fun u v => u ++ v)) in
  concat_last (concat_last (concat_last a_minus_b a_times_b) tile_a) tile_b.

(** [tf.reshape(flat, [-1, length, length, n])] of a [rows, n] tensor. *)
Definition reshape_pairs (flat : mat) (length : nat) : list ten3 :=
  map (fun b =>
         map (fun i =>
                map (fun j => nth ((b * length + i) * length + j) flat [])
                    (seq 0 length))
             (seq 0 length))
      (seq 0 (List.length flat / (length * length))).

(** [expand_dims(sequence_mask, 1) * expand_dims(sequence_mask, 2)]. *)
Definition pair_mask (lengths : list nat) (length : nat) : ten3 :=
  map (fun len =>
         let sequence_mask := Crf.sequence_mask len length in
         map (fun mi => map (fun mj => mj * mi) sequence_mask) sequence_mask)
      lengths.

Section WithAttention.

(** [attn(hidden, "seq_label_attn", ..., train=train, mask=False,
    lengths=lengths)] and [norm(x, "seq_label_residual")] of the featurizer
    modules. *)
Variable attn : bool -> list nat -> ten3 -> ten3.
Variable norm : ten3 -> ten3.

(** The inner function [seq_lab_internal(hidden)].  The concatenation of
    the features needs [shape(hidden)[1] = config.max_length]; otherwise it
    ends in an error of the tensor library. *)
Definition seq_lab_internal (vars : association_vars) (acfg : association_config)
    (n_targets : nat) (train : bool) (lengths : list nat) (hidden : ten3)
    : pyresult (ten3 * mat * list ten3) :=
  let nx := n_embed acfg in
  let length := max_length acfg in
  let num_associations := (List.length (association_types acfg) + 1)%nat in
  let n := norm (SeqLab.add3 (attn train lengths hidden) hidden) in
  let flat_logits := dense n_targets (kernel vars) (bias vars) n in
  let logits := SeqLab.reshape3 flat_logits (List.length hidden) (List.length (hd [] hidden)) in
  let association_head := dense nx (head_kernel vars) (head_bias vars) n in
  let association_head :=
    SeqLab.reshape3 association_head (List.length hidden) (List.length (hd [] hidden)) in
  if decide (List.length (hd [] hidden) = length) then
    let features := map (pair_features length) association_head in
    let associations_flat :=
      matmul_add num_associations (concat (concat features))
                 (pair_kernel vars) (pair_bias vars) in
    let associations := reshape_pairs associations_flat length in
    Ok (logits, associations_flat, associations)
  else Raise ValueError.

(** [association(hidden, lengths, targets, n_targets, config, train,
    class_weights=..., max_length=...)]; [kw_max_length] is the keyword
    argument [max_length]. *)
Definition association (vars : association_vars) (acfg : association_config)
    (cfg : config) (hidden : ten3) (lengths : list nat)
    (targets : option association_targets) (n_targets : nat) (train : bool)
    (class_weights : option ten3) (kw_max_length : nat) : pyresult association_output :=
  let length := max_length acfg in
  let internal := seq_lab_internal vars acfg n_targets train lengths in
  let internal := if low_memory_mode cfg && train then (fun h => internal h) else internal in
  let* res := internal hidden in
  let '(logits, associations_flat, associations_) := res in
  let log_likelihood := 0 in
  let association_loss := 0 in
  let logits :=
    match class_weights with
    | Some class_weights =>
        ClassWeight.forward (ClassWeight.class_reweighting class_weights) logits
    | None => logits
    end in
  let transition_params := Transition_matrix vars in
  let losses :=
    match targets with
    | Some targets =>
        let log_likelihood :=
          fst (Crf.crf_log_likelihood logits (labels targets)
                 (replicate (List.length (labels targets)) kw_max_length)
                 transition_params) in
        let mask := pair_mask lengths length in
        let association_loss :=
          sparse_softmax_cross_entropy [concat (concat (associations targets))]
                                       [associations_flat]
                                       [concat (concat mask)] in
        Vector (map (fun ll => - ll + assocation_loss_weight acfg * association_loss)
                    log_likelihood)
    | None => Scalar (- log_likelihood + assocation_loss_weight acfg * association_loss)
    end in
  Ok {| logits := {| l_sequence := logits; l_association := associations_ |};
        losses := losses;
        transition_matrix := transition_params |}.

End WithAttention.

End Association.

(** * Properties *)

(** ** Sums, scaling and norms *)

Lemma reduce_sum_cons (x : R) (v : vec) : reduce_sum (x :: v) = x + reduce_sum v.
Proof. reflexivity. Qed.

Lemma reduce_sum_app (u v : vec) : reduce_sum (u ++ v) = reduce_sum u + reduce_sum v.
Proof.
  induction u as [|x u IH]; cbn [app].
  - unfold reduce_sum at 2. cbn. lra.
  - rewrite !reduce_sum_cons, IH. lra.
Qed.

Lemma reduce_sum_scale (c : R) (v : vec) :
  reduce_sum (map (fun x => x * c) v) = reduce_sum v * c.
Proof.
  induction v as [|x v IH]; cbn [map].
  - unfold reduce_sum. cbn. lra.
  - rewrite !reduce_sum_cons, IH. lra.
Qed.

Lemma reduce_sum2_scale (c : R) (m : mat) :
  reduce_sum2 (map (map (fun x => x * c)) m) = reduce_sum2 m * c.
Proof.
  unfold reduce_sum2.
  induction m as [|r m IH]; cbn [map].
  - unfold reduce_sum. cbn. lra.
  - rewrite !reduce_sum_cons, IH, reduce_sum_scale. lra.
Qed.

Lemma reduce_sum_nonneg (v : vec) : Forall (fun x => 0 <= x) v -> 0 <= reduce_sum v.
Proof.
  induction 1 as [|x v Hx _ IH].
  - unfold reduce_sum. cbn. lra.
  - rewrite reduce_sum_cons. lra.
Qed.

Module ClassWeightFacts.
Import ClassWeight.

Lemma sumsq3_scale (c : R) (t : ten3) : sumsq3 (scale3 t c) = sumsq3 t * (c * c).
Proof.
  unfold sumsq3, scale3, reduce_sum3, reduce_sum2.
  induction t as [|m t IHt]; cbn [map].
  - unfold reduce_sum. cbn. lra.
  - rewrite !reduce_sum_cons, IHt.
    assert (Hm : reduce_sum (map reduce_sum (map (map (fun x => x * x)) (map (map (fun x => x * c)) m)))
                 = reduce_sum (map reduce_sum (map (map (fun x => x * x)) m)) * (c * c)).
    { induction m as [|r m IHm]; cbn [map].
      - unfold reduce_sum. cbn. lra.
      - rewrite !reduce_sum_cons, IHm.
        assert (Hr : reduce_sum (map (fun x => x * x) (map (fun x => x * c) r))
                     = reduce_sum (map (fun x => x * x) r) * (c * c)).
        { clear. induction r as [|x r IHr]; cbn [map].
          - unfold reduce_sum. cbn. lra.
          - rewrite !reduce_sum_cons, IHr. lra. }
        rewrite Hr. lra. }
    rewrite Hm. lra.
Qed.

Lemma sumsq3_nonneg (t : ten3) : 0 <= sumsq3 t.
Proof.
  unfold sumsq3, reduce_sum3, reduce_sum2.
  apply reduce_sum_nonneg, Forall_map, Forall_map, Forall_true. intros m. cbn.
  apply reduce_sum_nonneg, Forall_map, Forall_map, Forall_true. intros r. cbn.
  apply reduce_sum_nonneg, Forall_map, Forall_true. intros x. cbn. nra.
Qed.

Lemma norm3_nonneg (t : ten3) : 0 <= norm3 t.
Proof. apply sqrt_pos. Qed.

Lemma norm3_scale (c : R) (t : ten3) : 0 <= c -> norm3 (scale3 t c) = norm3 t * c.
Proof.
  intros Hc. unfold norm3. rewrite sumsq3_scale.
  rewrite sqrt_mult_alt by apply sumsq3_nonneg.
  rewrite sqrt_square by exact Hc. reflexivity.
Qed.

Lemma length_lookup_weights (cw : vec) (targets : mat) :
  length (lookup_weights cw targets) = length targets.
Proof. unfold lookup_weights. apply length_map. Qed.

Lemma renormalize1_sum (w : vec) :
  reduce_sum w <> 0 -> reduce_sum (renormalize1 w) = INR (length w).
Proof.
  intros Hw. unfold renormalize1. rewrite reduce_sum_scale.
  unfold shape1, reduce_prod. cbn [foldr]. rewrite Nat.mul_1_r. field. exact Hw.
Qed.

Lemma renormalize2_sum (w : mat) :
  reduce_sum2 w <> 0 -> reduce_sum2 (renormalize2 w) = INR (reduce_prod (shape2 w)).
Proof.
  intros Hw. unfold renormalize2. rewrite reduce_sum2_scale. field. exact Hw.
Qed.

Lemma multilabel_raw_shape (cw : vec) (targets : mat) :
  targets <> [] -> Forall (fun t => length t = length cw) targets ->
  reduce_prod (shape2 (multilabel_raw_weights cw targets)) = (length targets * length cw)%nat.
Proof.
  intros Hne Hreg. destruct targets as [|t targets]; [contradiction|].
  inversion Hreg as [|? ? Ht _]; subst.
  unfold multilabel_raw_weights, shape2, reduce_prod. cbn [map hd foldr].
  rewrite !length_zip_with, !length_map, Ht, !Nat.min_id. cbn [length].
  rewrite length_map. lia.
Qed.

End ClassWeightFacts.

(** Evaluation of the list structure of a tensor expression, leaving the
    arithmetic of [R] untouched. *)
Ltac tensor_eval :=
  cbn -[Rplus Rmult Rminus Rdiv Rinv Ropp IZR INR exp ln sqrt Rabs Rmax Rmin
        Rlt_dec Req_dec_T].

(** Equality of two tensors given by their entries. *)
Ltac tensor_eq :=
  repeat (match goal with |- @eq (list _) (_ :: _) (_ :: _) => f_equal end);
  try reflexivity; try lra.

Module ClassWeightTheorems.
Import ClassWeight ClassWeightFacts.

(** C1 (as amended).  After the renormalization of [_apply_class_weight]
    the weights of a batch sum to the batch size; after that of
    [_apply_multilabel_class_weight] they sum to the number of entries,
    batch size times number of classes; and the gradient returned by
    [class_reweighting] has the Euclidean norm of the incoming gradient.
    Each holds when the quantity the code divides by is not zero. *)
Theorem class_weight_normalization
    (cw1 : vec) (targets1 : mat) (cw2 : vec) (targets2 : mat) (w g : ten3) :
  reduce_sum (lookup_weights cw1 targets1) <> 0 ->
  Forall (fun t => length t = length cw2) targets2 ->
  reduce_sum2 (multilabel_raw_weights cw2 targets2) <> 0 ->
  norm3 (bcast_mul g w) <> 0 ->
  reduce_sum (single_label_weights cw1 targets1) = INR (length targets1)
  /\ reduce_sum2 (multilabel_weights cw2 targets2) = INR (length targets2 * length cw2)
  /\ norm3 (grad (class_reweighting w) g) = norm3 g.
Proof.
  intros H1 Hreg H2 H3. split; [|split].
  - unfold single_label_weights. rewrite renormalize1_sum by exact H1.
    now rewrite length_lookup_weights.
  - unfold multilabel_weights. rewrite renormalize2_sum by exact H2.
    f_equal. apply multilabel_raw_shape; [|exact Hreg].
    intros ->. apply H2. unfold multilabel_raw_weights, reduce_sum2, reduce_sum. now cbn.
  - cbn [grad class_reweighting].
    rewrite norm3_scale.
    + field. exact H3.
    + apply Rmult_le_pos; [apply norm3_nonneg|].
      apply Rlt_le, Rinv_0_lt_compat.
      destruct (norm3_nonneg (bcast_mul g w)) as [Hlt|Heq]; [exact Hlt|].
      exfalso. apply H3. now symmetry.
Qed.

(** The theorem at a batch of two examples with class weights 1 and 3, a
    multilabel batch of one example and a gradient of norm 5. *)
Lemma class_weight_normalization_witness :
  reduce_sum (single_label_weights [1; 3] [[1; 0]; [0; 1]]) = INR 2
  /\ reduce_sum2 (multilabel_weights [2; 1] [[1; 0]]) = INR (1 * 2)
  /\ norm3 (grad (class_reweighting [[[2]]]) [[[3; 4]]]) = norm3 [[[3; 4]]].
Proof.
  apply (class_weight_normalization [1; 3] [[1; 0]; [0; 1]] [2; 1] [[1; 0]] [[[2]]] [[[3; 4]]]).
  - unfold lookup_weights, reduce_sum. tensor_eval. lra.
  - repeat constructor.
  - unfold multilabel_raw_weights, reduce_sum2, reduce_sum. tensor_eval. lra.
  - unfold norm3, sumsq3, reduce_sum3, reduce_sum2, reduce_sum, bcast_mul. tensor_eval.
    apply Rgt_not_eq, Rlt_gt, sqrt_lt_R0. lra.
Defined.

(** C1 as stated fails on the multilabel path: for one example with two
    classes the renormalized weights are 4/3 and 2/3, whose sum is 2 and
    not the batch size 1. *)
Lemma multilabel_weights_sum_not_batch_size :
  reduce_sum2 (multilabel_weights [2; 1] [[1; 0]]) <> INR (length [[1; 0]]).
Proof.
  unfold multilabel_weights, renormalize2, multilabel_raw_weights, reduce_sum2, reduce_sum,
    shape2, reduce_prod.
  tensor_eval. cbn [INR]. intros Heq. field_simplify in Heq. lra.
Qed.

End ClassWeightTheorems.

(** ** The regressor *)

Module RegressorTheorems.
Import Heads.



Definition no_dropout (x : mat) (_ : R) (_ : bool) : mat := x.




End RegressorTheorems.

(** ** The CRF log-likelihood is never positive *)

Module CrfFacts.
Import Crf.

Lemma exp_le_sum_exp (v : vec) (i : nat) :
  (i < length v)%nat -> exp (nth i v 0) <= reduce_sum (map exp v).
Proof.
  revert i. induction v as [|x v IH]; intros [|i] Hi; cbn [length] in Hi; try lia;
    cbn [nth map]; rewrite reduce_sum_cons.
  - assert (0 <= reduce_sum (map exp v)).
    { apply reduce_sum_nonneg, Forall_map, Forall_true. intros y. left. apply exp_pos. }
    lra.
  - specialize (IH i ltac:(lia)). pose proof (exp_pos x). lra.
Qed.

Lemma logsumexp_ge (v : vec) (i : nat) :
  (i < length v)%nat -> nth i v 0 <= logsumexp v.
Proof.
  intros Hi. unfold logsumexp.
  destruct (exp_le_sum_exp v i Hi) as [Hlt | Heq].
  - left. rewrite <- (ln_exp (nth i v 0)) at 1.
    apply ln_increasing; [apply exp_pos | exact Hlt].
  - right. rewrite <- Heq. symmetry. apply ln_exp.
Qed.

Lemma nth_zip_with {A B C : Type} (h : A -> B -> C) (a : list A) (b : list B)
    (i : nat) (da : A) (db : B) (dc : C) :
  (i < length a)%nat -> (i < length b)%nat ->
  nth i (zip_with h a b) dc = h (nth i a da) (nth i b db).
Proof.
  revert b i. induction a as [|x a IH]; intros [|y b] [|i] Ha Hb;
    cbn [length] in *; try lia; cbn [zip_with nth].
  - reflexivity.
  - apply IH; lia.
Qed.

Lemma nth_map_seq {A : Type} (g : nat -> A) (n i : nat) (d : A) :
  (i < n)%nat -> nth i (map g (seq 0 n)) d = g i.
Proof.
  intros Hi. rewrite (nth_indep _ d (g 0%nat)) by now rewrite length_map, length_seq.
  rewrite map_nth. f_equal. now apply seq_nth.
Qed.

(** A sum masked by [sequence_mask] is the sum of a prefix. *)
Lemma masked_sum (us : vec) (len s n : nat) :
  (length us <= n)%nat ->
  reduce_sum (zip_with Rmult us (map (fun t => if (t <? len)%nat then 1 else 0) (seq s n)))
  = reduce_sum (take (len - s) us).
Proof.
  revert s n. induction us as [|u us IH]; intros s n Hn.
  - now rewrite take_nil.
  - destruct n as [|n]; cbn [length] in Hn; [lia|].
    cbn [seq map zip_with]. rewrite reduce_sum_cons, IH by lia.
    destruct (Nat.ltb_spec s len) as [Hlt | Hge].
    + replace (len - s)%nat with (S (len - S s)) by lia.
      rewrite firstn_cons, reduce_sum_cons. lra.
    + replace (len - s)%nat with 0%nat by lia. replace (len - S s)%nat with 0%nat by lia.
      rewrite !take_0. unfold reduce_sum. cbn. lra.
Qed.

Lemma drop_mask (len maxlen : nat) :
  drop 1 (sequence_mask len maxlen)
  = map (fun t => if (t <? len)%nat then 1 else 0) (seq 1 (maxlen - 1)).
Proof.
  unfold sequence_mask. destruct maxlen as [|n]; [reflexivity|].
  replace (S n - 1)%nat with n by lia. reflexivity.
Qed.

Section Path.

Variable transition_params : mat.

Definition unary_at (row : vec) (y : nat) : R := nth y row 0.
Definition binary_at (a b : nat) : R := nth b (nth a transition_params []) 0.

(** The score of continuing from tag [y0] along the tags [ys] over the
    rows [rows]. *)
Fixpoint path_score (y0 : nat) (ys : list nat) (rows : mat) : R :=
  match ys, rows with
  | y :: ys', r :: rows' => binary_at y0 y + unary_at r y + path_score y ys' rows'
  | _, _ => 0
  end.

(** The last tag of a path that starts at [y0]. *)
Definition final_tag (y0 : nat) (ys : list nat) : nat := foldl (fun _ y => y) y0 ys.

Definition transition_pairs (y0 : nat) (ys : list nat) : vec :=
  zip_with binary_at (take (length ys) (y0 :: ys)) ys.

Lemma transition_pairs_cons (y0 y1 : nat) (ys : list nat) :
  transition_pairs y0 (y1 :: ys) = binary_at y0 y1 :: transition_pairs y1 ys.
Proof. reflexivity. Qed.

Lemma prefix_scores (k : nat) (y0 : nat) (ys : list nat) (rows : mat) :
  length ys = length rows ->
  reduce_sum (take k (zip_with unary_at rows ys)) + reduce_sum (take k (transition_pairs y0 ys))
  = path_score y0 (take k ys) (take k rows).
Proof.
  revert y0 ys rows. induction k as [|k IH]; intros y0 ys rows Hlen.
  - rewrite !take_0. cbn. unfold reduce_sum. cbn. lra.
  - destruct ys as [|y1 ys], rows as [|r rows]; cbn [length] in Hlen; try discriminate.
    + cbn. unfold reduce_sum. cbn. lra.
    + rewrite transition_pairs_cons. cbn [zip_with]. rewrite !firstn_cons.
      cbn [path_score]. rewrite !reduce_sum_cons.
      rewrite <- (IH y1 ys rows) by lia. lra.
Qed.

(** The sequence score of a non-empty sequence, as a path score. *)
Lemma sequence_score_path (r0 : vec) (rows : mat) (y0 : nat) (ys : list nat) (len : nat) :
  length ys = length rows -> (1 <= len)%nat ->
  crf_sequence_score (r0 :: rows) (y0 :: ys) len transition_params
  = unary_at r0 y0 + path_score y0 (take (len - 1) ys) (take (len - 1) rows).
Proof.
  intros Hlen Hpos.
  unfold crf_sequence_score, crf_unary_score, crf_binary_score.
  cbn zeta. rewrite drop_mask. unfold sequence_mask.
  rewrite !masked_sum.
  - replace (len - 0)%nat with (S (len - 1)) by lia.
    cbn [zip_with length]. rewrite firstn_cons, reduce_sum_cons.
    replace (S (length ys) - 1)%nat with (length ys) by lia.
    cbn [drop skipn]. rewrite drop_0.
    rewrite <- prefix_scores by exact Hlen.
    unfold transition_pairs, unary_at, binary_at. apply Rplus_assoc.
  - rewrite length_zip_with, length_take, length_drop. cbn [length]. lia.
  - rewrite length_zip_with. cbn [length]. lia.
Qed.

End Path.

(** The state that [tf.scan] reaches after [k] steps. *)
Lemma nth_scan (f : vec -> vec -> vec) (rest : mat) (state : vec) (k : nat) :
  (k <= length rest)%nat ->
  nth k (state :: scan f rest state) [] = fold_left f (take k rest) state.
Proof.
  revert state k. induction rest as [|x rest IH]; intros state [|k] Hk;
    cbn [length] in Hk; try lia; try reflexivity.
  cbn [scan nth]. rewrite firstn_cons. cbn [fold_left].
  rewrite <- IH by lia. reflexivity.
Qed.

Section Forward.

Variable transition_params : mat.
Variable n : nat.
Hypothesis transition_rows : length transition_params = n.

Lemma length_scan_fn (state inputs : vec) :
  length (scan_fn transition_params state inputs) = length inputs.
Proof.
  unfold scan_fn. rewrite length_zip_with, length_map, length_seq. lia.
Qed.

(** One step of the forward recursion dominates the extension of any
    path by one tag. *)
Lemma scan_fn_ge (state inputs : vec) (y0 y : nat) :
  length state = n -> length inputs = n -> (y0 < n)%nat -> (y < n)%nat ->
  nth y0 state 0 + binary_at transition_params y0 y + unary_at inputs y
  <= nth y (scan_fn transition_params state inputs) 0.
Proof using transition_rows.
  intros Hs Hi Hy0 Hy. unfold scan_fn.
  rewrite (nth_zip_with Rplus _ _ y 0 0 0)
    by (rewrite ?length_map, ?length_seq; lia).
  rewrite nth_map_seq by lia.
  pose proof (logsumexp_ge
                (zip_with (fun s row => s + nth y row 0) state transition_params) y0) as Hge.
  rewrite (nth_zip_with _ _ _ y0 0 [] 0) in Hge by lia.
  specialize (Hge ltac:(rewrite length_zip_with; lia)).
  unfold binary_at, unary_at. lra.
Qed.

(** The forward recursion dominates the score of every path. *)
Lemma forward_ge (rows : mat) :
  forall (ys : list nat) (state : vec) (y0 : nat) (c : R),
    length ys = length rows ->
    Forall (fun r => length r = n) rows ->
    Forall (fun y => (y < n)%nat) ys ->
    (y0 < n)%nat -> length state = n ->
    c <= nth y0 state 0 ->
    let final := fold_left (scan_fn transition_params) rows state in
    length final = n
    /\ (final_tag y0 ys < n)%nat
    /\ c + path_score transition_params y0 ys rows <= nth (final_tag y0 ys) final 0.
Proof using transition_rows.
  induction rows as [|r rows IH]; intros ys state y0 c Hlen Hrows Hys Hy0 Hstate Hc.
  - destruct ys; [|discriminate]. cbn. repeat split; try assumption. lra.
  - destruct ys as [|y ys]; [discriminate|].
    apply Forall_cons in Hrows as [Hr Hrows'].
    apply Forall_cons in Hys as [Hy Hys'].
    cbn [fold_left path_score]. unfold final_tag. cbn [foldl]. fold (final_tag y ys).
    pose proof (scan_fn_ge state r y0 y Hstate Hr Hy0 Hy) as Hstep.
    destruct (IH ys (scan_fn transition_params state r) y
                 (c + binary_at transition_params y0 y + unary_at r y))
      as (Hfinal & Htag & Hle).
    + cbn [length] in Hlen. lia.
    + exact Hrows'.
    + exact Hys'.
    + exact Hy.
    + now rewrite length_scan_fn.
    + lra.
    + repeat split; try assumption. lra.
Qed.

(** The log-likelihood of a sequence is at most 0: the log partition
    function dominates the score of the given tags. *)
Lemma crf_log_likelihood_row_nonpos (inputs : mat) (tag_indices : list nat) (len : nat) :
  Forall (fun r => length r = n) inputs ->
  length tag_indices = length inputs ->
  Forall (fun y => (y < n)%nat) tag_indices ->
  (len <= length inputs)%nat ->
  crf_log_likelihood_row inputs tag_indices len transition_params <= 0.
Proof using transition_rows.
  intros Hrows Hlen Htags Hle. unfold crf_log_likelihood_row.
  destruct len as [|k].
  - unfold crf_log_norm, crf_sequence_score, crf_unary_score, crf_binary_score.
    cbn zeta. rewrite drop_mask. unfold sequence_mask.
    rewrite !masked_sum.
    + cbn [Nat.sub]. rewrite !take_0. unfold reduce_sum. cbn. lra.
    + rewrite length_zip_with, length_take, length_drop. lia.
    + rewrite length_zip_with. lia.
  - destruct inputs as [|r0 rows]; cbn [length] in Hle; [lia|].
    destruct tag_indices as [|y0 ys]; [discriminate|].
    apply Forall_cons in Hrows as [Hr0 Hrows'].
    apply Forall_cons in Htags as [Hy0 Hys].
    cbn [length] in Hlen.
    rewrite sequence_score_path by lia.
    unfold crf_log_norm, crf_forward. cbn zeta. cbn [hd Nat.leb].
    replace (drop 1 (r0 :: rows)) with rows by reflexivity.
    rewrite nth_scan by (cbn; lia).
    replace (S k - 1)%nat with k by lia.
    destruct (forward_ge (take k rows) (take k ys) r0 y0 (unary_at r0 y0))
      as (Hfinal & Htag & Hbound).
    + rewrite !length_take. lia.
    + now apply Forall_take.
    + now apply Forall_take.
    + exact Hy0.
    + exact Hr0.
    + unfold unary_at. lra.
    + pose proof (logsumexp_ge
                    (fold_left (scan_fn transition_params) (take k rows) r0)
                    (final_tag y0 (take k ys))) as Hge.
      specialize (Hge ltac:(lia)). lra.
Qed.

End Forward.

(** A batch is well formed for [n] tags when every row of logits has [n]
    columns, every tag is below [n], tags and logits have the same number
    of positions and no length exceeds it. *)
Definition valid_row (n : nat) (x : mat) (y : list nat) (len : nat) : Prop :=
  Forall (fun r => length r = n) x
  /\ length y = length x
  /\ Forall (fun t => (t < n)%nat) y
  /\ (len <= length x)%nat.

Definition valid_batch (n : nat) (inputs : ten3) (tags : list (list nat))
    (lengths : list nat) : Prop :=
  Forall (fun p => valid_row n (fst (fst p)) (snd (fst p)) (snd p))
         (zip (zip inputs tags) lengths).

Lemma crf_log_likelihood_nonpos (n : nat) (inputs : ten3) (tags : list (list nat))
    (lengths : list nat) (transition_params : mat) :
  length transition_params = n ->
  valid_batch n inputs tags lengths ->
  Forall (fun ll => ll <= 0)
         (fst (crf_log_likelihood inputs tags lengths transition_params)).
Proof.
  intros Htrans Hvalid. unfold crf_log_likelihood. cbn [fst].
  unfold valid_batch in Hvalid.
  remember (zip inputs tags) as xy eqn:Hxy. clear Hxy.
  revert lengths Hvalid. induction xy as [|[x y] xy IH]; intros [|len lengths] Hvalid;
    cbn [zip_with] in *; try constructor.
  - apply Forall_cons in Hvalid as [(Hx & Hy & Ht & Hl) _]. cbn [fst snd] in *.
    now apply (crf_log_likelihood_row_nonpos transition_params n Htrans).
  - apply Forall_cons in Hvalid as [_ Hvalid]. now apply IH.
Qed.

Lemma crf_loss_nonneg (n : nat) (logits : ten3) (targets : list (list nat))
    (lengths : list nat) (transition_params : mat) :
  length transition_params = n ->
  valid_batch n logits targets lengths ->
  Forall (fun l => 0 <= l) (crf_loss logits targets lengths transition_params).
Proof.
  intros Htrans Hvalid. unfold crf_loss. apply Forall_map.
  eapply Forall_impl; [now apply (crf_log_likelihood_nonpos n)|].
  intros ll Hll. cbn. lra.
Qed.

End CrfFacts.

(** ** Shapes *)

Definition has_shape2 {A : Type} (b s : nat) (t : list (list A)) : Prop :=
  length t = b /\ Forall (fun m => length m = s) t.

Definition has_shape3 (b s n : nat) (t : ten3) : Prop :=
  length t = b /\ Forall (fun m => length m = s /\ Forall (fun r => length r = n) m) t.

Lemma has_shape2_hd {A : Type} (b s : nat) (t : list (list A)) :
  has_shape2 b s t -> (0 < b)%nat -> length (hd [] t) = s.
Proof.
  intros [Hb Hs] Hpos. destruct t as [|m t]; cbn [length] in Hb; [lia|].
  now apply Forall_cons in Hs as [Hm _].
Qed.

Lemma has_shape3_shape (b s n : nat) (t : ten3) :
  has_shape3 b s n t -> (0 < b)%nat -> (0 < s)%nat -> shape3 t = [b; s; n].
Proof.
  intros [Hb Hs] Hbpos Hspos. unfold shape3.
  destruct t as [|m t]; cbn [length] in Hb; [lia|].
  apply Forall_cons in Hs as [[Hm Hr] _]. cbn [hd].
  destruct m as [|r m]; cbn [length] in Hm; [lia|].
  apply Forall_cons in Hr as [Hr _]. cbn [hd length]. now rewrite Hm, Hr, <- Hb.
Qed.

Lemma length_vecmat (ny : nat) (x : vec) (w : mat) : length (vecmat ny x w) = ny.
Proof. unfold vecmat. now rewrite length_map, length_seq. Qed.

Lemma matmul_add_shape (ny : nat) (x w : mat) (b : vec) :
  length b = ny ->
  length (matmul_add ny x w b) = length x
  /\ Forall (fun r => length r = ny) (matmul_add ny x w b).
Proof.
  intros Hb. unfold matmul_add. split; [apply length_map|].
  apply Forall_map, Forall_true. intros row. cbn.
  rewrite length_zip_with, length_vecmat. lia.
Qed.

Lemma dense_shape (ny b s : nat) (kernel : mat) (bias : vec) (x : ten3) :
  length bias = ny -> has_shape2 b s x -> has_shape3 b s ny (dense ny kernel bias x).
Proof.
  intros Hbias [Hb Hs]. unfold dense. split; [now rewrite length_map|].
  apply Forall_map. eapply Forall_impl; [exact Hs|].
  intros m Hm. destruct (matmul_add_shape ny m kernel bias Hbias) as [Hl Hr].
  split; [congruence | exact Hr].
Qed.

Lemma concat_shape (b s n : nat) (t : ten3) :
  has_shape3 b s n t ->
  length (concat t) = (b * s)%nat /\ Forall (fun r => length r = n) (concat t).
Proof.
  intros [Hb Hs]. revert b Hb. induction Hs as [|m t [Hm Hr] _ IH]; intros b Hb.
  - cbn in *. subst b. split; [reflexivity | constructor].
  - cbn [length] in Hb. destruct (IH (length t) eq_refl) as [Hlen Hall].
    cbn [concat]. rewrite length_app. split.
    + rewrite Hlen, Hm, <- Hb. lia.
    + apply Forall_app. split; assumption.
Qed.

Lemma reshape3_shape (b s n : nat) (t : ten3) :
  has_shape3 b s n t -> has_shape3 b s n (SeqLab.reshape3 t b s).
Proof.
  intros Ht. destruct (concat_shape b s n t Ht) as [Hlen Hall].
  unfold SeqLab.reshape3. split; [now rewrite length_map, length_seq|].
  apply Forall_map, Forall_forall. intros i Hi. apply elem_of_seq in Hi. cbn.
  split; [now rewrite length_map, length_seq|].
  apply Forall_map, Forall_forall. intros j Hj. apply elem_of_seq in Hj. cbn.
  assert (Hin : (i * s + j < length (concat t))%nat) by (rewrite Hlen; nia).
  rewrite Forall_forall in Hall. apply Hall.
  apply list_elem_of_In, nth_In. exact Hin.
Qed.

Lemma valid_batch_intro (n s : nat) (logits : ten3) (targets : list (list nat))
    (lengths : list nat) :
  Forall (fun m => length m = s /\ Forall (fun r => length r = n) m) logits ->
  Forall (fun r => length r = s /\ Forall (fun y => (y < n)%nat) r) targets ->
  Forall (fun len => (len <= s)%nat) lengths ->
  CrfFacts.valid_batch n logits targets lengths.
Proof.
  unfold CrfFacts.valid_batch.
  intros Hl. revert targets lengths.
  induction Hl as [|m logits [Hm Hr] _ IH]; intros targets lengths Ht Hlen.
  - constructor.
  - destruct Ht as [|y targets [Hy Hyr] Ht]; [constructor|].
    destruct Hlen as [|len lengths Hle Hlen]; [constructor|].
    cbn [zip zip_with]. constructor.
    + cbn [fst snd]. unfold CrfFacts.valid_row. repeat split; try assumption; lia.
    + now apply IH.
Qed.

(** A variable has the shape it is declared with. *)
Lemma get_variable_shape (entries : nat -> nat -> R) (rows cols : nat) :
  has_shape2 rows cols (get_variable entries rows cols).
Proof.
  unfold get_variable. split; [now rewrite length_map, length_seq|].
  apply Forall_map, Forall_true. intros i. cbn. now rewrite length_map, length_seq.
Qed.

Lemma get_variable_shape2 (entries : nat -> nat -> R) (rows cols : nat) :
  (0 < rows)%nat -> shape2 (get_variable entries rows cols) = [rows; cols].
Proof.
  intros Hrows. pose proof (get_variable_shape entries rows cols) as Hshape.
  unfold shape2. rewrite (has_shape2_hd rows cols _ Hshape Hrows).
  now rewrite (proj1 Hshape).
Qed.

(** ** The sequence labeler with a CRF *)

Module SeqLabFacts.
Import SeqLab.

Section WithAttention.

Variable attn : bool -> ten3 -> ten3.
Variable norm : ten3 -> ten3.

Lemma seq_lab_internal_shape (vars : labeler_vars) (cfg : config) (n : nat) (train : bool)
    (hidden : ten3) (b s : nat) :
  has_shape2 b s hidden ->
  (is_bidirectional cfg = false -> has_shape2 b s (norm (add3 (attn train hidden) hidden))) ->
  length (bias vars) = n ->
  has_shape3 b s n (seq_lab_internal attn norm vars cfg n train hidden).
Proof.
  intros Hh Hattn Hbias. unfold seq_lab_internal.
  assert (Hn : has_shape2 b s (if is_bidirectional cfg then hidden
                               else norm (add3 (attn train hidden) hidden))).
  { destruct (is_bidirectional cfg); [exact Hh | now apply Hattn]. }
  pose proof (dense_shape n b s (kernel vars) (bias vars) _ Hbias Hn) as Hd.
  destruct Hh as [Hb Hs]. rewrite Hb.
  destruct b as [|b'].
  - unfold reshape3. cbn [seq map]. split; [reflexivity | constructor].
  - rewrite (has_shape2_hd (S b') s hidden) by (try split; try assumption; lia).
    now apply reshape3_shape.
Qed.

(** A run of the labeler with a CRF on a well-shaped labeled batch: the
    logits have shape [b, s, n], the loss is a vector with one
    non-negative entry per example, and the predict parameters carry the
    transition matrix, of shape [n, n], and the lengths. *)
Lemma sequence_labeler_crf_run (vars : labeler_vars) (hidden : ten3)
    (y : list (list nat)) (n : nat) (cfg : config) (pad_id : nat) (train : bool)
    (lengths : list nat) (class_weights : option vec) (b s : nat) :
  has_shape2 b s hidden ->
  (is_bidirectional cfg = false -> has_shape2 b s (norm (add3 (attn train hidden) hidden))) ->
  length (bias vars) = n ->
  has_shape2 b s y ->
  Forall (Forall (fun t => (t < n)%nat)) y ->
  length lengths = b ->
  Forall (fun len => (len <= s)%nat) lengths ->
  exists (lg : ten3) (v : vec),
    sequence_labeler attn norm vars hidden (Some (Labels y)) n cfg pad_id false train
      (Some lengths) true class_weights
    = Ok {| logits := Logits3 lg;
            losses := Some (Vector v);
            predict := {| transition_matrix :=
                            Transition (get_variable (Transition_matrix vars) n n);
                          sequence_length := lengths |} |}
    /\ has_shape3 b s n lg
    /\ length v = b
    /\ Forall (fun l => 0 <= l) v.
Proof.
  intros Hh Hattn Hbias [Hyb Hys] Hyn Hlb Hls.
  pose proof (seq_lab_internal_shape vars cfg n train hidden b s Hh Hattn Hbias) as Hlg.
  exists (seq_lab_internal attn norm vars cfg n train hidden).
  exists (crf_loss (seq_lab_internal attn norm vars cfg n train hidden) y lengths
            (get_variable (Transition_matrix vars) n n)).
  split; [|split; [exact Hlg | split]].
  - unfold sequence_labeler, recompute_grad.
    destruct (low_memory_mode cfg && train); destruct class_weights as [cw|];
      destruct train; reflexivity.
  - unfold crf_loss, Crf.crf_log_likelihood. cbn [fst].
    rewrite length_map, length_zip_with, length_zip.
    destruct Hlg as [Hlen _]. lia.
  - apply (CrfFacts.crf_loss_nonneg n); [apply get_variable_shape|].
    destruct Hlg as [_ Hrows].
    apply (valid_batch_intro n s); [exact Hrows | | exact Hls].
    clear -Hys Hyn. induction Hys as [|r y Hr _ IH]; [constructor|].
    apply Forall_cons in Hyn as [Hrn Hyn]. constructor; [now split | now apply IH].
Qed.

End WithAttention.

End SeqLabFacts.

Lemma has_shape3_2 (b s n : nat) (t : ten3) : has_shape3 b s n t -> has_shape2 b s t.
Proof.
  intros [Hb Hs]. split; [exact Hb|].
  eapply Forall_impl; [exact Hs|]. now intros m [Hm _].
Qed.

Module SeqLabTheorems.
Import SeqLab SeqLabFacts.

(** C2 (as amended).  For hidden states of shape (2, 5, 8), targets of
    shape (2, 5) with values in {0, 1, 2}, n_targets = 3, use_crf = True
    and lengths [5, 3], the labeler returns logits of shape (2, 5, 3), a
    loss that is a vector of two non-negative entries (one negative
    log-likelihood per sequence, not a scalar), and predict parameters
    whose transition matrix is the variable that the code declares with
    shape [n_targets, n_targets], here (3, 3). *)
Theorem sequence_labeler_end_to_end (attn : bool -> ten3 -> ten3) (norm : ten3 -> ten3)
    (vars : labeler_vars) (hidden : ten3) (y : list (list nat)) (cfg : config)
    (pad_id : nat) (train : bool) (class_weights : option vec) :
  has_shape3 2 5 8 hidden ->
  (is_bidirectional cfg = false -> has_shape2 2 5 (norm (add3 (attn train hidden) hidden))) ->
  length (bias vars) = 3%nat ->
  has_shape2 2 5 y ->
  Forall (Forall (fun t => (t < 3)%nat)) y ->
  exists (lg : ten3) (l1 l2 : R) (transition : mat),
    sequence_labeler attn norm vars hidden (Some (Labels y)) 3 cfg pad_id false train
      (Some [5; 3]%nat) true class_weights
    = Ok {| logits := Logits3 lg;
            losses := Some (Vector [l1; l2]);
            predict := {| transition_matrix := Transition transition;
                          sequence_length := [5; 3]%nat |} |}
    /\ shape3 lg = [2; 5; 3]%nat
    /\ has_shape3 2 5 3 lg
    /\ tensor_shape (Vector [l1; l2]) = [2%nat]
    /\ 0 <= l1 /\ 0 <= l2
    /\ shape2 transition = [3; 3]%nat
    /\ has_shape2 3 3 transition
    /\ (forall i j, (i < 3)%nat -> (j < 3)%nat ->
                    nth j (nth i transition []) 0 = Transition_matrix vars i j).
Proof.
  intros Hh Hattn Hbias Hy Hyn.
  destruct (sequence_labeler_crf_run attn norm vars hidden y 3 cfg pad_id train
              [5; 3]%nat class_weights 2 5)
    as (lg & v & Hrun & Hlg & Hv & Hpos); try assumption.
  - now apply (has_shape3_2 2 5 8).
  - reflexivity.
  - repeat constructor.
  - destruct v as [|l1 [|l2 [|l3 v]]]; try discriminate Hv.
    apply Forall_cons in Hpos as [H1 Hpos]. apply Forall_cons in Hpos as [H2 _].
    exists lg, l1, l2, (get_variable (Transition_matrix vars) 3 3).
    split; [exact Hrun|].
    split; [apply (has_shape3_shape 2 5 3); [exact Hlg | lia | lia]|].
    split; [exact Hlg|]. split; [reflexivity|]. split; [exact H1|]. split; [exact H2|].
    split; [apply get_variable_shape2; lia|]. split; [apply get_variable_shape|].
    intros i j Hi Hj.
    destruct i as [|[|[|i]]]; [| | |lia]; destruct j as [|[|[|j]]]; try lia; reflexivity.
Qed.

(** A batch of zeros of the shapes of the claim. *)
Definition zeros_hidden : ten3 := replicate 2 (replicate 5 (replicate 8 0)).
Definition zeros_targets : list (list nat) := replicate 2 (replicate 5 0%nat).
Definition zeros_vars : labeler_vars :=
  {| kernel := replicate 8 [0; 0; 0];
     bias := [0; 0; 0];
     Transition_matrix := fun _ _ => 0;
     Transition_matrix_ := fun _ _ _ => 0 |}.
Definition no_attn (_ : bool) (h : ten3) : ten3 := h.
Definition no_norm (h : ten3) : ten3 := h.
Definition bidirectional_config : config :=
  {| clf_p_drop := 0; regression_loss := "L2"; is_bidirectional := true;
     low_memory_mode := false; tsa_method := None; ssl_loss_coef := 1;
     pseudo_thresh := 1; ema_decay := 0 |}.

Ltac shape_solver := tensor_eval; repeat (constructor || split).

(** The theorem at the batch of zeros. *)
Lemma sequence_labeler_end_to_end_witness :
  exists (lg : ten3) (l1 l2 : R) (transition : mat),
    sequence_labeler no_attn no_norm zeros_vars zeros_hidden (Some (Labels zeros_targets)) 3
      bidirectional_config 0 false true (Some [5; 3]%nat) true None
    = Ok {| logits := Logits3 lg;
            losses := Some (Vector [l1; l2]);
            predict := {| transition_matrix := Transition transition;
                          sequence_length := [5; 3]%nat |} |}
    /\ shape3 lg = [2; 5; 3]%nat
    /\ has_shape3 2 5 3 lg
    /\ tensor_shape (Vector [l1; l2]) = [2%nat]
    /\ 0 <= l1 /\ 0 <= l2
    /\ shape2 transition = [3; 3]%nat
    /\ has_shape2 3 3 transition
    /\ (forall i j, (i < 3)%nat -> (j < 3)%nat ->
                    nth j (nth i transition []) 0 = Transition_matrix zeros_vars i j).
Proof.
  apply (sequence_labeler_end_to_end no_attn no_norm zeros_vars zeros_hidden zeros_targets
           bidirectional_config 0 true None).
  - unfold zeros_hidden, has_shape3. shape_solver.
  - discriminate.
  - reflexivity.
  - unfold zeros_targets, has_shape2. shape_solver.
  - unfold zeros_targets. shape_solver.
Defined.

(** C2 as stated fails on the loss: with a CRF the loss of the batch of
    zeros is a tensor of shape (2,), not a scalar. *)
Lemma sequence_labeler_crf_loss_not_scalar :
  exists (out : labeler_output) (loss : tensor),
    sequence_labeler no_attn no_norm zeros_vars zeros_hidden (Some (Labels zeros_targets)) 3
      bidirectional_config 0 false true (Some [5; 3]%nat) true None
    = Ok out
    /\ losses out = Some loss
    /\ tensor_shape loss = [2%nat]
    /\ tensor_shape loss <> [].
Proof.
  destruct (sequence_labeler_crf_run no_attn no_norm zeros_vars zeros_hidden zeros_targets 3
              bidirectional_config 0 true [5; 3]%nat None 2 5)
    as (lg & v & Hrun & _ & Hv & _).
  - unfold zeros_hidden, has_shape2. shape_solver.
  - discriminate.
  - reflexivity.
  - unfold zeros_targets, has_shape2. shape_solver.
  - unfold zeros_targets. shape_solver.
  - reflexivity.
  - repeat constructor.
  - eexists. exists (Vector v). split; [exact Hrun|]. split; [reflexivity|].
    unfold tensor_shape, shape1. rewrite Hv.
    split; [reflexivity | discriminate].
Qed.

End SeqLabTheorems.

(** ** The weighted cross-entropy ignores padding *)

Module XentFacts.

Definition mask_at (len : nat) (t : nat) : R := if (t <? len)%nat then 1 else 0.

(** The weights as real numbers, for the case that none is NaN. *)
Definition real_weights (lengths : list nat) (maxlen : nat) : mat :=
  map (fun len => map (fun t => mask_at len t / INR len) (seq 0 maxlen)) lengths.

(** A row of weights is NaN exactly when the length is 0 and the row has a
    position. *)
Lemma row_numbers (len s n : nat) :
  mapM (fun x : option R => x)
       (map (fun m => if (len =? 0)%nat then None else Some (m / INR len))
            (map (fun t => if (t <? len)%nat then 1 else 0) (seq s n)))
  = if ((len =? 0) && negb (n =? 0))%nat then None
    else Some (map (fun t => mask_at len t / INR len) (seq s n)).
Proof.
  destruct (Nat.eqb_spec len 0) as [-> | Hlen]; cbn [andb].
  - destruct n as [|n]; reflexivity.
  - revert s. induction n as [|n IH]; intros s; [reflexivity|].
    cbn [seq map mapM]. rewrite IH. reflexivity.
Qed.

Lemma all_numbers_real (lengths : list nat) (maxlen : nat) (w : mat) :
  all_numbers (length_weights lengths maxlen) = Some w -> w = real_weights lengths maxlen.
Proof.
  unfold all_numbers, length_weights, real_weights, Crf.sequence_mask.
  revert w. induction lengths as [|len lengths IH]; intros w.
  - cbn. now intros [= <-].
  - cbn [map mapM]. rewrite row_numbers.
    destruct ((len =? 0) && negb (maxlen =? 0))%nat; [discriminate|].
    cbn [mbind option_bind mret option_ret].
    destruct (mapM _ (map _ lengths)) as [w'|]; [|discriminate].
    cbn. intros [= <-]. f_equal. now apply IH.
Qed.

Lemma all_numbers_positive (lengths : list nat) (maxlen : nat) :
  Forall (fun len => (1 <= len)%nat) lengths ->
  all_numbers (length_weights lengths maxlen) = Some (real_weights lengths maxlen).
Proof.
  unfold all_numbers, length_weights, real_weights, Crf.sequence_mask.
  induction 1 as [|len lengths Hlen _ IH]; [reflexivity|].
  cbn [map mapM]. rewrite row_numbers.
  destruct (Nat.eqb_spec len 0) as [-> | _]; [lia|]. cbn [andb].
  cbn [mbind option_bind mret option_ret]. rewrite IH. reflexivity.
Qed.

Lemma all_numbers_zero_length (lengths : list nat) (maxlen : nat) :
  In 0%nat lengths -> (0 < maxlen)%nat ->
  all_numbers (length_weights lengths maxlen) = None.
Proof.
  unfold all_numbers, length_weights, Crf.sequence_mask. intros Hin Hmax.
  induction lengths as [|len lengths IH]; [contradiction|].
  cbn [map mapM]. rewrite row_numbers.
  destruct Hin as [-> | Hin].
  - destruct (Nat.eqb_spec maxlen 0) as [-> | _]; [lia|]. reflexivity.
  - destruct ((len =? 0) && negb (maxlen =? 0))%nat; [reflexivity|].
    cbn [mbind option_bind]. now rewrite (IH Hin).
Qed.

(** Only the first [len] token losses of a row reach its weighted sum. *)
Lemma weighted_row_prefix (l : vec) (len s n : nat) :
  reduce_sum (zip_with Rmult l (map (fun t => mask_at len t / INR len) (seq s n)))
  = reduce_sum (zip_with Rmult (take (len - s) l)
                  (map (fun t => mask_at len t / INR len) (seq s n))).
Proof.
  revert s n. induction l as [|x l IH]; intros s n.
  - now rewrite take_nil.
  - destruct n as [|n].
    + cbn [seq map]. now rewrite !zip_with_nil_r.
    + cbn [seq map zip_with]. rewrite reduce_sum_cons, IH.
      destruct (Nat.ltb_spec s len) as [Hlt | Hge].
      * replace (len - s)%nat with (S (len - S s)) by lia.
        rewrite firstn_cons. cbn [zip_with]. now rewrite reduce_sum_cons.
      * replace (len - s)%nat with 0%nat by lia. replace (len - S s)%nat with 0%nat by lia.
        rewrite !take_0. cbn [zip_with]. unfold mask_at.
        destruct (Nat.ltb_spec s len); [lia|].
        unfold reduce_sum, Rdiv. cbn. lra.
Qed.

(** The weighted sum of a row is the mean of its first [len] token
    losses. *)
Lemma weighted_row_mean (l : vec) (len s n : nat) :
  (len <= s + n)%nat ->
  reduce_sum (zip_with Rmult l (map (fun t => mask_at len t / INR len) (seq s n)))
  = reduce_sum (take (len - s) l) / INR len.
Proof.
  revert s n. induction l as [|x l IH]; intros s n Hle.
  - rewrite take_nil. unfold reduce_sum, Rdiv. cbn. lra.
  - destruct n as [|n].
    + cbn [seq map]. rewrite zip_with_nil_r. replace (len - s)%nat with 0%nat by lia.
      rewrite take_0. unfold reduce_sum, Rdiv. cbn. lra.
    + cbn [seq map zip_with]. rewrite reduce_sum_cons, IH by lia. unfold mask_at.
      destruct (Nat.ltb_spec s len) as [Hlt | Hge].
      * replace (len - s)%nat with (S (len - S s)) by lia.
        rewrite firstn_cons, reduce_sum_cons. unfold Rdiv. lra.
      * replace (len - s)%nat with 0%nat by lia. replace (len - S s)%nat with 0%nat by lia.
        rewrite !take_0. unfold reduce_sum, Rdiv. cbn. lra.
Qed.

(** The weights of a row that are not zero are those of its first [len]
    positions. *)
Lemma row_nonzero (len s n : nat) :
  (1 <= len)%nat ->
  length (filter (fun x => x <> 0) (map (fun t => mask_at len t / INR len) (seq s n)))
  = Nat.min (len - s) n.
Proof.
  intros Hlen. revert s. induction n as [|n IH]; intros s.
  - now rewrite Nat.min_0_r.
  - cbn [seq map]. rewrite filter_cons.
    assert (Hinv : 0 < / INR len) by (apply Rinv_0_lt_compat, lt_0_INR; lia).
    assert (Hhead : mask_at len s / INR len <> 0 <-> (s < len)%nat).
    { unfold mask_at. destruct (Nat.ltb_spec s len) as [Hlt | Hge]; unfold Rdiv.
      - split; [intros _; exact Hlt | intros _; lra].
      - split; [intros Hnz; exfalso; apply Hnz; lra | lia]. }
    destruct (decide (mask_at len s / INR len <> 0)) as [Hnz|Hz].
    + apply Hhead in Hnz. cbn [length]. rewrite IH. lia.
    + rewrite IH. assert (~ (s < len)%nat) by (intros Hlt; now apply Hz, Hhead). lia.
Qed.

Lemma count_nonzero_real_weights (lengths : list nat) (s : nat) :
  Forall (fun len => (1 <= len <= s)%nat) lengths ->
  count_nonzero (real_weights lengths s) = sum_list lengths.
Proof.
  unfold count_nonzero, real_weights.
  induction 1 as [|len lengths [Hlo Hhi] _ IH]; [reflexivity|].
  cbn [map concat sum_list sum_list_with]. rewrite filter_app, length_app, IH.
  rewrite row_nonzero by exact Hlo. unfold Datatypes.id. lia.
Qed.

(** Two batches that agree on the first [len] positions of every row. *)
Definition agree_on_lengths {A : Type} (lengths : list nat) (a b : list (list A)) : Prop :=
  Forall3 (fun len x y => take len x = take len y) lengths a b.

Lemma weighted_losses_agree (maxlen : nat) (lengths : list nat) (logits1 logits2 : ten3)
    (targets1 targets2 : list (list nat)) :
  agree_on_lengths lengths logits1 logits2 ->
  agree_on_lengths lengths targets1 targets2 ->
  reduce_sum2 (zip_with (zip_with Rmult) (zip_with (zip_with token_xent) logits1 targets1)
                 (real_weights lengths maxlen))
  = reduce_sum2 (zip_with (zip_with Rmult) (zip_with (zip_with token_xent) logits2 targets2)
                   (real_weights lengths maxlen)).
Proof.
  unfold real_weights, agree_on_lengths, reduce_sum2.
  intros Hl. revert targets1 targets2.
  induction Hl as [|len x1 x2 lengths logits1 logits2 Hx _ IH]; intros targets1 targets2 Ht.
  - reflexivity.
  - inversion Ht as [|? y1 y2 ? targets1' targets2' Hy Ht']; subst.
    cbn [map zip_with]. rewrite !reduce_sum_cons, (IH _ _ Ht'). f_equal.
    rewrite (weighted_row_prefix (zip_with token_xent x1 y1)).
    rewrite (weighted_row_prefix (zip_with token_xent x2 y2)).
    rewrite Nat.sub_0_r, !zip_with_take, Hx, Hy. reflexivity.
Qed.

(** The mean token loss of the first [len] positions of a sequence. *)
Definition sequence_mean (len : nat) (logits : mat) (targets : list nat) : R :=
  reduce_sum (take len (zip_with token_xent logits targets)) / INR len.

Definition sequence_means (lengths : list nat) (logits : ten3) (targets : list (list nat))
    : vec :=
  zip_with (fun len xy => sequence_mean len (fst xy) (snd xy)) lengths (zip logits targets).

Lemma weighted_losses_means (s : nat) (lengths : list nat) (logits : ten3)
    (targets : list (list nat)) :
  Forall (fun len => (len <= s)%nat) lengths ->
  reduce_sum2 (zip_with (zip_with Rmult) (zip_with (zip_with token_xent) logits targets)
                 (real_weights lengths s))
  = reduce_sum (sequence_means lengths logits targets).
Proof.
  unfold real_weights, sequence_means, reduce_sum2. intros Hlen.
  revert logits targets. induction Hlen as [|len lengths Hle _ IH]; intros logits targets.
  - cbn [map]. now rewrite zip_with_nil_r.
  - destruct logits as [|x logits]; [reflexivity|].
    destruct targets as [|y targets]; [reflexivity|].
    cbn [map zip zip_with fst snd]. rewrite !reduce_sum_cons, IH. f_equal.
    rewrite weighted_row_mean by lia. now rewrite Nat.sub_0_r.
Qed.

End XentFacts.

Module XentTheorems.
Import XentFacts.

(** C7 (as amended).  Without a CRF the loss of the labeler is the
    weighted cross-entropy of lines 507-515.  Two batches of the same
    shape that agree row by row on the logits and targets of the first
    [len] positions have the same loss, whatever stands at the padding
    positions, for every length up to the padded length.  When every
    length is at least 1 the weights normalize by the length: the loss is
    the sum over the sequences of the mean token loss of each sequence,
    divided by the number of tokens of the batch that are not padding, so
    that a sequence weighs the same whatever its length.  A sequence of
    length 0 has the weights 0/0, and the loss of the batch is NaN. *)
Theorem weighted_xent_padding_invariant (b s n : nat) (lengths : list nat)
    (logits1 logits2 : ten3) (targets1 targets2 : list (list nat)) :
  has_shape3 b s n logits1 ->
  has_shape3 b s n logits2 ->
  has_shape2 b s targets1 ->
  has_shape2 b s targets2 ->
  Forall (Forall (fun t => (t < n)%nat)) targets1 ->
  Forall (Forall (fun t => (t < n)%nat)) targets2 ->
  Forall (fun len => (len <= s)%nat) lengths ->
  agree_on_lengths lengths logits1 logits2 ->
  agree_on_lengths lengths targets1 targets2 ->
  weighted_xent_loss targets1 logits1 lengths = weighted_xent_loss targets2 logits2 lengths
  /\ (Forall (fun len => (1 <= len)%nat) lengths -> lengths <> [] ->
      weighted_xent_loss targets1 logits1 lengths
      = Some (reduce_sum (sequence_means lengths logits1 targets1) / INR (sum_list lengths)))
  /\ (In 0%nat lengths -> (0 < s)%nat ->
      weighted_xent_loss targets1 logits1 lengths = None).
Proof.
  intros _ _ Ht1 Ht2 _ _ Hlen Hl Ht.
  assert (Hmax : length (hd [] targets1) = length (hd [] targets2)).
  { destruct Ht as [|len y1 y2 ? ? ? _ _]; [reflexivity|].
    destruct Ht1 as [_ H1], Ht2 as [_ H2].
    apply Forall_cons in H1 as [H1 _]. apply Forall_cons in H2 as [H2 _].
    cbn [hd]. congruence. }
  assert (Hs : lengths <> [] -> length (hd [] targets1) = s).
  { intros Hne. destruct Ht as [|len y1 y2 ? ? ? _ _]; [contradiction|].
    destruct Ht1 as [_ H1]. now apply Forall_cons in H1 as [H1 _]. }
  split; [|split].
  - unfold weighted_xent_loss. cbn zeta. rewrite <- Hmax.
    destruct (all_numbers (length_weights lengths (length (hd [] targets1)))) as [w|] eqn:Hw;
      [|reflexivity].
    apply all_numbers_real in Hw. subst w. f_equal.
    unfold sparse_softmax_cross_entropy.
    now rewrite (weighted_losses_agree _ lengths logits1 logits2 targets1 targets2).
  - intros Hpos Hne. unfold weighted_xent_loss. cbn zeta. rewrite (Hs Hne).
    rewrite (all_numbers_positive lengths s Hpos). f_equal.
    unfold sparse_softmax_cross_entropy.
    assert (Hboth : Forall (fun len => (1 <= len <= s)%nat) lengths).
    { apply Forall_forall. intros len Hin. rewrite Forall_forall in Hpos, Hlen.
      split; [now apply Hpos | now apply Hlen]. }
    rewrite (count_nonzero_real_weights lengths s Hboth).
    rewrite (weighted_losses_means s lengths logits1 targets1 Hlen).
    destruct (Nat.eqb_spec (sum_list lengths) 0) as [Hzero|_]; [|reflexivity].
    exfalso. destruct lengths as [|len lengths]; [contradiction|].
    apply Forall_cons in Hpos as [Hpos _]. cbn in Hzero. lia.
  - intros Hin Hspos. unfold weighted_xent_loss. cbn zeta.
    assert (Hne : lengths <> []) by (intros ->; contradiction).
    rewrite (Hs Hne). now rewrite (all_numbers_zero_length lengths s Hin Hspos).
Qed.

(** The theorem at two rows of lengths 1 and 2 padded to 2: the second
    batch differs from the first at the padding position of row one. *)
Lemma weighted_xent_padding_invariant_witness :
  let targets := [[0; 1]; [1; 0]]%nat in
  let logits := [[[1; 2]; [3; 4]]; [[5; 6]; [7; 8]]] in
  weighted_xent_loss targets logits [1; 2]%nat
  = weighted_xent_loss [[0; 0]; [1; 0]]%nat [[[1; 2]; [9; 9]]; [[5; 6]; [7; 8]]] [1; 2]%nat
  /\ (Forall (fun len => (1 <= len)%nat) [1; 2]%nat -> [1; 2]%nat <> [] ->
      weighted_xent_loss targets logits [1; 2]%nat
      = Some (reduce_sum (sequence_means [1; 2]%nat logits targets)
              / INR (sum_list [1; 2]%nat)))
  /\ (In 0%nat [1; 2]%nat -> (0 < 2)%nat ->
      weighted_xent_loss targets logits [1; 2]%nat = None).
Proof.
  intros targets logits.
  apply (weighted_xent_padding_invariant 2 2 2).
  - split; [reflexivity | repeat constructor].
  - split; [reflexivity | repeat constructor].
  - split; [reflexivity | repeat constructor].
  - split; [reflexivity | repeat constructor].
  - repeat constructor.
  - repeat constructor.
  - repeat constructor.
  - repeat constructor.
  - repeat constructor.
Defined.

(** C7 as stated fails for a sequence of length 0: its weights are 0/0
    and the loss of the batch is NaN, so that the sequences do not
    contribute equally regardless of their length. *)
Lemma weighted_xent_zero_length_is_nan :
  weighted_xent_loss [[0; 1]; [1; 0]]%nat [[[1; 2]; [3; 4]]; [[5; 6]; [7; 8]]] [0; 2]%nat
  = None.
Proof. reflexivity. Qed.

(** The labeler without a CRF returns that loss. *)
Lemma sequence_labeler_xent_loss (attn : bool -> ten3 -> ten3) (norm : ten3 -> ten3)
    (vars : SeqLab.labeler_vars) (hidden : ten3) (y : list (list nat)) (n : nat)
    (cfg : config) (pad_id : nat) (lengths : list nat) :
  SeqLab.sequence_labeler attn norm vars hidden (Some (SeqLab.Labels y)) n cfg pad_id
    false false (Some lengths) false None
  = Ok {| SeqLab.logits :=
            SeqLab.Logits3 (SeqLab.seq_lab_internal attn norm vars cfg n false hidden);
          SeqLab.losses :=
            option_map Scalar
              (weighted_xent_loss y (SeqLab.seq_lab_internal attn norm vars cfg n false hidden)
                 lengths);
          SeqLab.predict :=
            {| SeqLab.transition_matrix :=
                 SeqLab.Transition (get_variable (SeqLab.Transition_matrix vars) n n);
               SeqLab.sequence_length := lengths |} |}.
Proof.
  unfold SeqLab.sequence_labeler, SeqLab.recompute_grad.
  now rewrite andb_false_r.
Qed.

End XentTheorems.

(** ** Multilabel mode: one binary chain per class *)

Module MultilabelFacts.
Import SeqLab.

Lemma nth_map_in {A B : Type} (f : A -> B) (l : list A) (i : nat) (d : A) (d' : B) :
  (i < length l)%nat -> nth i (map f l) d' = f (nth i l d).
Proof.
  intros Hi. rewrite (nth_indep _ d' (f d)) by now rewrite length_map.
  apply map_nth.
Qed.







Section Loop.

Variable vars : labeler_vars.
Variable logits : ten3.
Variable y : list (list (list nat)).
Variable n pad_id : nat.
Variable lengths : list nat.
Variable class_weights : option vec.

Hypothesis pad_in_range : (pad_id < n)%nat.
Hypothesis class_weights_shape :
  match class_weights with Some cw => length cw = n | None => True end.



(** The number of examples every chain sees. *)
Definition batch : nat := Nat.min (Nat.min (length logits) (length y)) (length lengths).















End Loop.

End MultilabelFacts.

Module MultilabelTheorems.
Import SeqLab MultilabelFacts.





End MultilabelTheorems.

(** ** The semi-supervised engines *)

Module SslFacts.
Import Ssl.

Lemma vat_device_unbound (device : string) :
  Names.crf_device Names.vat_locals false device = Raise (NameError "device").
Proof. unfold Names.crf_device, Names.load_name. now vm_compute. Qed.

Lemma mean_teacher_device_unbound (device : string) :
  Names.crf_device Names.mean_teacher_locals false device = Raise (NameError "device").
Proof. unfold Names.crf_device, Names.load_name. now vm_compute. Qed.

Lemma reweight_logits_labeled (class_weights : option vec) (train : bool)
    (y : list (list nat)) (n : nat) (logits : ten3) :
  reweight_logits class_weights train (Some y) n logits = Ok logits.
Proof. destruct class_weights, train; reflexivity. Qed.

(** The device of the CRF branch resolves: the engine trains, or it does
    not use the CRF, or it binds [device]. *)
Definition device_resolves (locals : gset string) (train use_crf : bool) : Prop :=
  train = true \/ use_crf = false
  \/ bool_decide ("device"%string ∈ locals ∪ Names.module_globals) = true.

Section WithHelpers.

Variable tsa_filter :
  string -> ten3 -> list (list nat) -> list nat -> bool -> mat -> R ->
  ten3 * list (list nat) * list nat.

Lemma supervised_loss_resolves (locals : gset string) (train : bool) (device : string)
    (use_crf : bool) (logits : ten3) (targets : list (list nat)) (lengths : list nat)
    (transition_params : mat) :
  device_resolves locals train use_crf ->
  supervised_loss locals train device use_crf logits targets lengths transition_params
  = Ok (if use_crf then Some (Vector (crf_loss logits targets lengths transition_params))
        else option_map Scalar (weighted_xent_loss targets logits lengths)).
Proof.
  intros Hdev. unfold supervised_loss. destruct use_crf; [|reflexivity].
  destruct Hdev as [-> | [Hcrf | Hbound]]; [reflexivity | discriminate |].
  unfold Names.crf_device, Names.load_name. rewrite Hbound. now destruct train.
Qed.

(** When the TSA filter leaves no labeled example, the supervised part is
    the filtered logits and lengths with a mean loss of 0. *)
Lemma supervised_mean_all_filtered (locals : gset string) (cfg : config) (train : bool)
    (device : string) (use_crf : bool) (logits : ten3) (targets : list (list nat))
    (lengths : list nat) (transition_params : mat) (total_num_steps : R)
    (m : string) (logits' : ten3) (lengths' : list nat) :
  tsa_on cfg = Some m ->
  tsa_filter m logits targets lengths use_crf transition_params total_num_steps
  = (logits', [], lengths') ->
  device_resolves locals train use_crf ->
  supervised_mean tsa_filter locals cfg train device use_crf logits targets lengths
    transition_params total_num_steps
  = Ok (logits', lengths', Some 0).
Proof.
  intros Hon Hfilter Hdev. unfold supervised_mean, apply_tsa. rewrite Hon, Hfilter.
  rewrite supervised_loss_resolves by exact Hdev. cbn [bind].
  unfold tsa_guard. rewrite Hon. reflexivity.
Qed.

(** Without the CRF device, the supervised part raises. *)
Lemma supervised_mean_unbound (locals : gset string) (cfg : config) (device : string)
    (logits : ten3) (targets : list (list nat)) (lengths : list nat)
    (transition_params : mat) (total_num_steps : R) :
  Names.crf_device locals false device = Raise (NameError "device") ->
  supervised_mean tsa_filter locals cfg false device true logits targets lengths
    transition_params total_num_steps
  = Raise (NameError "device").
Proof.
  intros Hdev. unfold supervised_mean.
  destruct (apply_tsa tsa_filter cfg logits targets lengths true transition_params
              total_num_steps) as [[l t] len].
  unfold supervised_loss. now rewrite Hdev.
Qed.

Lemma supervised_mean_resolves (locals : gset string) (cfg : config) (train : bool)
    (device : string) (use_crf : bool) (logits : ten3) (targets : list (list nat))
    (lengths : list nat) (transition_params : mat) (total_num_steps : R) :
  device_resolves locals train use_crf ->
  exists r, supervised_mean tsa_filter locals cfg train device use_crf logits targets lengths
              transition_params total_num_steps = Ok r.
Proof.
  intros Hdev. unfold supervised_mean.
  destruct (apply_tsa tsa_filter cfg logits targets lengths use_crf transition_params
              total_num_steps) as [[l t] len].
  rewrite supervised_loss_resolves by exact Hdev. cbn [bind]. eauto.
Qed.

Variable warmup_constant : R -> R -> R.
Variable params : Type.
Variable featurizer_fn : params -> ten3 -> ten3.

(** The labeled inputs of the supervised part of an engine. *)
Definition labeled_logits (vars : engine_vars) (hidden : ten3) (y : list (list nat))
    (n : nat) : ten3 :=
  take (length y) (dense n (kernel vars) (bias vars) hidden).
Definition labeled_lengths (hidden : ten3) (y : list (list nat))
    (lengths : option (list nat)) : list nat :=
  take (length y) (match lengths with Some l => l | None => default_lengths hidden end).

(** Each engine, on a labeled batch whose supervised part returns, adds
    its scaled unsupervised loss to the supervised mean. *)
Lemma vat_labeled (vars : engine_vars) (adv_loss : option R) (device : string)
    (hidden : ten3) (y : list (list nat)) (n : nat) (cfg : config) (train : bool)
    (lengths : option (list nat)) (use_crf : bool) (class_weights : option vec)
    (total_num_steps : R) (l : ten3) (len : list nat) (sup : option R) :
  supervised_mean tsa_filter Names.vat_locals cfg train device use_crf
    (labeled_logits vars hidden y n) y (labeled_lengths hidden y lengths)
    (Transition_matrix vars) total_num_steps = Ok (l, len, sup) ->
  vat tsa_filter vars adv_loss device hidden (Some y) n cfg train lengths use_crf
    class_weights total_num_steps
  = Ok {| logits := l;
          losses := option_map Scalar (nan_add sup (nan_mul (Some (ssl_loss_coef cfg)) adv_loss));
          predict := {| transition_matrix := Transition_matrix vars;
                        sequence_length := len |} |}.
Proof.
  intros Hsup. unfold vat. rewrite reweight_logits_labeled. cbn [bind].
  unfold labeled_logits, labeled_lengths in Hsup. now rewrite Hsup.
Qed.

Lemma ict_labeled (vars : engine_vars) (live ema : params) (shuffle_indicies : list nat)
    (lam lam' : vec) (device : string) (global_step : nat)
    (hidden : ten3) (y : list (list nat)) (n : nat) (cfg : config) (train : bool)
    (lengths : option (list nat)) (use_crf : bool) (embedding_out : ten3)
    (class_weights : option vec) (total_num_steps : R)
    (l : ten3) (len : list nat) (sup : option R) :
  supervised_mean tsa_filter Names.ict_locals cfg train device use_crf
    (labeled_logits vars hidden y n) y (labeled_lengths hidden y lengths)
    (Transition_matrix vars) total_num_steps = Ok (l, len, sup) ->
  ict tsa_filter warmup_constant params featurizer_fn vars live ema shuffle_indicies lam lam'
    device global_step hidden (Some y) n cfg train lengths use_crf embedding_out
    class_weights total_num_steps
  = Ok {| logits := l;
          losses := option_map Scalar
                      (nan_add sup
                         (nan_mul (Some (ssl_coef warmup_constant cfg global_step total_num_steps))
                            (ict_u_loss params featurizer_fn vars live ema n shuffle_indicies
                               lam lam' embedding_out)));
          predict := {| transition_matrix := Transition_matrix vars;
                        sequence_length := len |} |}.
Proof.
  intros Hsup. unfold ict. rewrite reweight_logits_labeled. cbn [bind].
  unfold labeled_logits, labeled_lengths in Hsup. now rewrite Hsup.
Qed.

Lemma mean_teacher_labeled (vars : engine_vars) (ema : params) (device : string)
    (global_step : nat) (hidden : ten3) (y : list (list nat)) (n : nat) (cfg : config)
    (train : bool) (lengths : option (list nat)) (use_crf : bool) (embedding_out : ten3)
    (class_weights : option vec) (total_num_steps : R)
    (l : ten3) (len : list nat) (sup : option R) :
  supervised_mean tsa_filter Names.mean_teacher_locals cfg train device use_crf
    (labeled_logits vars hidden y n) y (labeled_lengths hidden y lengths)
    (Transition_matrix vars) total_num_steps = Ok (l, len, sup) ->
  mean_teacher tsa_filter warmup_constant params featurizer_fn vars ema device global_step
    hidden (Some y) n cfg train lengths use_crf embedding_out class_weights total_num_steps
  = Ok {| logits := l;
          losses := option_map Scalar
                      (nan_add sup
                         (nan_mul (Some (ssl_loss_coef cfg))
                            (mean_teacher_u_loss params featurizer_fn vars ema n
                               (dense n (kernel vars) (bias vars) hidden) embedding_out)));
          predict := {| transition_matrix := Transition_matrix vars;
                        sequence_length := len |} |}.
Proof.
  intros Hsup. unfold mean_teacher. rewrite reweight_logits_labeled. cbn [bind].
  unfold labeled_logits, labeled_lengths in Hsup. now rewrite Hsup.
Qed.

(** The SSL coefficient is floored at zero and vanishes where the warmup
    fraction does. *)
Lemma ssl_coef_nonneg (cfg : config) (global_step : nat) (total_steps : R) :
  0 <= ssl_coef warmup_constant cfg global_step total_steps.
Proof. unfold ssl_coef. apply Rmax_l. Qed.

Lemma ssl_coef_start (cfg : config) (total_steps : R) :
  warmup_constant 0 0.25 = 0 -> ssl_coef warmup_constant cfg 0 total_steps = 0.
Proof.
  intros Hw. unfold ssl_coef. cbn [INR].
  replace (0 / total_steps) with 0 by (unfold Rdiv; now rewrite Rmult_0_l).
  rewrite Hw, Rmult_0_r. apply Rmax_left. lra.
Qed.

End WithHelpers.

End SslFacts.

Module SslTheorems.
Import Ssl SslFacts.

Section WithHelpers.

Variable tsa_filter :
  string -> ten3 -> list (list nat) -> list nat -> bool -> mat -> R ->
  ten3 * list (list nat) * list nat.
Variable warmup_constant : R -> R -> R.
Variable params : Type.
Variable featurizer_fn : params -> ten3 -> ten3.

(** C10 (the code departs from it).  With targets and use_crf=True but
    train=False, [vat] and [mean_teacher] evaluate the name [device] that
    neither they nor the module bind, and the call ends in a NameError
    instead of a result dictionary; [ict], which assigns
    [device = logits.device], returns on the same inputs. *)
Theorem crf_device_unbound_outside_training (vars : engine_vars) (adv_loss : option R)
    (live ema : params) (shuffle_indicies : list nat) (lam lam' : vec) (device : string)
    (global_step : nat) (hidden : ten3) (y : list (list nat)) (n : nat) (cfg : config)
    (lengths : option (list nat)) (embedding_out : ten3) (class_weights : option vec)
    (total_num_steps : R) :
  vat tsa_filter vars adv_loss device hidden (Some y) n cfg false lengths true
    class_weights total_num_steps
  = Raise (NameError "device")
  /\ mean_teacher tsa_filter warmup_constant params featurizer_fn vars ema device global_step
       hidden (Some y) n cfg false lengths true embedding_out class_weights total_num_steps
     = Raise (NameError "device")
  /\ exists out,
       ict tsa_filter warmup_constant params featurizer_fn vars live ema shuffle_indicies
         lam lam' device global_step hidden (Some y) n cfg false lengths true embedding_out
         class_weights total_num_steps
       = Ok out.
Proof.
  split; [|split].
  - unfold vat. rewrite reweight_logits_labeled. cbn [bind].
    rewrite supervised_mean_unbound by apply vat_device_unbound. reflexivity.
  - unfold mean_teacher. rewrite reweight_logits_labeled. cbn [bind].
    rewrite supervised_mean_unbound by apply mean_teacher_device_unbound. reflexivity.
  - unfold ict. rewrite reweight_logits_labeled. cbn [bind].
    match goal with
    | |- context [supervised_mean ?f ?l ?c ?t ?d ?u ?lg ?tg ?ln ?tp ?ts] =>
        destruct (supervised_mean_resolves f l c t d u lg tg ln tp ts) as [[[l' len'] sup] Hsup]
    end.
    + right. right. now vm_compute.
    + rewrite Hsup. cbn [bind]. eauto.
Qed.

(** C3 (as amended).  On a labeled batch whose supervised part returns,
    [ict] adds its consistency loss scaled by
    [max(0, ssl_loss_coef * warmup_constant(global_step / total_steps, 0.25))]:
    the coefficient is never negative and is 0 at step 0 when the warmup
    schedule starts at 0, so that the unsupervised contribution is then 0.
    [vat] adds its adversarial loss scaled by the constant [ssl_loss_coef],
    whatever the training progress. *)
Theorem ssl_coefficient_of_ict_and_vat (vars : engine_vars) (adv_loss : option R)
    (live ema : params) (shuffle_indicies : list nat) (lam lam' : vec) (device : string)
    (hidden : ten3) (y : list (list nat)) (n : nat) (cfg : config) (train : bool)
    (lengths : option (list nat)) (use_crf : bool) (embedding_out : ten3)
    (class_weights : option vec) (total_num_steps : R)
    (l_ict l_vat : ten3) (len_ict len_vat : list nat) (sup_ict sup_vat : option R) :
  let u_loss := ict_u_loss params featurizer_fn vars live ema n shuffle_indicies lam lam'
                  embedding_out in
  let coef := fun global_step : nat =>
    Rmax 0 (ssl_loss_coef cfg * warmup_constant (INR global_step / total_num_steps) 0.25) in
  supervised_mean tsa_filter Names.ict_locals cfg train device use_crf
    (labeled_logits vars hidden y n) y (labeled_lengths hidden y lengths)
    (Transition_matrix vars) total_num_steps = Ok (l_ict, len_ict, sup_ict) ->
  supervised_mean tsa_filter Names.vat_locals cfg train device use_crf
    (labeled_logits vars hidden y n) y (labeled_lengths hidden y lengths)
    (Transition_matrix vars) total_num_steps = Ok (l_vat, len_vat, sup_vat) ->
  warmup_constant 0 0.25 = 0 ->
  (forall global_step,
     ict tsa_filter warmup_constant params featurizer_fn vars live ema shuffle_indicies
       lam lam' device global_step hidden (Some y) n cfg train lengths use_crf embedding_out
       class_weights total_num_steps
     = Ok {| logits := l_ict;
             losses := option_map Scalar
                         (nan_add sup_ict (nan_mul (Some (coef global_step)) u_loss));
             predict := {| transition_matrix := Transition_matrix vars;
                           sequence_length := len_ict |} |})
  /\ (forall global_step, 0 <= coef global_step)
  /\ coef 0%nat = 0
  /\ (forall u, u_loss = Some u -> nan_mul (Some (coef 0%nat)) u_loss = Some 0)
  /\ vat tsa_filter vars adv_loss device hidden (Some y) n cfg train lengths use_crf
       class_weights total_num_steps
     = Ok {| logits := l_vat;
             losses := option_map Scalar
                         (nan_add sup_vat (nan_mul (Some (ssl_loss_coef cfg)) adv_loss));
             predict := {| transition_matrix := Transition_matrix vars;
                           sequence_length := len_vat |} |}.
Proof.
  intros u_loss coef Hict Hvat Hw.
  assert (Hcoef0 : coef 0%nat = 0) by (apply (ssl_coef_start warmup_constant cfg); exact Hw).
  split; [|split; [|split; [|split]]].
  - intros global_step. now apply ict_labeled.
  - intros global_step. apply (ssl_coef_nonneg warmup_constant cfg).
  - exact Hcoef0.
  - intros u ->. rewrite Hcoef0. cbn [nan_mul]. f_equal. lra.
  - now apply vat_labeled.
Qed.

(** C4 (as amended).  With a TSA method configured, when the filter
    leaves no labeled example, the supervised part of every engine that
    reaches the loss is 0, not a NaN: its supervised mean is [Some 0], the
    engine returns the filtered logits and lengths, and its loss is 0 plus
    its scaled unsupervised loss.  [ict] always reaches the loss; [vat]
    and [mean_teacher] reach it when they train or do not use the CRF
    (otherwise they end in the NameError of C10). *)
Theorem tsa_all_filtered_supervised_zero (vars : engine_vars) (adv_loss : option R)
    (live ema : params) (shuffle_indicies : list nat) (lam lam' : vec) (device : string)
    (global_step : nat) (hidden : ten3) (y : list (list nat)) (n : nat) (cfg : config)
    (train : bool) (lengths : option (list nat)) (use_crf : bool) (embedding_out : ten3)
    (class_weights : option vec) (total_num_steps : R)
    (m : string) (l' : ten3) (len' : list nat) :
  tsa_on cfg = Some m ->
  tsa_filter m (labeled_logits vars hidden y n) y (labeled_lengths hidden y lengths) use_crf
    (Transition_matrix vars) total_num_steps = (l', [], len') ->
  let supervised := fun locals =>
    supervised_mean tsa_filter locals cfg train device use_crf
      (labeled_logits vars hidden y n) y (labeled_lengths hidden y lengths)
      (Transition_matrix vars) total_num_steps in
  let result := fun unsupervised : option R =>
    Ok {| logits := l';
          losses := option_map Scalar (nan_add (Some 0) unsupervised);
          predict := {| transition_matrix := Transition_matrix vars;
                        sequence_length := len' |} |} in
  (supervised Names.ict_locals = Ok (l', len', Some 0)
   /\ ict tsa_filter warmup_constant params featurizer_fn vars live ema shuffle_indicies
        lam lam' device global_step hidden (Some y) n cfg train lengths use_crf
        embedding_out class_weights total_num_steps
      = result (nan_mul (Some (ssl_coef warmup_constant cfg global_step total_num_steps))
                  (ict_u_loss params featurizer_fn vars live ema n shuffle_indicies lam lam'
                     embedding_out)))
  /\ (train = true \/ use_crf = false ->
      supervised Names.vat_locals = Ok (l', len', Some 0)
      /\ vat tsa_filter vars adv_loss device hidden (Some y) n cfg train lengths use_crf
           class_weights total_num_steps
         = result (nan_mul (Some (ssl_loss_coef cfg)) adv_loss))
  /\ (train = true \/ use_crf = false ->
      supervised Names.mean_teacher_locals = Ok (l', len', Some 0)
      /\ mean_teacher tsa_filter warmup_constant params featurizer_fn vars ema device
           global_step hidden (Some y) n cfg train lengths use_crf embedding_out
           class_weights total_num_steps
         = result (nan_mul (Some (ssl_loss_coef cfg))
                     (mean_teacher_u_loss params featurizer_fn vars ema n
                        (dense n (kernel vars) (bias vars) hidden) embedding_out)))
  /\ (forall u : R, nan_add (Some 0) (Some u) = Some u).
Proof.
  intros Hon Hfilter supervised result.
  assert (Hsup : forall locals, device_resolves locals train use_crf ->
                                supervised locals = Ok (l', len', Some 0)).
  { intros locals Hdev.
    now apply (supervised_mean_all_filtered tsa_filter _ cfg train device use_crf _ _ _ _ _ m). }
  assert (Hres : forall locals, train = true \/ use_crf = false ->
                                device_resolves locals train use_crf).
  { intros locals [-> | ->]; [now left | now right; left]. }
  assert (Hict : device_resolves Names.ict_locals train use_crf).
  { right. right. now vm_compute. }
  split; [|split; [|split]].
  - split; [now apply Hsup|]. apply ict_labeled. now apply Hsup.
  - intros Hdev. split; [now apply Hsup, Hres|]. apply vat_labeled. now apply Hsup, Hres.
  - intros Hdev. split; [now apply Hsup, Hres|]. apply mean_teacher_labeled.
    now apply Hsup, Hres.
  - intros u. cbn [nan_add]. f_equal. lra.
Qed.

End WithHelpers.

(** Stand-ins for the helpers, for the examples below: a TSA filter that
    keeps every example, one that removes every example, a linear warmup,
    and a featurizer without parameters that returns its input. *)
Definition keep_all (_ : string) (l : ten3) (t : list (list nat)) (len : list nat)
    (_ : bool) (_ : mat) (_ : R) : ten3 * list (list nat) * list nat := (l, t, len).
Definition drop_all (_ : string) (_ : ten3) (_ : list (list nat)) (_ : list nat)
    (_ : bool) (_ : mat) (_ : R) : ten3 * list (list nat) * list nat := ([], [], []).
Definition linear_warmup (x warmup : R) : R := if Rle_dec x warmup then x / warmup else 1.
Definition identity_featurizer (_ : unit) (x : ten3) : ten3 := x.

Lemma linear_warmup_start : linear_warmup 0 0.25 = 0.
Proof. unfold linear_warmup. destruct (Rle_dec 0 0.25); [unfold Rdiv|]; lra. Qed.

Definition example_vars : engine_vars :=
  {| kernel := [[1]]; bias := [0]; Transition_matrix := [[0]] |}.
Definition example_config (tsa : option string) : config :=
  {| clf_p_drop := 0; regression_loss := "L2"; is_bidirectional := true;
     low_memory_mode := false; tsa_method := tsa; ssl_loss_coef := 1;
     pseudo_thresh := 1; ema_decay := 0.99 |}.

(** An engine with two classes on a batch of one labeled and one
    unlabeled example of one token.  The labeled example is predicted
    with a probability above 1/2 for its class.  The adversarial part of
    [vat] is as the code computes it: the perturbation is applied to the
    features, the divergence compares softmax distributions
    ([vat_top_k = 0]), the perturbation is the normalized random draw
    ([vat_k = 0]) of size [vat_e = 1]. *)
Definition adv_vars : engine_vars :=
  {| kernel := [[1; 0]]; bias := [0; 0]; Transition_matrix := [[0; 0]; [0; 0]] |}.
Definition adv_hidden : ten3 := [[[1]]; [[0]]].
Definition adv_targets : list (list nat) := [[0%nat]].
Definition adv_config : vat_config :=
  {| vat_preturb_embed := false; vat_top_k := 0; vat_k := 0; vat_e := 1 |}.
Definition adv_uniform : ten3 := [[[1 / 2]]; [[1 / 2]]].
Definition no_k_best (_ : ten3) (_ : mat) (_ : nat) : list (list (list nat)) := [].
Definition no_gradients (_ : ten3 -> option R) (v : ten3) : ten3 := v.

(** The adversarial loss of that batch, computed by lines 604-681. *)
Definition example_adv_loss : option R :=
  adversarial_loss unit identity_featurizer exp no_k_best no_gradients adv_vars adv_config tt
    adv_uniform adv_hidden 2 None adv_hidden.

Lemma adv_direction : scaled_direction 1 adv_uniform = [[[1]]; [[1]]].
Proof.
  assert (Hsqrt : sqrt (Rmax (1 / 2 * (1 / 2) + 0) 1e-12) = 1 / 2).
  { rewrite Rmax_left by lra. apply sqrt_lem_1; lra. }
  unfold scaled_direction, adv_uniform, l2_normalize. cbn [map].
  unfold reduce_sum. cbn [foldr]. rewrite Hsqrt. tensor_eq.
Qed.

Lemma adv_dense (x y : R) :
  dense 2 (kernel adv_vars) (bias adv_vars) [[[x]]; [[y]]] = [[[x; 0]]; [[y; 0]]].
Proof. unfold dense, matmul_add, vecmat. tensor_eval. tensor_eq. Qed.

Lemma softmax_pair (x : R) : softmax [x; 0] = [exp x / (exp x + 1); 1 / (exp x + 1)].
Proof.
  unfold softmax. cbn [map]. unfold reduce_sum. cbn [foldr]. rewrite exp_0.
  pose proof (exp_pos x). f_equal; [field; lra | f_equal; field; lra].
Qed.

Lemma softmax_zero : softmax [0; 0] = [1 / 2; 1 / 2].
Proof. rewrite softmax_pair, exp_0. tensor_eq. Qed.

Lemma clip_id (x : R) : 1e-7 <= x <= 1 -> clip x = x.
Proof. intros [Hlo Hhi]. unfold clip. rewrite Rmin_left by lra. now rewrite Rmax_left. Qed.

(** The two probabilities of a softmax over the logits [x, 0], for
    [1 <= exp x <= 9]. *)
Lemma softmax_pair_bounds (e : R) :
  1 <= e <= 9 ->
  1e-7 <= e / (e + 1) <= 1 /\ 1e-7 <= 1 / (e + 1) <= 1 /\ e / (e + 1) + 1 / (e + 1) = 1.
Proof.
  intros [Hlo Hhi].
  assert (Hp1 : 1 / 2 <= e / (e + 1) <= 1).
  { split.
    - apply Rmult_le_reg_r with (e + 1); [lra|].
      replace (e / (e + 1) * (e + 1)) with e by (field; lra). lra.
    - apply Rmult_le_reg_r with (e + 1); [lra|].
      replace (e / (e + 1) * (e + 1)) with e by (field; lra). lra. }
  assert (Hp2 : 1 / 10 <= 1 / (e + 1) <= 1).
  { split.
    - apply Rmult_le_reg_r with (e + 1); [lra|].
      replace (1 / (e + 1) * (e + 1)) with 1 by (field; lra). lra.
    - apply Rmult_le_reg_r with (e + 1); [lra|].
      replace (1 / (e + 1) * (e + 1)) with 1 by (field; lra). lra. }
  split; [lra|]. split; [lra|]. field. lra.
Qed.

Lemma ln_le_minus_1 (x : R) : 0 < x -> ln x <= x - 1.
Proof.
  intros Hx. pose proof (exp_ineq1_le (ln x)) as Hexp.
  rewrite exp_ln in Hexp by exact Hx. lra.
Qed.

Lemma kl_term_lower (p q : R) : 0 < p -> 0 < q -> p - q <= p * ln (p / q).
Proof.
  intros Hp Hq.
  assert (Hratio : 0 < q / p) by now apply Rdiv_lt_0_compat.
  pose proof (ln_le_minus_1 (q / p) Hratio) as Hln.
  replace (p / q) with (/ (q / p)) by (field; lra).
  rewrite ln_Rinv by exact Hratio.
  assert (Hmul : p * ln (q / p) <= p * (q / p - 1)).
  { apply Rmult_le_compat_l; lra. }
  replace (p * (q / p - 1)) with (q - p) in Hmul by (field; lra). lra.
Qed.

(** The divergence between two distributions on two classes is not
    negative. *)
Lemma kl_div_nonneg (p1 p2 q1 q2 : R) :
  1e-7 <= p1 <= 1 -> 1e-7 <= p2 <= 1 -> 1e-7 <= q1 <= 1 -> 1e-7 <= q2 <= 1 ->
  p1 + p2 = 1 -> q1 + q2 = 1 ->
  0 <= kl_div [p1; p2] [q1; q2].
Proof.
  intros Hp1 Hp2 Hq1 Hq2 Hp Hq. unfold kl_div. cbn [zip_with]. unfold reduce_sum.
  cbn [foldr]. rewrite !clip_id by assumption.
  pose proof (kl_term_lower p1 q1 ltac:(lra) ltac:(lra)).
  pose proof (kl_term_lower p2 q2 ltac:(lra) ltac:(lra)). lra.
Qed.

(** The divergence of the uniform distribution on two classes from a
    distribution that is not uniform is positive. *)
Lemma kl_div_half (e : R) :
  1 < e <= 3 -> 0 < kl_div [1 / 2; 1 / 2] [e / (e + 1); 1 / (e + 1)].
Proof.
  intros [Hlo Hhi]. unfold kl_div. cbn [zip_with]. unfold reduce_sum. cbn [foldr].
  destruct (softmax_pair_bounds e ltac:(lra)) as (Hp1 & Hp2 & _).
  assert (Hp1' : 1 / 2 <= e / (e + 1)).
  { apply Rmult_le_reg_r with (e + 1); [lra|].
    replace (e / (e + 1) * (e + 1)) with e by (field; lra). lra. }
  assert (Hp2' : 1 / 4 <= 1 / (e + 1)).
  { apply Rmult_le_reg_r with (e + 1); [lra|].
    replace (1 / (e + 1) * (e + 1)) with 1 by (field; lra). lra. }
  rewrite (clip_id (1 / 2)) by lra.
  rewrite (clip_id (e / (e + 1))) by lra.
  rewrite (clip_id (1 / (e + 1))) by lra.
  assert (Ha : 0 < 1 / 2 / (e / (e + 1))).
  { apply Rdiv_lt_0_compat; lra. }
  assert (Hb : 0 < 1 / 2 / (1 / (e + 1))).
  { apply Rdiv_lt_0_compat; lra. }
  assert (Hprod : 1 < 1 / 2 / (e / (e + 1)) * (1 / 2 / (1 / (e + 1)))).
  { replace (1 / 2 / (e / (e + 1)) * (1 / 2 / (1 / (e + 1))))
      with (1 + (e - 1) * (e - 1) / (4 * e)) by (field; lra).
    assert (0 < (e - 1) * (e - 1) / (4 * e)); [|lra].
    apply Rdiv_lt_0_compat; [|lra]. apply Rmult_lt_0_compat; lra. }
  assert (Hln : 0 < ln (1 / 2 / (e / (e + 1))) + ln (1 / 2 / (1 / (e + 1)))).
  { rewrite <- ln_mult by assumption. rewrite <- ln_1. apply ln_increasing; lra. }
  lra.
Qed.

Lemma exp_1_bounds : 1 < exp 1 <= 3.
Proof. split; [pose proof (exp_ineq1 1); lra | apply exp_le_3]. Qed.

Lemma exp_2_bounds : 1 <= exp (1 + 1) <= 9.
Proof.
  rewrite exp_plus. destruct exp_1_bounds as [Hlo Hhi]. split; [nra|].
  replace 9 with (3 * 3) by lra. apply Rmult_le_compat; lra.
Qed.

(** The adversarial loss of the example is the mean of two divergences:
    that of the labeled example, which is not negative, and that of the
    unlabeled example, of the softmax of the logits [0, 0] from the
    softmax of the perturbed logits [1, 0], which is positive. *)
Lemma example_adv_loss_positive : exists K : R, example_adv_loss = Some K /\ 0 < K.
Proof.
  unfold example_adv_loss, adversarial_loss. cbv zeta.
  change (vat_e adv_config) with 1. change (vat_k adv_config) with 0%nat.
  cbn [power_iteration]. rewrite adv_direction.
  unfold prob_fn, out_fn. change (vat_top_k adv_config =? 0)%nat with true.
  change (vat_preturb_embed adv_config) with false. cbv iota.
  change (SeqLab.add3 adv_hidden [[[1]]; [[1]]]) with [[[1 + 1]]; [[0 + 1]]].
  unfold adv_hidden. rewrite !adv_dense. cbn [map concat app].
  rewrite softmax_zero, !softmax_pair. replace (0 + 1) with 1 by lra.
  cbn [zip_with mean]. eexists. split; [reflexivity|].
  pose proof (kl_div_half (exp 1) exp_1_bounds) as Hunlabeled.
  destruct exp_1_bounds as [Hlo1 Hhi1].
  destruct (softmax_pair_bounds (exp 1) ltac:(lra)) as (Hp1 & Hp2 & Hp).
  destruct (softmax_pair_bounds (exp (1 + 1)) exp_2_bounds) as (Hq1 & Hq2 & Hq).
  pose proof (kl_div_nonneg _ _ _ _ Hp1 Hp2 Hq1 Hq2 Hp Hq) as Hlabeled.
  unfold reduce_sum. cbn [foldr length INR]. lra.
Qed.

(** The supervised mean of that batch without TSA and without CRF. *)
Definition example_sup : option R :=
  weighted_xent_loss adv_targets
    (labeled_logits adv_vars adv_hidden adv_targets 2)
    (labeled_lengths adv_hidden adv_targets None).

(** The theorem at that batch, without TSA and without CRF. *)
Lemma ssl_coefficient_of_ict_and_vat_witness :
  let u_loss := ict_u_loss unit identity_featurizer adv_vars tt tt 2 [1; 0]%nat
                  [1 / 2; 1 / 2] [1 / 2; 1 / 2] adv_hidden in
  let coef := fun global_step : nat =>
    Rmax 0 (ssl_loss_coef (example_config None) * linear_warmup (INR global_step / 100) 0.25) in
  let l := labeled_logits adv_vars adv_hidden adv_targets 2 in
  let len := labeled_lengths adv_hidden adv_targets None in
  (forall global_step,
     ict keep_all linear_warmup unit identity_featurizer adv_vars tt tt [1; 0]%nat
       [1 / 2; 1 / 2] [1 / 2; 1 / 2] "GPU:0" global_step adv_hidden
       (Some adv_targets) 2 (example_config None) false None false adv_hidden None 100
     = Ok {| logits := l;
             losses := option_map Scalar
                         (nan_add example_sup (nan_mul (Some (coef global_step)) u_loss));
             predict := {| transition_matrix := Transition_matrix adv_vars;
                           sequence_length := len |} |})
  /\ (forall global_step, 0 <= coef global_step)
  /\ coef 0%nat = 0
  /\ (forall u, u_loss = Some u -> nan_mul (Some (coef 0%nat)) u_loss = Some 0)
  /\ vat keep_all adv_vars example_adv_loss "GPU:0" adv_hidden (Some adv_targets) 2
       (example_config None) false None false None 100
     = Ok {| logits := l;
             losses := option_map Scalar
                         (nan_add example_sup
                            (nan_mul (Some (ssl_loss_coef (example_config None)))
                               example_adv_loss));
             predict := {| transition_matrix := Transition_matrix adv_vars;
                           sequence_length := len |} |}.
Proof.
  intros u_loss coef l len.
  apply (ssl_coefficient_of_ict_and_vat keep_all linear_warmup unit identity_featurizer
           adv_vars example_adv_loss tt tt [1; 0]%nat [1 / 2; 1 / 2] [1 / 2; 1 / 2] "GPU:0"
           adv_hidden adv_targets 2 (example_config None) false None false
           adv_hidden None 100 l l len len example_sup example_sup).
  - reflexivity.
  - reflexivity.
  - exact linear_warmup_start.
Defined.

(** C3 as stated fails for [vat]: on that batch its loss is the
    supervised mean plus [ssl_loss_coef = 1] times the adversarial loss
    that the code computes, a contribution that is positive at every
    step, the first included: no argument of [vat] carries the training
    progress. *)
Lemma vat_adversarial_term_not_annealed :
  exists (out : engine_output) (sup adv : R),
    vat keep_all adv_vars
      (adversarial_loss unit identity_featurizer exp no_k_best no_gradients adv_vars
         adv_config tt adv_uniform adv_hidden 2 None adv_hidden)
      "GPU:0" adv_hidden (Some adv_targets) 2 (example_config None) false None false None 100
    = Ok out
    /\ weighted_xent_loss adv_targets (take 1 (dense 2 (kernel adv_vars) (bias adv_vars)
                                                 adv_hidden))
         (take 1 (default_lengths adv_hidden)) = Some sup
    /\ adversarial_loss unit identity_featurizer exp no_k_best no_gradients adv_vars
         adv_config tt adv_uniform adv_hidden 2 None adv_hidden = Some adv
    /\ losses out = Some (Scalar (sup + 1 * adv))
    /\ 0 < 1 * adv.
Proof.
  destruct example_adv_loss_positive as (adv & Hadv & Hpos). unfold example_adv_loss in Hadv.
  eexists. eexists. exists adv. split; [|split; [|split; [exact Hadv|split]]].
  - apply (vat_labeled keep_all adv_vars _ "GPU:0" adv_hidden adv_targets 2
             (example_config None) false None false None 100).
    reflexivity.
  - reflexivity.
  - cbn [losses]. rewrite Hadv. reflexivity.
  - lra.
Qed.

(** The theorem at that batch with a TSA method whose filter removes the
    labeled example. *)
Lemma tsa_all_filtered_supervised_zero_witness :
  let cfg := example_config (Some "linear_schedule") in
  let supervised := fun locals =>
    supervised_mean drop_all locals cfg false "GPU:0" false
      (labeled_logits adv_vars adv_hidden adv_targets 2) adv_targets
      (labeled_lengths adv_hidden adv_targets None)
      (Transition_matrix adv_vars) 100 in
  let result := fun unsupervised : option R =>
    Ok {| logits := [];
          losses := option_map Scalar (nan_add (Some 0) unsupervised);
          predict := {| transition_matrix := Transition_matrix adv_vars;
                        sequence_length := [] |} |} in
  (supervised Names.ict_locals = Ok ([], [], Some 0)
   /\ ict drop_all linear_warmup unit identity_featurizer adv_vars tt tt [1; 0]%nat
        [1 / 2; 1 / 2] [1 / 2; 1 / 2] "GPU:0" 0 adv_hidden (Some adv_targets) 2
        cfg false None false adv_hidden None 100
      = result (nan_mul (Some (ssl_coef linear_warmup cfg 0 100))
                  (ict_u_loss unit identity_featurizer adv_vars tt tt 2 [1; 0]%nat
                     [1 / 2; 1 / 2] [1 / 2; 1 / 2] adv_hidden)))
  /\ (false = true \/ false = false ->
      supervised Names.vat_locals = Ok ([], [], Some 0)
      /\ vat drop_all adv_vars example_adv_loss "GPU:0" adv_hidden (Some adv_targets) 2
           cfg false None false None 100
         = result (nan_mul (Some (ssl_loss_coef cfg)) example_adv_loss))
  /\ (false = true \/ false = false ->
      supervised Names.mean_teacher_locals = Ok ([], [], Some 0)
      /\ mean_teacher drop_all linear_warmup unit identity_featurizer adv_vars tt "GPU:0"
           0 adv_hidden (Some adv_targets) 2 cfg false None false adv_hidden
           None 100
         = result (nan_mul (Some (ssl_loss_coef cfg))
                     (mean_teacher_u_loss unit identity_featurizer adv_vars tt 2
                        (dense 2 (kernel adv_vars) (bias adv_vars) adv_hidden)
                        adv_hidden)))
  /\ (forall u : R, nan_add (Some 0) (Some u) = Some u).
Proof.
  intros cfg supervised result.
  apply (tsa_all_filtered_supervised_zero drop_all linear_warmup unit identity_featurizer
           adv_vars example_adv_loss tt tt [1; 0]%nat [1 / 2; 1 / 2] [1 / 2; 1 / 2] "GPU:0" 0
           adv_hidden adv_targets 2 cfg false None false adv_hidden None 100
           "linear_schedule" [] []).
  - reflexivity.
  - reflexivity.
Defined.

(** C4 as stated fails: when the filter removes every labeled example
    (here the one labeled example, predicted with a probability above
    1/2 for its class) the loss that [vat] returns is 0 plus
    [ssl_loss_coef = 1] times the adversarial loss that the code
    computes, which is positive, and not 0. *)
Lemma vat_all_filtered_loss_not_zero :
  exists (out : engine_output) (adv : R),
    vat drop_all adv_vars
      (adversarial_loss unit identity_featurizer exp no_k_best no_gradients adv_vars
         adv_config tt adv_uniform adv_hidden 2 None adv_hidden)
      "GPU:0" adv_hidden (Some adv_targets) 2 (example_config (Some "linear_schedule"))
      false None false None 100
    = Ok out
    /\ drop_all "linear_schedule"
         (take 1 (dense 2 (kernel adv_vars) (bias adv_vars) adv_hidden)) adv_targets
         (take 1 (default_lengths adv_hidden)) false (Transition_matrix adv_vars) 100
       = ([], [], [])
    /\ adversarial_loss unit identity_featurizer exp no_k_best no_gradients adv_vars
         adv_config tt adv_uniform adv_hidden 2 None adv_hidden = Some adv
    /\ losses out = Some (Scalar (0 + 1 * adv))
    /\ 0 < adv
    /\ losses out <> Some (Scalar 0).
Proof.
  destruct example_adv_loss_positive as (adv & Hadv & Hpos). unfold example_adv_loss in Hadv.
  eexists. exists adv. split; [|split; [|split; [exact Hadv|split; [|split]]]].
  - apply (vat_labeled drop_all adv_vars _ "GPU:0" adv_hidden adv_targets 2
             (example_config (Some "linear_schedule")) false None false None 100 [] []
             (Some 0)).
    reflexivity.
  - reflexivity.
  - cbn [losses]. rewrite Hadv. reflexivity.
  - exact Hpos.
  - cbn [losses]. rewrite Hadv. cbn [nan_mul nan_add option_map].
    intros Heq. injection Heq as Heq. lra.
Qed.

End SslTheorems.

(** ** Consistency losses *)

Module ConsistencyFacts.
Import Ssl.

Lemma zip_with_diag {A B : Type} (f : A -> A -> B) (l : list A) :
  zip_with f l l = map (fun x => f x x) l.
Proof. induction l as [|x l IH]; [reflexivity|]. cbn [zip_with map]. now rewrite IH. Qed.

Lemma reduce_sum_zeros {A : Type} (g : A -> R) (l : list A) :
  (forall x, g x = 0) -> reduce_sum (map g l) = 0.
Proof.
  intros Hg. induction l as [|x l IH]; [reflexivity|].
  cbn [map]. rewrite reduce_sum_cons, IH, Hg. lra.
Qed.

Lemma mean_zeros {A : Type} (g : A -> R) (l : list A) :
  (forall x, g x = 0) -> l <> [] -> mean (map g l) = Some 0.
Proof.
  intros Hg Hne. destruct l as [|x l]; [contradiction|].
  unfold mean. cbn [map]. rewrite <- (map_cons g), reduce_sum_zeros by exact Hg.
  f_equal. unfold Rdiv. now rewrite Rmult_0_l.
Qed.

(** The squared error of a token against itself. *)
Lemma mse_token_self (tok : vec) :
  tok <> [] -> mean (map (fun d => d * d) (zip_with Rminus tok tok)) = Some 0.
Proof.
  intros Hne. rewrite zip_with_diag, map_map.
  apply mean_zeros; [|exact Hne]. intros x. cbn. lra.
Qed.

Lemma MSE_self (t : ten3) :
  Forall (Forall (fun tok => tok <> [])) t ->
  MSE t t = map (map (fun _ => Some 0)) t.
Proof.
  intros Ht. unfold MSE. rewrite zip_with_diag. apply map_ext_Forall.
  eapply Forall_impl; [exact Ht|]. intros m Hm. cbn.
  rewrite zip_with_diag. apply map_ext_Forall.
  eapply Forall_impl; [exact Hm|]. intros tok Htok. cbn. now apply mse_token_self.
Qed.

Lemma mapM_all_some {A : Type} (l : list A) (c : R) :
  mapM (fun x : option R => x) (map (fun _ => Some c) l) = Some (map (fun _ => c) l).
Proof.
  induction l as [|x l IH]; [reflexivity|].
  cbn [map]. cbn. cbn in IH. now rewrite IH.
Qed.

(** The mean squared error between a tensor and itself is 0, provided
    the tensor has an element. *)
Lemma reduce_mean_MSE_self (b s n : nat) (t : ten3) :
  has_shape3 b s n t -> (0 < b)%nat -> (0 < s)%nat -> (0 < n)%nat ->
  reduce_mean_nan (MSE t t) = Some 0.
Proof.
  intros Ht Hb Hs Hn.
  assert (Htok : Forall (Forall (fun tok : vec => tok <> [])) t).
  { destruct Ht as [_ Hrows]. eapply Forall_impl; [exact Hrows|].
    intros m [_ Hm]. eapply Forall_impl; [exact Hm|].
    intros tok Hlen ->. cbn in Hlen. lia. }
  rewrite MSE_self by exact Htok. unfold reduce_mean_nan.
  rewrite <- concat_map, mapM_all_some.
  apply mean_zeros; [reflexivity|].
  destruct (concat_shape b s n t Ht) as [Hlen _].
  intros Hnil. rewrite Hnil in Hlen. cbn in Hlen. nia.
Qed.

End ConsistencyFacts.

Module ConsistencyTheorems.
Import Ssl ConsistencyFacts.

(** C6 (as amended).  When the moving-average featurizer computes the
    same function as the live one, and [hidden] is the live featurizer's
    output on [embedding_out], the consistency loss of [mean_teacher] is 0
    on every batch that has an element.  For [ict] that does not suffice:
    its consistency loss is 0 when, in addition, the two draws of the
    mixing coefficient coincide and the model commutes with the
    interpolation of the batch. *)
Theorem consistency_loss_zero (params : Type) (featurizer_fn : params -> ten3 -> ten3)
    (vars : engine_vars) (live ema : params) (n : nat) (hidden embedding_out : ten3)
    (shuffle_indicies : list nat) (lam : vec) (b s : nat) :
  let layer := dense n (kernel vars) (bias vars) in
  let mix_input := mix lam embedding_out (gather embedding_out shuffle_indicies) in
  (forall x, featurizer_fn ema x = featurizer_fn live x) ->
  hidden = featurizer_fn live embedding_out ->
  has_shape2 b s hidden ->
  has_shape2 b s (featurizer_fn live mix_input) ->
  (0 < b)%nat -> (0 < s)%nat -> (0 < n)%nat ->
  length (bias vars) = n ->
  layer (featurizer_fn live mix_input)
  = mix lam (layer (featurizer_fn live embedding_out))
        (gather (layer (featurizer_fn live embedding_out)) shuffle_indicies) ->
  mean_teacher_u_loss params featurizer_fn vars ema n (layer hidden) embedding_out = Some 0
  /\ ict_u_loss params featurizer_fn vars live ema n shuffle_indicies lam lam embedding_out
     = Some 0.
Proof.
  intros layer mix_input Hsame Hhidden Hshape Hmix Hb Hs Hn Hbias Hcommute. split.
  - unfold mean_teacher_u_loss. rewrite Hsame, <- Hhidden.
    apply (reduce_mean_MSE_self b s n); try assumption.
    now apply dense_shape.
  - unfold ict_u_loss. rewrite Hsame. fold layer. fold mix_input. rewrite <- Hcommute.
    apply (reduce_mean_MSE_self b s n); try assumption.
    now apply dense_shape.
Qed.

(** Two unlabeled examples of one token, with embeddings 0 and 2. *)
Definition two_examples : ten3 := [[[0]]; [[2]]].

(** The theorem for a featurizer that returns its input and a dense
    layer with kernel 1 and bias 0, mixing with coefficient 1/2. *)
Lemma consistency_loss_zero_witness :
  mean_teacher_u_loss unit SslTheorems.identity_featurizer SslTheorems.example_vars tt 1
    (dense 1 [[1]] [0] two_examples) two_examples = Some 0
  /\ ict_u_loss unit SslTheorems.identity_featurizer SslTheorems.example_vars tt tt 1
       [1; 0]%nat [1 / 2; 1 / 2] [1 / 2; 1 / 2] two_examples = Some 0.
Proof.
  apply (consistency_loss_zero unit SslTheorems.identity_featurizer SslTheorems.example_vars
           tt tt 1 two_examples two_examples [1; 0]%nat [1 / 2; 1 / 2] 2 1).
  - reflexivity.
  - reflexivity.
  - split; [reflexivity | repeat constructor].
  - split; [reflexivity | repeat constructor].
  - lia.
  - lia.
  - lia.
  - reflexivity.
  - unfold two_examples, SslTheorems.identity_featurizer, SslTheorems.example_vars, dense,
      matmul_add, vecmat, mix, gather, reduce_sum.
    tensor_eval. tensor_eq.
Defined.

(** A featurizer without parameters that squares every entry. *)
Definition square_featurizer (_ : unit) (x : ten3) : ten3 :=
  map (map (map (fun v => v * v))) x.

(** C6 as stated fails for [ict]: with one and the same model as live
    and moving-average model and one and the same mixing coefficient 1/2,
    a featurizer that is not affine gives a consistency loss of 1 on the
    embeddings 0 and 2 (the prediction on the mix is 1, the mix of the
    predictions is 2). *)
Lemma ict_consistency_loss_not_zero :
  ict_u_loss unit square_featurizer SslTheorems.example_vars tt tt 1
    [1; 0]%nat [1 / 2; 1 / 2] [1 / 2; 1 / 2] two_examples <> Some 0.
Proof.
  unfold ict_u_loss, reduce_mean_nan, MSE, mean, two_examples,
    square_featurizer, SslTheorems.example_vars, dense, matmul_add, vecmat,
    mix, gather, reduce_sum.
  tensor_eval. cbn [INR]. intros Heq. injection Heq as Heq. lra.
Qed.

(** The same happens with an affine model when the two draws of the
    mixing coefficient differ, here 3/4 and 1/4. *)
Lemma ict_two_draws_loss_not_zero :
  ict_u_loss unit SslTheorems.identity_featurizer SslTheorems.example_vars tt tt 1
    [1; 0]%nat [3 / 4; 3 / 4] [1 / 4; 1 / 4] two_examples <> Some 0.
Proof.
  unfold ict_u_loss, reduce_mean_nan, MSE, mean, two_examples,
    SslTheorems.identity_featurizer, SslTheorems.example_vars, dense, matmul_add, vecmat,
    mix, gather, reduce_sum.
  tensor_eval. cbn [INR]. intros Heq. injection Heq as Heq. lra.
Qed.

End ConsistencyTheorems.

(** ** Pseudo-labels *)

Module PseudoLabelFacts.
Import Ssl.











Section WithDecoder.

Variable sequence_decode : ten3 -> mat -> list nat -> bool -> list (list nat) * ten3.
Variable float_exp : R -> R.




End WithDecoder.
















End PseudoLabelFacts.

Module PseudoLabelTheorems.
Import Ssl PseudoLabelFacts.

Section WithDecoder.

Variable sequence_decode : ten3 -> mat -> list nat -> bool -> list (list nat) * ten3.
Variable float_exp : R -> R.


End WithDecoder.






End PseudoLabelTheorems.

(** ** The classification heads *)

Module ClassifierFacts.
Import ClassWeight ClassWeightFacts Classifiers.

Lemma reduce_sum_scale_l (c : R) (v : vec) :
  reduce_sum (map (fun x => c * x) v) = c * reduce_sum v.
Proof.
  induction v as [|x v IH]; cbn [map].
  - unfold reduce_sum. cbn. lra.
  - rewrite !reduce_sum_cons, IH. lra.
Qed.

Lemma lookup_weights_scale (k : R) (cw : vec) (targets : mat) :
  lookup_weights (map (fun c => k * c) cw) targets
  = map (fun w => k * w) (lookup_weights cw targets).
Proof.
  unfold lookup_weights. rewrite map_map. apply map_ext. intros t.
  rewrite <- reduce_sum_scale_l. f_equal.
  revert t. induction cw as [|c cw IH]; intros [|x t]; cbn [map zip_with]; try reflexivity.
  rewrite IH. f_equal. lra.
Qed.

Lemma renormalize1_scale (k : R) (w : vec) :
  k <> 0 -> reduce_sum w <> 0 ->
  renormalize1 (map (fun x => k * x) w) = renormalize1 w.
Proof.
  intros Hk Hw. unfold renormalize1, shape1, reduce_prod. cbn [foldr].
  rewrite length_map, map_map, reduce_sum_scale_l. apply map_ext. intros x.
  field. split; assumption.
Qed.

(** The sum of the entries of [losses * expand_dims(weights, 1)]. *)
Lemma mul_expand_dims_sum (losses weights : vec) :
  reduce_sum (concat (mul_expand_dims losses weights)) = reduce_sum losses * reduce_sum weights.
Proof.
  unfold mul_expand_dims. induction weights as [|w weights IH]; cbn [map concat].
  - unfold reduce_sum at 1 3. cbn. lra.
  - rewrite reduce_sum_app, IH, reduce_sum_scale, reduce_sum_cons. lra.
Qed.

Lemma length_mul_expand_dims (losses weights : vec) :
  length (concat (mul_expand_dims losses weights)) = (length weights * length losses)%nat.
Proof.
  unfold mul_expand_dims. induction weights as [|w weights IH]; cbn [map concat length].
  - reflexivity.
  - rewrite length_app, IH, length_map. lia.
Qed.

Lemma length_renormalize1 (w : vec) : length (renormalize1 w) = length w.
Proof. unfold renormalize1. apply length_map. Qed.

Lemma mean_some (v : vec) : v <> [] -> mean v = Some (reduce_sum v / INR (length v)).
Proof. now destruct v. Qed.

(** The sigmoid cross-entropy of a label in [0, 1] is not negative. *)
Lemma sigmoid_cross_entropy_nonneg (x z : R) :
  0 <= z <= 1 -> 0 <= sigmoid_cross_entropy x z.
Proof.
  intros [Hz0 Hz1]. unfold sigmoid_cross_entropy.
  assert (Hln : 0 <= ln (1 + exp (- Rabs x))).
  { rewrite <- ln_1. pose proof (exp_pos (- Rabs x)) as Hexp.
    left. apply ln_increasing; lra. }
  assert (Hmax : 0 <= Rmax x 0 - x * z).
  { destruct (Rle_dec x 0) as [Hneg | Hpos].
    - rewrite Rmax_right by exact Hneg. nra.
    - rewrite Rmax_left by lra. nra. }
  lra.
Qed.

Lemma sigmoid_bounds (x : R) : 0 < sigmoid x < 1.
Proof.
  unfold sigmoid. pose proof (exp_pos (- x)) as Hexp. split.
  - apply Rdiv_lt_0_compat; lra.
  - apply (Rmult_lt_reg_r (1 + exp (- x))); [lra|]. field_simplify; lra.
Qed.

Lemma sigmoid_monotone (x y : R) : x <= y -> sigmoid x <= sigmoid y.
Proof.
  intros Hxy. unfold sigmoid, Rdiv. rewrite !Rmult_1_l.
  pose proof (exp_pos (- x)) as Hx. pose proof (exp_pos (- y)) as Hy.
  apply Rinv_le_contravar; [lra|].
  destruct Hxy as [Hlt | ->]; [|lra].
  apply Rplus_le_compat_l. left. apply exp_increasing. lra.
Qed.

Lemma reduce_sum_replicate (n : nat) (c : R) : reduce_sum (replicate n c) = INR n * c.
Proof.
  induction n as [|n IH]; [cbn; unfold reduce_sum; cbn; lra|].
  cbn [replicate]. rewrite reduce_sum_cons, IH, S_INR. lra.
Qed.

Lemma reduce_sum2_ones {A : Type} (l : list A) (n : nat) :
  reduce_sum2 (map (fun _ => replicate n 1) l) = INR (length l * n).
Proof.
  unfold reduce_sum2. induction l as [|x l IH]; [reflexivity|].
  cbn [map length]. rewrite reduce_sum_cons, IH, reduce_sum_replicate.
  replace (S (length l) * n)%nat with (n + length l * n)%nat by lia.
  rewrite plus_INR. lra.
Qed.

Lemma map_replicate_ones (n : nat) (c : R) :
  c = 1 -> map (fun x => x * c) (replicate n 1) = replicate n 1.
Proof.
  intros ->. induction n as [|n IH]; [reflexivity|].
  cbn [replicate map]. rewrite IH. f_equal. lra.
Qed.

Lemma zip_with_mul_ones (l : vec) (n : nat) :
  length l = n -> zip_with Rmult l (replicate n 1) = l.
Proof.
  revert l. induction n as [|n IH]; intros [|x l] Hl; cbn [length] in Hl;
    try discriminate; [reflexivity|].
  cbn [replicate zip_with]. rewrite IH by lia. f_equal. lra.
Qed.

(** The raw multilabel weights for class weights that are all 1. *)
Lemma multilabel_raw_unit (n : nat) (t : vec) :
  length t = n ->
  zip_with Rplus (zip_with Rmult (replicate n 1) t)
    (zip_with Rmult (map (fun _ => 1) (replicate n 1)) (map (fun x => 1 - x) t))
  = replicate n 1.
Proof.
  revert t. induction n as [|n IH]; intros [|x t] Ht; cbn [length] in Ht;
    try discriminate; [reflexivity|].
  cbn [replicate map zip_with]. rewrite IH by lia. f_equal. lra.
Qed.

Lemma Forall_zip_with2 {A B C : Type} (P : A -> Prop) (Q : B -> Prop) (T : C -> Prop)
    (f : A -> B -> C) (a : list A) (b : list B) :
  (forall x y, P x -> Q y -> T (f x y)) ->
  Forall P a -> Forall Q b -> Forall T (zip_with f a b).
Proof.
  intros Hf Ha. revert b. induction Ha as [|x a Hx _ IH]; intros b Hb; [constructor|].
  destruct Hb as [|y b Hy Hb]; [constructor|].
  cbn [zip_with]. constructor; [now apply Hf | now apply IH].
Qed.

(** The shared-weights logits of the ordinal regressor: one score per
    example, shifted by every bias. *)
Lemma shared_threshold_row (row : vec) (w : mat) (b : vec) :
  bcast_add_row (vecmat 1 row w) b
  = map (fun y => reduce_sum (zip_with (fun xi wrow => xi * nth 0 wrow 0) row w) + y) b.
Proof. reflexivity. Qed.

End ClassifierFacts.

Module ClassifierTheorems.
Import ClassWeight ClassWeightFacts Classifiers ClassifierFacts.

(** X1.  The weights that [_apply_class_weight] applies depend on the
    ratios of the class weights only: multiplying every class weight by
    the same non-zero factor leaves them unchanged. *)
Theorem class_weights_scale_invariant (k : R) (cw : vec) (targets : mat) :
  k <> 0 ->
  reduce_sum (lookup_weights cw targets) <> 0 ->
  single_label_weights (map (fun c => k * c) cw) targets = single_label_weights cw targets.
Proof.
  intros Hk Hsum. unfold single_label_weights.
  rewrite lookup_weights_scale. now apply renormalize1_scale.
Qed.

Lemma class_weights_scale_invariant_witness :
  single_label_weights (map (fun c => 2 * c) [1; 3]) [[1; 0]; [0; 1]]
  = single_label_weights [1; 3] [[1; 0]; [0; 1]].
Proof.
  apply class_weights_scale_invariant.
  - lra.
  - unfold lookup_weights, reduce_sum. tensor_eval. lra.
Defined.

Section WithDropout.

Variable dropout : mat -> R -> bool -> mat.

(** X2.  With class weights the classifier multiplies its [batch] vector
    of losses by the [batch, 1] column of weights, which broadcasts to a
    [batch, batch] tensor; as the weights sum to the batch size, the mean
    of that tensor is the mean of the unweighted losses. *)
Theorem classifier_class_weights_keep_mean (w : mat) (b : vec) (hidden targets : mat)
    (n_targets : nat) (cfg : config) (train : bool) (cw : vec) :
  let unweighted :=
    zip_with softmax_cross_entropy
      (Heads.perceptron w b (dropout hidden (clf_p_drop cfg) train) n_targets) targets in
  targets <> [] ->
  length (dropout hidden (clf_p_drop cfg) train) = length targets ->
  reduce_sum (lookup_weights cw targets) <> 0 ->
  losses (classifier dropout w b hidden (Some targets) n_targets cfg train None)
  = Some (inl unweighted)
  /\ exists weighted : mat,
       losses (classifier dropout w b hidden (Some targets) n_targets cfg train (Some cw))
       = Some (inr weighted)
       /\ has_shape2 (length targets) (length targets) weighted
       /\ mean (concat weighted) = mean unweighted.
Proof.
  intros unweighted Hne Hlen Hsum. split; [reflexivity|].
  exists (mul_expand_dims unweighted (single_label_weights cw targets)).
  assert (Hl : length unweighted = length targets).
  { subst unweighted. unfold Heads.perceptron, matmul_add.
    rewrite length_zip_with, length_map. lia. }
  assert (Hw : length (single_label_weights cw targets) = length targets).
  { unfold single_label_weights. now rewrite length_renormalize1, length_lookup_weights. }
  assert (Hpos : (0 < length targets)%nat) by (destruct targets; [contradiction | cbn; lia]).
  split; [reflexivity | split; [split|]].
  - unfold mul_expand_dims. now rewrite length_map.
  - unfold mul_expand_dims. apply Forall_map, Forall_true. intros x. cbn.
    now rewrite length_map.
  - rewrite !mean_some.
    + f_equal. rewrite mul_expand_dims_sum, length_mul_expand_dims, Hl, Hw.
      unfold single_label_weights.
      rewrite renormalize1_sum by exact Hsum. rewrite length_lookup_weights, mult_INR.
      field. apply not_0_INR. lia.
    + intros Hnil. rewrite Hnil in Hl. cbn in Hl. lia.
    + intros Hnil. pose proof (length_mul_expand_dims unweighted
                                 (single_label_weights cw targets)) as Hc.
      rewrite Hnil, Hl, Hw in Hc. cbn in Hc. nia.
Qed.

(** X3.  Class weights that are all 1 leave the losses of
    [multi_classifier] as they are without class weights. *)
Theorem multi_classifier_unit_class_weights (w : mat) (b : vec) (hidden targets : mat)
    (n_targets : nat) (cfg : config) (train : bool) (batch : nat) :
  (0 < batch)%nat -> (0 < n_targets)%nat ->
  length (dropout hidden (clf_p_drop cfg) train) = batch ->
  length b = n_targets ->
  has_shape2 batch n_targets targets ->
  multi_classifier dropout w b hidden (Some targets) n_targets cfg train
    (Some (replicate n_targets 1))
  = multi_classifier dropout w b hidden (Some targets) n_targets cfg train None.
Proof.
  intros Hb Hn Hlen Hbias [Htb Hts]. unfold multi_classifier. f_equal. f_equal.
  unfold _apply_multilabel_class_weight, multilabel_weights.
  set (losses := zip_with (zip_with sigmoid_cross_entropy) _ targets).
  assert (Hraw : multilabel_raw_weights (replicate n_targets 1) targets
                 = map (fun _ => replicate n_targets 1) targets).
  { unfold multilabel_raw_weights. apply map_ext_Forall.
    eapply Forall_impl; [exact Hts|]. intros t Ht. cbn. now apply multilabel_raw_unit. }
  assert (Hshape : reduce_prod (shape2 (map (fun _ : list R => replicate n_targets 1) targets))
                   = (length targets * n_targets)%nat).
  { unfold shape2, reduce_prod. rewrite length_map.
    destruct targets as [|t ts]; [cbn in Htb; lia|].
    cbn [map hd foldr]. rewrite length_replicate. lia. }
  assert (Hnorm : renormalize2 (map (fun _ : list R => replicate n_targets 1) targets)
                  = map (fun _ => replicate n_targets 1) targets).
  { unfold renormalize2. rewrite reduce_sum2_ones, Hshape, map_map. apply map_ext. intros _.
    apply map_replicate_ones. field. apply not_0_INR. rewrite Htb. nia. }
  rewrite Hraw, Hnorm.
  assert (Hls : Forall (fun l => length l = n_targets) losses).
  { subst losses. unfold Heads.perceptron.
    destruct (matmul_add_shape n_targets (dropout hidden (clf_p_drop cfg) train) w b Hbias)
      as [_ Hrows].
    clear -Hrows Hts. revert targets Hts.
    induction Hrows as [|r rows Hr _ IH]; intros [|t ts] Hts; cbn [zip_with]; try constructor.
    - apply Forall_cons in Hts as [Ht _]. rewrite length_zip_with. lia.
    - apply Forall_cons in Hts as [_ Hts]. now apply IH. }
  assert (Hll : length losses = length targets).
  { subst losses. unfold Heads.perceptron, matmul_add.
    rewrite length_zip_with, length_map. lia. }
  clearbody losses. clear -Hls Hll. revert targets Hll.
  induction Hls as [|l ls Hl _ IH]; intros [|t ts] Hll; cbn [length] in Hll;
    try discriminate; [reflexivity|].
  cbn [map zip_with]. rewrite (IH ts) by lia. f_equal. now apply zip_with_mul_ones.
Qed.

(** X4.  For targets in [0, 1] and class weights that are not negative
    (or absent), no loss of [multi_classifier] is negative. *)
Theorem multi_classifier_losses_nonneg (w : mat) (b : vec) (hidden targets : mat)
    (n_targets : nat) (cfg : config) (train : bool) (class_weights : option vec) :
  Forall (Forall (fun z => 0 <= z <= 1)) targets ->
  match class_weights with
  | Some cw => Forall (fun c => 0 <= c) cw
               /\ reduce_sum2 (multilabel_raw_weights cw targets) <> 0
  | None => True
  end ->
  exists losses : mat,
    m_losses (multi_classifier dropout w b hidden (Some targets) n_targets cfg train
                class_weights) = Some losses
    /\ Forall (Forall (fun l => 0 <= l)) losses.
Proof.
  intros Ht Hcw. eexists. split; [reflexivity|].
  set (logits := Heads.perceptron w b (dropout hidden (clf_p_drop cfg) train) n_targets).
  assert (Hlosses : Forall (Forall (fun l => 0 <= l))
                      (zip_with (zip_with sigmoid_cross_entropy) logits targets)).
  { apply (Forall_zip_with2 (fun _ => True) (Forall (fun z => 0 <= z <= 1)));
      [|now apply Forall_true | exact Ht].
    intros l t _ Hz.
    apply (Forall_zip_with2 (fun _ => True) (fun z => 0 <= z <= 1));
      [|now apply Forall_true | exact Hz].
    intros x z _ Hxz. now apply sigmoid_cross_entropy_nonneg. }
  destruct class_weights as [cw|]; [|exact Hlosses].
  destruct Hcw as [Hcw Hsum]. unfold _apply_multilabel_class_weight.
  assert (Hraw : Forall (Forall (fun x => 0 <= x)) (multilabel_raw_weights cw targets)).
  { unfold multilabel_raw_weights. apply Forall_map.
    eapply Forall_impl; [exact Ht|]. intros t Hz. cbn.
    clear -Hcw Hz. revert t Hz. induction Hcw as [|c cw Hc _ IH]; intros t Hz; [constructor|].
    destruct Hz as [|z t Hz0 Hz]; [constructor|].
    cbn [map zip_with]. constructor; [nra | now apply IH]. }
  assert (Htotal : 0 <= reduce_sum2 (multilabel_raw_weights cw targets)).
  { unfold reduce_sum2. apply reduce_sum_nonneg, Forall_map.
    eapply Forall_impl; [exact Hraw|]. intros r Hr. cbn. now apply reduce_sum_nonneg. }
  assert (Hfactor : 0 <= INR (reduce_prod (shape2 (multilabel_raw_weights cw targets)))
                         / reduce_sum2 (multilabel_raw_weights cw targets)).
  { apply Rmult_le_pos; [apply pos_INR|]. left. apply Rinv_0_lt_compat. lra. }
  apply (Forall_zip_with2 (Forall (fun l => 0 <= l)) (Forall (fun x => 0 <= x)));
    [|exact Hlosses|].
  - intros l r Hl Hr.
    apply (Forall_zip_with2 (fun l => 0 <= l) (fun x => 0 <= x)); [|exact Hl | exact Hr].
    intros x y Hx Hy. now apply Rmult_le_pos.
  - unfold multilabel_weights, renormalize2. apply Forall_map.
    eapply Forall_impl; [exact Hraw|]. intros r Hr. cbn. apply Forall_map.
    eapply Forall_impl; [exact Hr|]. intros x Hx. cbn. now apply Rmult_le_pos.
Qed.

(** X5.  With shared threshold weights the logits of the ordinal
    regressor are one score per example shifted by each bias: for every
    example the logits of two thresholds differ by the difference of
    their biases. *)
Theorem ordinal_thresholds_parallel (w : mat) (b : vec) (hidden targets : mat)
    (n_targets : nat) (cfg : config) (train : bool) (row : vec) (j k : nat) :
  (j < length b)%nat -> (k < length b)%nat ->
  In row (m_logits (ordinal_regressor dropout w b hidden (Some targets) n_targets cfg
                      true train)) ->
  nth j row 0 - nth k row 0 = nth j b 0 - nth k b 0.
Proof.
  intros Hj Hk Hrow. cbn [ordinal_regressor m_logits] in Hrow.
  apply in_map_iff in Hrow as (h & <- & _). rewrite shared_threshold_row.
  rewrite !(MultilabelFacts.nth_map_in _ _ _ 0) by assumption. lra.
Qed.

(** X6.  Without targets the ordinal regressor returns no loss and the
    sigmoid of its logits: with shared threshold weights every output
    lies strictly between 0 and 1, and the outputs of an example are
    ordered as the biases of their thresholds. *)
Theorem ordinal_inference_probabilities (w : mat) (b : vec) (hidden : mat)
    (n_targets : nat) (cfg : config) (train : bool) (row : vec) (j k : nat) :
  (j < length b)%nat -> (k < length b)%nat ->
  In row (m_logits (ordinal_regressor dropout w b hidden None n_targets cfg true train)) ->
  m_losses (ordinal_regressor dropout w b hidden None n_targets cfg true train) = None
  /\ length row = length b
  /\ Forall (fun p => 0 < p < 1) row
  /\ (nth j b 0 <= nth k b 0 -> nth j row 0 <= nth k row 0).
Proof.
  intros Hj Hk Hrow. cbn [ordinal_regressor m_logits] in Hrow.
  rewrite map_map in Hrow. apply in_map_iff in Hrow as (h & <- & _).
  rewrite shared_threshold_row, map_map.
  split; [reflexivity | split; [now rewrite length_map | split]].
  - apply Forall_map, Forall_true. intros y. cbn. apply sigmoid_bounds.
  - intros Hb. rewrite !(MultilabelFacts.nth_map_in _ _ _ 0) by assumption.
    apply sigmoid_monotone. lra.
Qed.

(** X7.  With targets the ordinal regressor returns its raw logits, and
    for targets in [0, 1] no entry of its all-threshold loss is negative. *)
Theorem ordinal_training_losses_nonneg (w : mat) (b : vec) (hidden targets : mat)
    (n_targets : nat) (cfg : config) (shared train : bool) :
  Forall (Forall (fun z => 0 <= z <= 1)) targets ->
  m_logits (ordinal_regressor dropout w b hidden (Some targets) n_targets cfg shared train)
  = (if shared
     then map (fun row => bcast_add_row (vecmat 1 row w) b)
              (dropout hidden (clf_p_drop cfg) train)
     else Heads.perceptron w b (dropout hidden (clf_p_drop cfg) train) n_targets)
  /\ exists losses : mat,
       m_losses (ordinal_regressor dropout w b hidden (Some targets) n_targets cfg shared
                   train) = Some losses
       /\ Forall (Forall (fun l => 0 <= l)) losses.
Proof.
  intros Ht. split; [reflexivity|]. eexists. split; [reflexivity|].
  apply (Forall_zip_with2 (fun _ => True) (Forall (fun z => 0 <= z <= 1)));
    [|now apply Forall_true | exact Ht].
  intros l t _ Hz.
  apply (Forall_zip_with2 (fun _ => True) (fun z => 0 <= z <= 1));
    [|now apply Forall_true | exact Hz].
  intros x z _ Hxz. now apply sigmoid_cross_entropy_nonneg.
Qed.

End WithDropout.

(** Two examples with two classes; the perceptron is the identity. *)
Definition id_kernel : mat := [[1; 0]; [0; 1]].
Definition two_hidden : mat := [[1; 2]; [3; 4]].
Definition two_targets : mat := [[1; 0]; [0; 1]].

Lemma classifier_class_weights_keep_mean_witness :
  let unweighted :=
    zip_with softmax_cross_entropy
      (Heads.perceptron id_kernel [0; 0] two_hidden 2) two_targets in
  losses (classifier RegressorTheorems.no_dropout id_kernel [0; 0] two_hidden
            (Some two_targets) 2 SeqLabTheorems.bidirectional_config false None)
  = Some (inl unweighted)
  /\ exists weighted : mat,
       losses (classifier RegressorTheorems.no_dropout id_kernel [0; 0] two_hidden
                 (Some two_targets) 2 SeqLabTheorems.bidirectional_config false
                 (Some [1; 3]))
       = Some (inr weighted)
       /\ has_shape2 (length two_targets) (length two_targets) weighted
       /\ mean (concat weighted) = mean unweighted.
Proof.
  intros unweighted.
  apply (classifier_class_weights_keep_mean RegressorTheorems.no_dropout id_kernel [0; 0]
           two_hidden two_targets 2 SeqLabTheorems.bidirectional_config false [1; 3]).
  - discriminate.
  - reflexivity.
  - unfold lookup_weights, two_targets, reduce_sum. tensor_eval. lra.
Defined.

Lemma multi_classifier_unit_class_weights_witness :
  multi_classifier RegressorTheorems.no_dropout id_kernel [0; 0] two_hidden
    (Some two_targets) 2 SeqLabTheorems.bidirectional_config false (Some (replicate 2 1))
  = multi_classifier RegressorTheorems.no_dropout id_kernel [0; 0] two_hidden
      (Some two_targets) 2 SeqLabTheorems.bidirectional_config false None.
Proof.
  apply (multi_classifier_unit_class_weights RegressorTheorems.no_dropout id_kernel [0; 0]
           two_hidden two_targets 2 SeqLabTheorems.bidirectional_config false 2).
  - lia.
  - lia.
  - reflexivity.
  - reflexivity.
  - split; [reflexivity | repeat constructor].
Defined.

Lemma two_targets_flags : Forall (Forall (fun z => 0 <= z <= 1)) two_targets.
Proof. unfold two_targets. repeat constructor; lra. Qed.

Lemma multi_classifier_losses_nonneg_witness :
  exists losses : mat,
    m_losses (multi_classifier RegressorTheorems.no_dropout id_kernel [0; 0] two_hidden
                (Some two_targets) 2 SeqLabTheorems.bidirectional_config false
                (Some [1; 3])) = Some losses
    /\ Forall (Forall (fun l => 0 <= l)) losses.
Proof.
  apply (multi_classifier_losses_nonneg RegressorTheorems.no_dropout id_kernel [0; 0]
           two_hidden two_targets 2 SeqLabTheorems.bidirectional_config false (Some [1; 3])).
  - exact two_targets_flags.
  - split.
    + repeat constructor; lra.
    + unfold multilabel_raw_weights, two_targets, reduce_sum2, reduce_sum. tensor_eval. lra.
Defined.

(** One example with score 2 and the biases 0 and 1 of two thresholds. *)
Lemma ordinal_thresholds_parallel_witness :
  let row := bcast_add_row (vecmat 1 [1] [[2]]) [0; 1] in
  nth 0 row 0 - nth 1 row 0 = nth 0 [0; 1] 0 - nth 1 [0; 1] 0.
Proof.
  intros row.
  apply (ordinal_thresholds_parallel RegressorTheorems.no_dropout [[2]] [0; 1] [[1]]
           [[0; 1]] 2 SeqLabTheorems.bidirectional_config false row 0 1).
  - cbn. lia.
  - cbn. lia.
  - left. reflexivity.
Defined.

Lemma ordinal_inference_probabilities_witness :
  let row := map sigmoid (bcast_add_row (vecmat 1 [1] [[2]]) [0; 1]) in
  m_losses (ordinal_regressor RegressorTheorems.no_dropout [[2]] [0; 1] [[1]] None 2
              SeqLabTheorems.bidirectional_config true false) = None
  /\ length row = length [0; 1]
  /\ Forall (fun p => 0 < p < 1) row
  /\ (nth 0 [0; 1] 0 <= nth 1 [0; 1] 0 -> nth 0 row 0 <= nth 1 row 0).
Proof.
  intros row.
  apply (ordinal_inference_probabilities RegressorTheorems.no_dropout [[2]] [0; 1] [[1]]
           2 SeqLabTheorems.bidirectional_config false row 0 1).
  - cbn. lia.
  - cbn. lia.
  - left. reflexivity.
Defined.

Lemma ordinal_training_losses_nonneg_witness :
  m_logits (ordinal_regressor RegressorTheorems.no_dropout id_kernel [0; 0] two_hidden
              (Some two_targets) 2 SeqLabTheorems.bidirectional_config false false)
  = Heads.perceptron id_kernel [0; 0]
      (RegressorTheorems.no_dropout two_hidden
         (clf_p_drop SeqLabTheorems.bidirectional_config) false) 2
  /\ exists losses : mat,
       m_losses (ordinal_regressor RegressorTheorems.no_dropout id_kernel [0; 0] two_hidden
                   (Some two_targets) 2 SeqLabTheorems.bidirectional_config false false)
       = Some losses
       /\ Forall (Forall (fun l => 0 <= l)) losses.
Proof.
  apply (ordinal_training_losses_nonneg RegressorTheorems.no_dropout id_kernel [0; 0]
           two_hidden two_targets 2 SeqLabTheorems.bidirectional_config false false).
  exact two_targets_flags.
Defined.

End ClassifierTheorems.

(** ** Multiple choice *)

Module MultiChoiceFacts.
Import Classifiers.

Lemma map_nth_seq {A : Type} (l : list A) (d : A) :
  map (fun i => nth i l d) (seq 0 (length l)) = l.
Proof.
  apply (nth_ext _ _ d d).
  - now rewrite length_map, length_seq.
  - intros i Hi. rewrite length_map, length_seq in Hi.
    now rewrite (CrfFacts.nth_map_seq (fun i => nth i l d)).
Qed.

Lemma map_seq_ext {A : Type} (f g : nat -> A) (n : nat) :
  (forall i, (i < n)%nat -> f i = g i) -> map f (seq 0 n) = map g (seq 0 n).
Proof.
  intros Hfg. apply map_ext_in. intros i Hi. apply in_seq in Hi. apply Hfg. lia.
Qed.

(** The block of index [c] of a concatenation of blocks of equal size. *)
Lemma concat_block {A : Type} (blocks : list (list A)) (size c : nat) :
  Forall (fun bl => length bl = size) blocks -> (c < length blocks)%nat ->
  take size (drop (c * size) (concat blocks)) = nth c blocks [].
Proof.
  intros Hblocks. revert c. induction Hblocks as [|bl blocks Hbl _ IH]; intros c Hc;
    cbn [length] in Hc; [lia|].
  cbn [concat]. destruct c as [|c].
  - cbn [Nat.mul nth]. rewrite drop_0. now apply take_app_length'.
  - cbn [Nat.mul nth]. rewrite drop_app_add' by (symmetry; exact Hbl). apply IH. lia.
Qed.

Lemma length_concat_blocks {A : Type} (blocks : list (list A)) (size : nat) :
  Forall (fun bl => length bl = size) blocks ->
  length (concat blocks) = (length blocks * size)%nat.
Proof.
  induction 1 as [|bl blocks Hbl _ IH]; [reflexivity|].
  cbn [concat length]. rewrite length_app, IH, Hbl. lia.
Qed.

(** Splitting a concatenation of [n] blocks of equal size into [n] parts
    gives the blocks back. *)
Lemma split_concat_blocks (n size : nat) (blocks : list mat) :
  (0 < n)%nat -> length blocks = n -> Forall (fun bl => length bl = size) blocks ->
  split_axis0 n (concat blocks) = blocks.
Proof.
  intros Hn Hlen Hblocks. unfold split_axis0.
  rewrite (length_concat_blocks blocks size) by exact Hblocks.
  rewrite Hlen, Nat.mul_comm, Nat.div_mul by lia.
  transitivity (map (fun i => nth i blocks []) (seq 0 (length blocks)));
    [|apply map_nth_seq].
  rewrite Hlen.
  apply map_seq_ext. intros c Hc. apply concat_block; [exact Hblocks | lia].
Qed.

(** Unstacking the choices, applying a function to every row and
    concatenating along axis 1 applies the function to every choice of
    every example. *)
Lemma concat_unstack (f : vec -> vec) (n batch : nat) (h : ten3) :
  (0 < n)%nat -> has_shape2 batch n h ->
  concat_axis1 (map (map f) (unstack_axis1 n h)) = map (fun example => concat (map f example)) h.
Proof.
  intros Hn [Hb Hs]. unfold concat_axis1, unstack_axis1.
  assert (Hhd : length (hd [] (map (map f)
                                (map (fun c => map (fun example : mat => nth c example []) h)
                                     (seq 0 n)))) = length h).
  { destruct n as [|n]; [lia|]. cbn [seq map hd]. now rewrite !length_map. }
  rewrite Hhd.
  transitivity (map (fun example => concat (map f example))
                  (map (fun i => nth i h []) (seq 0 (length h))));
    [|now rewrite map_nth_seq].
  rewrite (map_map (fun i => nth i h []) (fun example => concat (map f example))).
  apply map_seq_ext. intros i Hi. f_equal. rewrite !map_map.
  assert (Hrow : length (nth i h []) = n).
  { rewrite Forall_forall in Hs. apply Hs. apply list_elem_of_In, nth_In. exact Hi. }
  transitivity (map f (map (fun c => nth c (nth i h []) []) (seq 0 (length (nth i h [])))));
    [|now rewrite map_nth_seq].
  rewrite Hrow, (map_map (fun c => nth c (nth i h []) []) f).
  apply map_seq_ext. intros c Hc.
  rewrite (MultilabelFacts.nth_map_in _ _ _ []) by now rewrite length_map.
  f_equal.
  now rewrite (MultilabelFacts.nth_map_in (fun example : mat => nth c example []) h i [] []).
Qed.

End MultiChoiceFacts.

Module MultiChoiceTheorems.
Import Classifiers MultiChoiceFacts.

(** X8.  [multi_choice_question] scores every choice on its own: for a
    [batch, n_targets, embed] input the logit of choice [c] of example
    [i] is the perceptron output for the hidden vector of that choice,
    and without class weights the loss of an example is the sparse
    cross-entropy of its row of logits against the index of the right
    choice. *)
Theorem multi_choice_scores_each_choice (dropout3 : ten3 -> R -> bool -> ten3)
    (w : mat) (b : vec) (hidden : ten3) (targets : option (list nat)) (n_targets : nat)
    (cfg : config) (train : bool) (batch : nat) :
  let h := dropout3 hidden (clf_p_drop cfg) train in
  let scores := map (fun example => concat (Heads.perceptron w b example 1)) h in
  (0 < n_targets)%nat ->
  has_shape2 batch n_targets h ->
  multi_choice_question dropout3 w b hidden targets n_targets cfg train None
  = Ok (scores, option_map (zip_with token_xent scores) targets).
Proof.
  intros h scores Hn Hshape. unfold multi_choice_question. fold h.
  set (f := fun row : vec => zip_with Rplus (vecmat 1 row w) b).
  assert (Hout : concat_axis1
                   (split_axis0 n_targets
                      (Heads.perceptron w b (concat (unstack_axis1 n_targets h)) 1))
                 = scores).
  { unfold Heads.perceptron, matmul_add. fold f. rewrite concat_map.
    rewrite (split_concat_blocks n_targets batch).
    - now apply (concat_unstack f n_targets batch).
    - exact Hn.
    - unfold unstack_axis1. now rewrite !length_map, length_seq.
    - unfold unstack_axis1. apply Forall_map, Forall_map, Forall_true. intros c. cbn.
      rewrite !length_map. apply Hshape. }
  rewrite Hout. now destruct targets.
Qed.

(** The theorem for two examples with two choices each. *)
Lemma multi_choice_scores_each_choice_witness :
  let h : ten3 := [[[1]; [2]]; [[3]; [4]]] in
  let scores := map (fun example => concat (Heads.perceptron [[1]] [0] example 1)) h in
  multi_choice_question (fun x _ _ => x) [[1]] [0] h (Some [0; 1]%nat) 2
    SeqLabTheorems.bidirectional_config false None
  = Ok (scores, option_map (zip_with token_xent scores) (Some [0; 1]%nat)).
Proof.
  intros h scores.
  apply (multi_choice_scores_each_choice (fun x _ _ => x) [[1]] [0] h (Some [0; 1]%nat) 2
           SeqLabTheorems.bidirectional_config false 2).
  - lia.
  - split; [reflexivity | repeat constructor].
Defined.

End MultiChoiceTheorems.

(** ** The language-model head *)

Module LanguageModelFacts.
Import LanguageModel.

Lemma le_max_length (lengths : list nat) (len : nat) :
  In len lengths -> (len <= max_length lengths)%nat.
Proof.
  induction lengths as [|l lengths IH]; [contradiction|].
  intros [-> | Hin]; cbn [max_length foldr]; [lia|].
  specialize (IH Hin). unfold max_length in IH. lia.
Qed.

Lemma indicator_sum (len s n : nat) :
  reduce_sum (map (fun t => if (t <? len)%nat then 1 else 0) (seq s n))
  = INR (Nat.min (len - s) n).
Proof.
  revert s. induction n as [|n IH]; intros s.
  - rewrite Nat.min_0_r. reflexivity.
  - cbn [seq map]. rewrite reduce_sum_cons, IH.
    destruct (Nat.ltb_spec s len) as [Hlt | Hge].
    + replace (Nat.min (len - s) (S n)) with (S (Nat.min (len - S s) n)) by lia.
      rewrite S_INR. lra.
    + replace (Nat.min (len - s) (S n)) with 0%nat by lia.
      replace (Nat.min (len - S s) n) with 0%nat by lia. cbn [INR]. lra.
Qed.

(** The number of positions after the first that the mask keeps. *)
Lemma shifted_mask_sum (len maxlen : nat) :
  (len <= maxlen)%nat -> reduce_sum (drop 1 (Crf.sequence_mask len maxlen)) = INR (len - 1).
Proof.
  intros Hle. rewrite CrfFacts.drop_mask, indicator_sum. f_equal. lia.
Qed.

Lemma removelast_map {A B : Type} (f : A -> B) (l : list A) :
  removelast (map f l) = map f (removelast l).
Proof.
  induction l as [|x l IH]; [reflexivity|].
  destruct l as [|y l]; [reflexivity|].
  cbn [map removelast] in *. now rewrite IH.
Qed.

Lemma Forall2_map_eq {A B : Type} (f : list A -> B) (a b : list (list A)) :
  Forall2 (fun x y => f x = f y) a b -> map f a = map f b.
Proof. induction 1 as [|x y a b Hxy _ IH]; [reflexivity|]. cbn [map]. now rewrite Hxy, IH. Qed.

End LanguageModelFacts.

Module LanguageModelTheorems.
Import LanguageModel LanguageModelFacts.

(** X9 ([language_model], perplexity).  The loss is one scalar for the whole
    batch, so the perplexity of every sequence with at least two tokens is
    the same number, the exponential of the loss; a sequence of length 0 or
    1 has no target position, and its perplexity is the result of 0 / 0. *)
Theorem language_model_perplexity_is_exp_loss
    (X : list (list nat)) (sequence_lengths : list nat) (embed_weights : mat) (hidden : ten3) :
  perplexity (language_model X sequence_lengths embed_weights hidden)
  = map (fun len => if (2 <=? len)%nat
                    then Some (exp (losses (language_model X sequence_lengths embed_weights hidden)))
                    else None)
        sequence_lengths.
Proof.
  unfold language_model. cbn [perplexity losses].
  set (L := sparse_softmax_cross_entropy _ _ _). clearbody L.
  unfold sequence_mask_default. rewrite map_map.
  apply map_ext_in. intros len Hin.
  rewrite ClassifierFacts.reduce_sum_scale_l.
  rewrite shifted_mask_sum by now apply le_max_length.
  unfold float_div.
  destruct (Nat.leb_spec 2 len) as [Hge | Hlt].
  - assert (Hpos : INR (len - 1) <> 0) by (apply not_0_INR; lia).
    destruct (decide (INR (len - 1) = 0)) as [Hz | _]; [contradiction|].
    f_equal. field. exact Hpos.
  - replace (len - 1)%nat with 0%nat by lia. cbn [INR].
    destruct (decide (0 = 0)) as [_ | Hne]; [reflexivity | contradiction].
Qed.

(** X10 ([language_model], shifted targets).  The loss pairs the hidden
    state of position [t] with the token of position [t + 1]: it depends
    neither on the last hidden state of a sequence nor on its first
    token. *)
Theorem language_model_loss_ignores_last_state
    (X X' : list (list nat)) (sequence_lengths : list nat) (embed_weights : mat)
    (hidden hidden' : ten3) :
  Forall2 (fun h h' => removelast h = removelast h') hidden hidden' ->
  Forall2 (fun x x' => drop 1 x = drop 1 x') X X' ->
  losses (language_model X sequence_lengths embed_weights hidden)
  = losses (language_model X' sequence_lengths embed_weights hidden').
Proof.
  intros Hh Hx. unfold language_model. cbn [losses].
  assert (Hoffset : forall hs : ten3,
             map (fun row : mat => removelast row) (map (map (tied_logits embed_weights)) hs)
             = map (map (tied_logits embed_weights)) (map (fun row : mat => removelast row) hs)).
  { intros hs. rewrite !map_map. apply map_ext. intros row. apply removelast_map. }
  rewrite !Hoffset.
  rewrite (Forall2_map_eq (fun row : mat => removelast row) hidden hidden' Hh).
  rewrite (Forall2_map_eq (drop 1) X X' Hx).
  reflexivity.
Qed.

Definition lm_embed : mat := [[1; 0]; [0; 1]; [1; 1]].

Lemma language_model_loss_ignores_last_state_witness :
  losses (language_model [[0; 1; 2]%nat] [3%nat] lm_embed [[[1; 0]; [0; 1]; [5; 5]]])
  = losses (language_model [[2; 1; 2]%nat] [3%nat] lm_embed [[[1; 0]; [0; 1]; [7; -3]]]).
Proof.
  apply language_model_loss_ignores_last_state.
  - repeat constructor.
  - repeat constructor.
Defined.

End LanguageModelTheorems.

(** ** Document labeling *)

Module DocumentFacts.
Import DocumentLabeling.

Lemma for_loop_app {A S : Type} (body : S -> A -> outcome S) (xs ys : list A) (s : S) :
  for_loop body (xs ++ ys) s = and_then (for_loop body xs s) (for_loop body ys).
Proof.
  revert s. induction xs as [|x xs IH]; intros s; [reflexivity|].
  cbn [app for_loop]. destruct (body s x) as [s'|e]; cbn [and_then]; [apply IH | reflexivity].
Qed.

(** The context entry of a token for given scale factors [(x_norm, y_norm)]. *)
Definition token_item (norms : R * R) (tok : token) : context_item :=
  {| c_top := p_top (token_position tok) * snd norms;
     c_bottom := p_bottom (token_position tok) * snd norms;
     c_left := p_left (token_position tok) * fst norms;
     c_right := p_right (token_position tok) * fst norms;
     c_start := start (token_doc_offset tok);
     c_end := end_ (token_doc_offset tok);
     c_text := token_text tok |}.

(** The scale factors of a page, as the loop body computes them for each
    of its tokens. *)
Definition page_norms (dpi_norm : bool) (pg : page) : outcome (R * R) :=
  if dpi_norm
  then match pages pg with
       | [] => Throw IndexError
       | page_obj :: _ =>
           if decide (dpix (page_dpi page_obj) = 0) then Throw ZeroDivisionError
           else if decide (dpiy (page_dpi page_obj) = 0) then Throw ZeroDivisionError
           else Return (300 / dpix (page_dpi page_obj), 300 / dpiy (page_dpi page_obj))
       end
  else Return (1, 1).

Lemma get_context_token_norms (dpi_norm : bool) (pg : page) (ctx : list context_item)
    (tok : token) :
  get_context_token dpi_norm pg ctx tok
  = and_then (page_norms dpi_norm pg) (fun n => Return (ctx ++ [token_item n tok])).
Proof.
  unfold get_context_token, page_norms. destruct dpi_norm; [|reflexivity].
  destruct (pages pg) as [|page_obj rest]; [reflexivity|].
  cbn [first_item and_then]. unfold py_div.
  destruct (decide (dpix (page_dpi page_obj) = 0)); [reflexivity|].
  cbn [and_then]. destruct (decide (dpiy (page_dpi page_obj) = 0)); reflexivity.
Qed.

(** The inner loop of [get_context]: a page without tokens is left alone,
    another one contributes its tokens in order, all with the same
    factors. *)
Lemma page_loop (dpi_norm : bool) (pg : page) (toks : list token) (ctx : list context_item) :
  for_loop (get_context_token dpi_norm pg) toks ctx
  = match toks with
    | [] => Return ctx
    | _ => and_then (page_norms dpi_norm pg)
                    (fun n => Return (ctx ++ map (token_item n) toks))
    end.
Proof.
  revert ctx. induction toks as [|tok toks IH]; intros ctx; [reflexivity|].
  cbn [for_loop]. rewrite get_context_token_norms.
  destruct (page_norms dpi_norm pg) as [n|e]; [|reflexivity].
  cbn [and_then]. rewrite IH. destruct toks as [|tok' toks]; [reflexivity|].
  cbn [and_then map]. rewrite <- app_assoc. reflexivity.
Qed.

Definition get_context_page (dpi_norm : bool) (context : list context_item) (pg : page)
    : outcome (list context_item) :=
  for_loop (get_context_token dpi_norm pg) (tokens pg) context.

(** The whole loop when every page with tokens has factors. *)
Lemma document_loop (dpi_norm : bool) (norms : page -> R * R) (doc : document)
    (ctx : list context_item) :
  Forall (fun pg => tokens pg = [] \/ page_norms dpi_norm pg = Return (norms pg)) doc ->
  for_loop (get_context_page dpi_norm) doc ctx
  = Return (ctx ++ concat (map (fun pg => map (token_item (norms pg)) (tokens pg)) doc)).
Proof.
  intros Hdoc. revert ctx. induction Hdoc as [|pg doc Hpg _ IH]; intros ctx.
  - cbn. now rewrite app_nil_r.
  - cbn [for_loop map concat]. unfold get_context_page at 1. rewrite page_loop.
    destruct Hpg as [Hnil | Hnorm].
    + rewrite Hnil. cbn [and_then map app]. apply IH.
    + rewrite Hnorm. destruct (tokens pg) as [|tok toks] eqn:Htoks.
      * cbn [and_then map app]. apply IH.
      * cbn [and_then]. rewrite IH. now rewrite app_assoc.
Qed.

(** The page has a first [pages] entry with a resolution that can be
    divided by. *)
Definition has_resolution (pg : page) : Prop :=
  exists page_obj rest, pages pg = page_obj :: rest
    /\ dpix (page_dpi page_obj) <> 0 /\ dpiy (page_dpi page_obj) <> 0.

Lemma page_norms_true (pg : page) :
  match page_norms true pg with
  | Return _ => has_resolution pg
  | Throw e => (e = IndexError \/ e = ZeroDivisionError) /\ ~ has_resolution pg
  end.
Proof.
  unfold page_norms, has_resolution. destruct (pages pg) as [|page_obj rest].
  - split; [now left|]. intros (? & ? & Hp & _). discriminate.
  - destruct (decide (dpix (page_dpi page_obj) = 0)) as [Hx|Hx].
    { split; [now right|]. intros (? & ? & Hp & Hx' & _). congruence. }
    destruct (decide (dpiy (page_dpi page_obj) = 0)) as [Hy|Hy].
    { split; [now right|]. intros (? & ? & Hp & _ & Hy'). congruence. }
    eauto.
Qed.

(** A page that [get_context] gets through with [dpi_norm]. *)
Definition normalizable (pg : page) : Prop := tokens pg = [] \/ has_resolution pg.

Lemma document_loop_outcome (doc : document) (ctx : list context_item) :
  match for_loop (get_context_page true) doc ctx with
  | Return context =>
      Forall normalizable doc
      /\ length context = (length ctx + length (concat (map tokens doc)))%nat
  | Throw e =>
      ~ Forall normalizable doc /\ (e = IndexError \/ e = ZeroDivisionError)
  end.
Proof.
  revert ctx. induction doc as [|pg doc IH]; intros ctx.
  - cbn. split; [constructor | lia].
  - cbn [for_loop map concat]. unfold get_context_page at 1. rewrite page_loop.
    destruct (tokens pg) as [|tok toks] eqn:Htoks.
    + cbn [and_then app]. specialize (IH ctx).
      destruct (for_loop (get_context_page true) doc ctx) as [context|e].
      * destruct IH as [Hdoc Hlen]. split; [|exact Hlen].
        constructor; [now left | exact Hdoc].
      * destruct IH as [Hdoc He]. split; [|exact He].
        intros HF. apply Forall_cons in HF as [_ HF]. now apply Hdoc.
    + pose proof (page_norms_true pg) as Hn.
      destruct (page_norms true pg) as [n|e]; cbn [and_then].
      * specialize (IH (ctx ++ map (token_item n) (tok :: toks))).
        destruct (for_loop (get_context_page true) doc _) as [context|e].
        -- destruct IH as [Hdoc Hlen]. split; [constructor; [now right | exact Hdoc]|].
           rewrite Hlen, !length_app, length_map. lia.
        -- destruct IH as [Hdoc He]. split; [|exact He].
           intros HF. apply Forall_cons in HF as [_ HF]. now apply Hdoc.
      * destruct Hn as [He Hn]. split; [|exact He].
        intros HF. apply Forall_cons in HF as [[Hnil | Hres] _]; [congruence | now apply Hn].
Qed.

End DocumentFacts.

Module DocumentTheorems.
Import DocumentLabeling DocumentFacts.

(** X11 ([get_context] without normalization).  With [dpi_norm] off,
    [get_context] never raises, whatever the [pages] entries hold: it
    returns one entry per token, in the order of the document, with the
    position, the offsets and the text of the token unchanged. *)
Theorem get_context_without_dpi_norm (doc : document) :
  exists context,
    get_context doc false = Return context
    /\ Forall2 (fun tok cii =>
                  c_top cii = p_top (token_position tok)
                  /\ c_bottom cii = p_bottom (token_position tok)
                  /\ c_left cii = p_left (token_position tok)
                  /\ c_right cii = p_right (token_position tok)
                  /\ c_start cii = start (token_doc_offset tok)
                  /\ c_end cii = end_ (token_doc_offset tok)
                  /\ c_text cii = token_text tok)
               (concat (map tokens doc)) context.
Proof.
  exists (concat (map (fun pg => map (token_item (1, 1)) (tokens pg)) doc)). split.
  - apply (document_loop false (fun _ => (1, 1)) doc []).
    apply Forall_forall. intros pg _. now right.
  - induction doc as [|pg doc IH]; [constructor|].
    cbn [map concat]. apply Forall2_app; [|exact IH].
    clear IH. induction (tokens pg) as [|tok toks IHt]; [constructor|].
    cbn [map]. constructor; [|exact IHt].
    cbn [token_item c_top c_bottom c_left c_right c_start c_end c_text fst snd].
    repeat split; lra.
Qed.

(** X12 ([get_context] with normalization).  With [dpi_norm] on,
    [get_context] returns exactly when every page that has tokens has a
    first [pages] entry whose two resolutions are not zero, and then with
    one entry per token; otherwise it raises IndexError (no [pages]
    entry) or ZeroDivisionError (a zero resolution), and nothing else. *)
Theorem get_context_dpi_norm_outcome (doc : document) :
  match get_context doc true with
  | Return context =>
      Forall normalizable doc /\ length context = length (concat (map tokens doc))
  | Throw e =>
      ~ Forall normalizable doc /\ (e = IndexError \/ e = ZeroDivisionError)
  end.
Proof.
  exact (document_loop_outcome doc []).
Qed.

Definition has_tokens (pg : page) : bool :=
  match tokens pg with
  | [] => false
  | _ => true
  end.

(** X13 ([get_context], pages without tokens).  The [pages] entry is read
    inside the loop over the tokens, so a page without tokens is never
    inspected: removing such pages changes neither the result nor the
    exception. *)
Theorem get_context_skips_pages_without_tokens (doc : document) (dpi_norm : bool) :
  get_context (List.filter has_tokens doc) dpi_norm = get_context doc dpi_norm.
Proof.
  change (for_loop (get_context_page dpi_norm) (List.filter has_tokens doc) []
          = for_loop (get_context_page dpi_norm) doc []).
  generalize (@nil context_item) as ctx.
  induction doc as [|pg doc IH]; intros ctx; [reflexivity|].
  cbn [List.filter]. destruct (has_tokens pg) eqn:Hpg; cbn [for_loop].
  - destruct (get_context_page dpi_norm ctx pg) as [ctx'|e]; cbn [and_then];
      [apply IH | reflexivity].
  - unfold has_tokens in Hpg. unfold get_context_page at 2.
    destruct (tokens pg) as [|tok toks]; [|discriminate].
    cbn [for_loop and_then]. apply IH.
Qed.

(** X14 ([get_context], 300 dpi).  The positions are scaled to 300 dpi: on
    a document whose pages with tokens are all at 300 by 300 dpi,
    normalizing changes nothing. *)
Theorem get_context_300_dpi_unchanged (doc : document) :
  Forall (fun pg => tokens pg = []
                    \/ exists page_obj rest, pages pg = page_obj :: rest
                         /\ dpix (page_dpi page_obj) = 300
                         /\ dpiy (page_dpi page_obj) = 300) doc ->
  get_context doc true = get_context doc false.
Proof.
  intros Hdoc.
  transitivity (for_loop (get_context_page true) doc []); [reflexivity|].
  transitivity (for_loop (get_context_page false) doc []); [|reflexivity].
  rewrite (document_loop true (fun _ => (1, 1)) doc []).
  - rewrite (document_loop false (fun _ => (1, 1)) doc []); [reflexivity|].
    apply Forall_forall. intros pg _. now right.
  - eapply Forall_impl; [exact Hdoc|]. intros pg [Hnil | (page_obj & rest & Hp & Hx & Hy)].
    + now left.
    + right. unfold page_norms. rewrite Hp, Hx, Hy.
      destruct (decide (300 = 0)) as [H0|_]; [lra|].
      f_equal. f_equal; field.
Qed.

Definition example_token : token :=
  {| token_position := {| p_top := 10; p_bottom := 20; p_left := 30; p_right := 60 |};
     token_doc_offset := {| start := 0; end_ := 2 |};
     token_text := [ascii_of_nat 72; ascii_of_nat 105] |}.

Definition example_page_obj (x y : R) : page_obj :=
  {| page_dpi := {| dpix := x; dpiy := y |};
     page_text := [ascii_of_nat 72; ascii_of_nat 105];
     page_doc_offset := {| start := 0; end_ := 2 |} |}.

Definition example_page (x y : R) : page :=
  {| tokens := [example_token]; pages := [example_page_obj x y] |}.

Lemma get_context_300_dpi_unchanged_witness :
  get_context [example_page 300 300] true = get_context [example_page 300 300] false.
Proof.
  apply get_context_300_dpi_unchanged.
  constructor; [|constructor].
  right. exists (example_page_obj 300 300), []. split; [reflexivity|]. split; reflexivity.
Defined.

End DocumentTheorems.

Module ConvertFacts.
Import DocumentLabeling.

(** The text that [_single_convert_to_finetune] keeps of a page. *)
Definition page_line (pg : page) : text :=
  match pages pg with
  | page_obj :: _ => page_text page_obj ++ [newline]
  | [] => []
  end.

(** Every page has a first [pages] entry, and each starts one character
    after the end of the one before it. *)
Fixpoint chained (last_end : Z) (doc : document) : Prop :=
  match doc with
  | [] => True
  | pg :: doc =>
      exists page_obj rest,
        pages pg = page_obj :: rest
        /\ start (page_doc_offset page_obj) = (last_end + 1)%Z
        /\ chained (end_ (page_doc_offset page_obj)) doc
  end.

Lemma convert_loop (doc : document) (texts0 : list text) (last_end : Z) :
  match for_loop convert_page doc (texts0, last_end) with
  | Return (texts, _) => chained last_end doc /\ texts = texts0 ++ map page_line doc
  | Throw e => ~ chained last_end doc /\ (e = IndexError \/ e = AssertionError)
  end.
Proof.
  revert texts0 last_end. induction doc as [|pg doc IH]; intros texts0 last_end.
  - cbn. split; [exact I | now rewrite app_nil_r].
  - cbn [for_loop convert_page chained map]. unfold page_line at 1.
    destruct (pages pg) as [|page_obj rest]; cbn [first_item and_then].
    + split; [|now left]. intros (? & ? & Hp & _). discriminate.
    + destruct (decide (start (page_doc_offset page_obj) = (last_end + 1)%Z)) as [Hs|Hs];
        cbn [and_then].
      * specialize (IH (texts0 ++ [page_text page_obj ++ [newline]])
                       (end_ (page_doc_offset page_obj))).
        destruct (for_loop convert_page doc _) as [[texts e]|e].
        -- destruct IH as [Hch ->]. split; [eauto|]. now rewrite <- app_assoc.
        -- destruct IH as [Hch He]. split; [|exact He].
           intros (po & rest' & Hp & _ & Hch'). injection Hp as <- <-. now apply Hch.
      * split; [|now right].
        intros (po & rest' & Hp & Hs' & _). injection Hp as <- <-. now apply Hs.
Qed.

Lemma py_slice_middle {A : Type} (pre mid post : list A) :
  py_slice (pre ++ mid ++ post) (Z.of_nat (length pre))
           (Z.of_nat (length pre) + Z.of_nat (length mid))
  = mid.
Proof.
  unfold py_slice, slice_index. rewrite !length_app.
  destruct (Z.ltb_spec (Z.of_nat (length pre)) 0) as [Hneg|_]; [lia|].
  destruct (Z.ltb_spec (Z.of_nat (length pre) + Z.of_nat (length mid)) 0) as [Hneg|_]; [lia|].
  rewrite !Z.min_l by lia.
  replace (Z.of_nat (length pre) + Z.of_nat (length mid) - Z.of_nat (length pre))%Z
    with (Z.of_nat (length mid)) by lia.
  rewrite !Nat2Z.id, drop_app_length. apply take_app_length.
Qed.

(** The offsets of a page span its text. *)
Definition spans_text (pg : page) : Prop :=
  forall page_obj rest,
    pages pg = page_obj :: rest ->
    end_ (page_doc_offset page_obj)
    = (start (page_doc_offset page_obj) + Z.of_nat (length (page_text page_obj)))%Z.

Lemma chained_slices (doc : document) (texts0 : list text) (last_end : Z) (tail : text) :
  chained last_end doc ->
  (last_end + 1)%Z = Z.of_nat (length (concat texts0)) ->
  Forall spans_text doc ->
  Forall (fun pg => forall page_obj rest,
            pages pg = page_obj :: rest ->
            py_slice (concat (texts0 ++ map page_line doc) ++ tail)
                     (start (page_doc_offset page_obj)) (end_ (page_doc_offset page_obj))
            = page_text page_obj) doc.
Proof.
  revert texts0 last_end tail. induction doc as [|pg doc IH]; intros texts0 last_end tail;
    [constructor|].
  intros (page_obj & rest & Hp & Hs & Hch) Hlen Hspans.
  apply Forall_cons in Hspans as [Hspan Hspans]. constructor.
  - intros po rest' Hp'. rewrite Hp in Hp'. injection Hp' as <- <-.
    rewrite (Hspan _ _ Hp), Hs, Hlen. cbn [map]. unfold page_line at 1. rewrite Hp.
    rewrite concat_app. cbn [concat]. rewrite <- !app_assoc.
    apply py_slice_middle.
  - cbn [map].
    replace (texts0 ++ page_line pg :: map page_line doc)
      with ((texts0 ++ [page_line pg]) ++ map page_line doc) by now rewrite <- app_assoc.
    apply (IH _ (end_ (page_doc_offset page_obj))); [exact Hch| |exact Hspans].
    rewrite (Hspan _ _ Hp), Hs, concat_app, length_app. cbn [concat].
    unfold page_line. rewrite Hp, app_nil_r, length_app. cbn [length]. lia.
Qed.

Lemma single_convert_returns (doc : document) (dpi_norm : bool) (texts : list text)
    (context : list context_item) :
  _single_convert_to_finetune doc dpi_norm = Return (texts, context) ->
  chained (-1) doc /\ texts = map page_line doc.
Proof.
  unfold _single_convert_to_finetune.
  destruct (get_context doc dpi_norm) as [context'|e]; cbn [and_then]; [|discriminate].
  pose proof (convert_loop doc [] (-1)) as Hloop.
  destruct (for_loop convert_page doc ([], (-1)%Z)) as [[texts' e]|e]; cbn [and_then fst];
    [|discriminate].
  intros Heq. injection Heq as <- <-. exact Hloop.
Qed.

End ConvertFacts.

Module ConvertTheorems.
Import DocumentLabeling ConvertFacts.

(** X15 ([_single_convert_to_finetune], outcome).  The context is computed
    first, so an exception of [get_context] is the exception of the
    conversion.  After it the conversion returns exactly when every page
    has a first [pages] entry and the offsets are chained (the first page
    starts at 0, each other page one character after the end of the one
    before); the texts are then the page texts, each with a newline
    appended.  Otherwise it raises IndexError or AssertionError. *)
Theorem single_convert_outcome (doc : document) (dpi_norm : bool) :
  match _single_convert_to_finetune doc dpi_norm with
  | Return (texts, context) =>
      get_context doc dpi_norm = Return context
      /\ chained (-1) doc
      /\ texts = map page_line doc
  | Throw e =>
      get_context doc dpi_norm = Throw e
      \/ ((exists context, get_context doc dpi_norm = Return context)
          /\ ~ chained (-1) doc
          /\ (e = IndexError \/ e = AssertionError))
  end.
Proof.
  unfold _single_convert_to_finetune.
  destruct (get_context doc dpi_norm) as [context|e]; cbn [and_then]; [|now left].
  pose proof (convert_loop doc [] (-1)) as Hloop.
  destruct (for_loop convert_page doc ([], (-1)%Z)) as [[texts e]|e]; cbn [and_then fst].
  - destruct Hloop as [Hch ->]. auto.
  - destruct Hloop as [Hch He]. right. eauto.
Qed.

(** X16 ([_single_convert_to_finetune], offsets into the joined text).
    When the conversion returns and the offsets of every page span its
    text, the document offsets index the joined text: slicing the
    concatenation of the returned texts at the offsets of a page gives
    back the text of that page.  This is what the newline appended to each
    page and the assertion on the offsets are for. *)
Theorem single_convert_offsets_index_joined_text (doc : document) (dpi_norm : bool)
    (texts : list text) (context : list context_item) :
  _single_convert_to_finetune doc dpi_norm = Return (texts, context) ->
  Forall spans_text doc ->
  Forall (fun pg => forall page_obj rest,
            pages pg = page_obj :: rest ->
            py_slice (concat texts)
                     (start (page_doc_offset page_obj)) (end_ (page_doc_offset page_obj))
            = page_text page_obj) doc.
Proof.
  intros Hconv Hspans.
  destruct (single_convert_returns doc dpi_norm texts context Hconv) as [Hch ->].
  pose proof (chained_slices doc [] (-1) [] Hch eq_refl Hspans) as Hsl.
  cbn [app] in Hsl. eapply Forall_impl; [exact Hsl|].
  intros pg Hpg page_obj rest Hp. specialize (Hpg page_obj rest Hp).
  now rewrite app_nil_r in Hpg.
Qed.

Definition word (codes : list nat) : text := map ascii_of_nat codes.

Definition token_at (s e : Z) (txt : text) : token :=
  {| token_position := {| p_top := 10; p_bottom := 20; p_left := 30; p_right := 60 |};
     token_doc_offset := {| start := s; end_ := e |};
     token_text := txt |}.

Definition page_of (txt : text) (s e : Z) : page :=
  {| tokens := [token_at s e txt];
     pages := [{| page_dpi := {| dpix := 150; dpiy := 150 |};
                  page_text := txt;
                  page_doc_offset := {| start := s; end_ := e |} |}] |}.

(** Two pages, "Hi" at [0, 2) and "you" at [3, 6). *)
Definition two_pages : document :=
  [page_of (word [72; 105]%nat) 0 2; page_of (word [121; 111; 117]%nat) 3 6].

Lemma single_convert_offsets_index_joined_text_witness :
  Forall (fun pg => forall page_obj rest,
            pages pg = page_obj :: rest ->
            py_slice (concat (map page_line two_pages))
                     (start (page_doc_offset page_obj)) (end_ (page_doc_offset page_obj))
            = page_text page_obj) two_pages.
Proof.
  eapply (single_convert_offsets_index_joined_text two_pages false).
  - reflexivity.
  - constructor; [|constructor; [|constructor]];
      intros page_obj rest Hp; injection Hp as <- <-; reflexivity.
Defined.

End ConvertTheorems.

Module ZipFacts.
Import DocumentLabeling.

(** A loop of assertions returns exactly when all of them hold. *)
Lemma assert_loop {A : Type} (P : A -> Prop) `{!forall x, Decision (P x)} (l : list A) :
  match for_loop (fun _ x => py_assert (bool_decide (P x))) l tt with
  | Return _ => Forall P l
  | Throw e => e = AssertionError /\ ~ Forall P l
  end.
Proof.
  induction l as [|x l IH]; [constructor|].
  cbn [for_loop]. destruct (decide (P x)) as [Hx|Hx].
  - rewrite (bool_decide_eq_true_2 _ Hx). cbn [py_assert and_then].
    destruct (for_loop _ l tt) as [u|e].
    + now constructor.
    + destruct IH as [-> Hl]. split; [reflexivity|].
      intros HF. apply Forall_cons in HF as [_ HF]. now apply Hl.
  - rewrite (bool_decide_eq_false_2 _ Hx). cbn [py_assert and_then].
    split; [reflexivity|]. intros HF. apply Forall_cons in HF as [HF _]. now apply Hx.
Qed.

Lemma single_convert_exceptions (doc : document) (e : exception) :
  _single_convert_to_finetune doc true = Throw e ->
  e = IndexError \/ e = ZeroDivisionError \/ e = AssertionError.
Proof.
  unfold _single_convert_to_finetune.
  pose proof (DocumentFacts.document_loop_outcome doc []) as Hctx.
  change (for_loop (DocumentFacts.get_context_page true) doc [])
    with (get_context doc true) in Hctx.
  destruct (get_context doc true) as [context|e']; cbn [and_then].
  - pose proof (ConvertFacts.convert_loop doc [] (-1)) as Hloop.
    destruct (for_loop convert_page doc ([], (-1)%Z)) as [[texts last]|e'']; cbn [and_then];
      [discriminate|].
    intros Heq. injection Heq as <-. destruct Hloop as [_ [-> | ->]]; auto.
  - intros Heq. injection Heq as <-. destruct Hctx as [_ [-> | ->]]; auto.
Qed.

(** document_labeling.py does not import [FinetuneError]: the [raise] of
    the length check ends in a NameError. *)
Lemma raise_finetune_error_unbound {A : Type} (msg : string) :
  @raise_finetune_error A msg = Throw (NameError "FinetuneError").
Proof. unfold raise_finetune_error, load_global. now vm_compute. Qed.

Definition context_checked (joined_text : text) (cii : context_item) : Prop :=
  c_text cii = py_slice joined_text (c_start cii) (c_end cii).

Definition label_checked (joined_text : text) (yii : label) : Prop :=
  l_text yii = py_slice joined_text (l_start yii) (l_end yii).

(** What [zip_list_to_dict] has established of the sample [s] it built for
    the document [x] at index [i]. *)
Definition sample_of (default_context : bool) (Y : option (list (list label))) (i : nat)
    (x : document) (s : sample) : Prop :=
  exists context,
    _single_convert_to_finetune x true = Return (sample_X s, context)
    /\ raw_text s = concat (sample_X s)
    /\ sample_context s = (if default_context then Some context else None)
    /\ (default_context = true -> Forall (context_checked (raw_text s)) context)
    /\ match Y with
       | Some Y => exists Yi, Y !! i = Some Yi /\ sample_Y s = Some Yi
                              /\ Forall (label_checked (raw_text s)) Yi
       | None => sample_Y s = None
       end.

Lemma zip_sample_outcome (default_context : bool) (Y : option (list (list label)))
    (out : list sample) (i : nat) (x : document) :
  match zip_sample default_context Y out (i, x) with
  | Return out' => exists s, out' = out ++ [s] /\ sample_of default_context Y i x s
  | Throw e => e = IndexError \/ e = ZeroDivisionError \/ e = AssertionError
  end.
Proof.
  unfold zip_sample.
  pose proof (single_convert_exceptions x) as Hexc.
  destruct (_single_convert_to_finetune x true) as [[texts context]|e] eqn:Hconv;
    cbn [and_then]; [clear Hexc | now apply Hexc].
  assert (Hleft :
    match (if default_context
           then let+ checked :=
                  for_loop (fun _ cii =>
                              py_assert (bool_decide
                                (c_text cii
                                 = py_slice (concat texts) (c_start cii) (c_end cii))))
                           context tt in
                Return (Some context)
           else Return None) with
    | Return sc => sc = (if default_context then Some context else None)
                   /\ (default_context = true
                       -> Forall (context_checked (concat texts)) context)
    | Throw e => e = AssertionError
    end).
  { destruct default_context; [|split; [reflexivity | discriminate]].
    pose proof (assert_loop
                  (fun cii => c_text cii = py_slice (concat texts) (c_start cii) (c_end cii))
                  context) as Hl.
    destruct (for_loop _ context tt) as [u|e]; cbn [and_then]; [now split | apply Hl]. }
  destruct (if default_context then _ else _) as [sc|e]; cbn [and_then];
    [destruct Hleft as [-> Hctx] | now subst; auto].
  destruct Y as [Y|]; cbn [and_then].
  - unfold item. destruct (Y !! i) as [Yi|] eqn:HYi; cbn [and_then]; [|now left].
    pose proof (assert_loop
                  (fun yii => l_text yii = py_slice (concat texts) (l_start yii) (l_end yii))
                  Yi) as Hl.
    destruct (for_loop _ Yi tt) as [u|e]; cbn [and_then]; [|destruct Hl as [-> _]; auto].
    eexists. split; [reflexivity|]. exists context. cbn. eauto 10.
  - eexists. split; [reflexivity|]. exists context. cbn. eauto 10.
Qed.

Lemma zip_loop (default_context : bool) (Y : option (list (list label)))
    (X : list document) (k : nat) (out : list sample) :
  match for_loop (zip_sample default_context Y) (zip (seq k (length X)) X) out with
  | Return out' =>
      exists samples,
        out' = out ++ samples
        /\ length samples = length X
        /\ forall j x s, X !! j = Some x -> samples !! j = Some s ->
                         sample_of default_context Y (k + j) x s
  | Throw e => e = IndexError \/ e = ZeroDivisionError \/ e = AssertionError
  end.
Proof.
  revert k out. induction X as [|x X IH]; intros k out.
  - cbn. exists []. split; [now rewrite app_nil_r|]. split; [reflexivity|].
    intros j x s Hx. discriminate.
  - cbn [length seq zip zip_with for_loop].
    pose proof (zip_sample_outcome default_context Y out k x) as Hs.
    destruct (zip_sample default_context Y out (k, x)) as [out1|e]; cbn [and_then];
      [|exact Hs].
    destruct Hs as (s & -> & Hs). specialize (IH (S k) (out ++ [s])).
    destruct (for_loop _ _ (out ++ [s])) as [out'|e]; [|exact IH].
    destruct IH as (samples & -> & Hlen & Hall). exists (s :: samples).
    split; [now rewrite <- app_assoc|]. split; [cbn; now rewrite Hlen|].
    intros [|j] x' s' Hx' Hs'; cbn in Hx', Hs'.
    + injection Hx' as <-. injection Hs' as <-. now rewrite Nat.add_0_r.
    + rewrite Nat.add_succ_r. now apply (Hall j).
Qed.

End ZipFacts.

Module ZipTheorems.
Import DocumentLabeling ZipFacts.

(** X17 ([zip_list_to_dict], label count check).  document_labeling.py
    never imports [FinetuneError], so the [raise FinetuneError(...)] of
    the length check ends in a NameError for that name.  The check runs
    before any document is converted: [zip_list_to_dict] raises this
    NameError exactly when no context is passed, labels are given and
    their number differs from the number of documents, whatever the
    documents hold; it raises no other NameError and never a
    FinetuneError. *)
Theorem zip_list_to_dict_label_count_name_error {C : Type} (default_context : bool)
    (X : list document) (Y : option (list (list label))) (context : option C) :
  (forall name : string,
     zip_list_to_dict default_context X Y context = Throw (NameError name)
     <-> name = "FinetuneError"%string /\ context = None
         /\ exists Y', Y = Some Y' /\ length X <> length Y')
  /\ (forall msg : string,
        zip_list_to_dict default_context X Y context <> Throw (FinetuneError msg)).
Proof.
  assert (Hloop : forall e, for_loop (zip_sample default_context Y) (enumerate X) [] = Throw e ->
                            e = IndexError \/ e = ZeroDivisionError \/ e = AssertionError).
  { intros e He. pose proof (zip_loop default_context Y X 0 []) as Hl. unfold enumerate in He.
    rewrite He in Hl. exact Hl. }
  unfold zip_list_to_dict. destruct context as [c|].
  { rewrite bool_decide_eq_false_2 by discriminate. cbn [py_assert and_then].
    split; [|discriminate].
    intros name. split; [discriminate | intros (_ & Hc & _); discriminate]. }
  rewrite bool_decide_eq_true_2 by reflexivity. cbn [py_assert and_then].
  destruct Y as [Y'|]; cbn [and_then].
  - destruct (decide (length X = length Y')) as [Heq|Hne]; cbn [and_then].
    + split.
      * intros name. split.
        -- intros H. apply Hloop in H as [H | [H | H]]; discriminate.
        -- intros (_ & _ & Y2 & HY & Hne). injection HY as <-. contradiction.
      * intros msg H. apply Hloop in H as [H | [H | H]]; discriminate.
    + rewrite raise_finetune_error_unbound. cbn [and_then]. split; [|discriminate].
      intros name. split.
      * intros H. injection H as <-. split; [reflexivity|]. split; [reflexivity|]. eauto.
      * intros (-> & _). reflexivity.
  - split.
    + intros name. split.
      * intros H. apply Hloop in H as [H | [H | H]]; discriminate.
      * intros (_ & _ & Y2 & HY & _). discriminate.
    + intros msg H. apply Hloop in H as [H | [H | H]]; discriminate.
Qed.

(** X18 ([zip_list_to_dict], samples).  When [zip_list_to_dict] returns,
    no context was passed, the labels (if any) are as many as the
    documents, and there is one sample per document, in order: its ["X"]
    is the converted text of the document, its ["raw_text"] the
    concatenation of it, its ["context"] is present exactly with
    [default_context], its ["Y"] is the labels of the document, and every
    context entry and every label has been checked to carry the text that
    its offsets cut out of the raw text. *)
Theorem zip_list_to_dict_samples {C : Type} (default_context : bool)
    (X : list document) (Y : option (list (list label))) (context : option C)
    (out : list sample) :
  zip_list_to_dict default_context X Y context = Return out ->
  context = None
  /\ length out = length X
  /\ (forall Y', Y = Some Y' -> length Y' = length X)
  /\ forall i x s, X !! i = Some x -> out !! i = Some s ->
                   sample_of default_context Y i x s.
Proof.
  unfold zip_list_to_dict. destruct context as [c|].
  { rewrite bool_decide_eq_false_2 by discriminate. discriminate. }
  rewrite bool_decide_eq_true_2 by reflexivity. cbn [py_assert and_then].
  intros Hout. split; [reflexivity|].
  assert (Hlen : forall Y', Y = Some Y' -> length Y' = length X).
  { intros Y' ->. destruct (decide (length X = length Y')); [congruence|].
    rewrite raise_finetune_error_unbound in Hout. discriminate. }
  assert (Hloop : for_loop (zip_sample default_context Y) (enumerate X) [] = Return out).
  { destruct Y as [Y'|]; [|exact Hout].
    destruct (decide (length X = length Y')); [exact Hout|].
    rewrite raise_finetune_error_unbound in Hout. discriminate. }
  clear Hout. pose proof (zip_loop default_context Y X 0 []) as Hl.
  unfold enumerate in Hloop. rewrite Hloop in Hl.
  destruct Hl as (samples & -> & Hsamples & Hall).
  split; [exact Hsamples|]. split; [exact Hlen|].
  intros i x s Hx Hs. exact (Hall i x s Hx Hs).
Qed.

(** The two pages "Hi" and "you" at 150 dpi, with the label of the second
    word. *)
Definition labelled_pages : document := ConvertTheorems.two_pages.

Definition pronoun : label :=
  {| l_start := 3; l_end := 6; l_text := ConvertTheorems.word [121; 111; 117]%nat;
     l_label := "pronoun" |}.

Definition labelled_sample : sample :=
  {| sample_X := map ConvertFacts.page_line labelled_pages;
     raw_text := concat (map ConvertFacts.page_line labelled_pages);
     sample_context :=
       Some (concat (map (fun pg => map (DocumentFacts.token_item (300 / 150, 300 / 150))
                                        (tokens pg)) labelled_pages));
     sample_Y := Some [pronoun] |}.

Lemma labelled_pages_context :
  get_context labelled_pages true
  = Return (concat (map (fun pg => map (DocumentFacts.token_item (300 / 150, 300 / 150))
                                       (tokens pg)) labelled_pages)).
Proof.
  refine (DocumentFacts.document_loop true (fun _ => (300 / 150, 300 / 150))
            labelled_pages [] _).
  constructor; [|constructor; [|constructor]]; right; unfold DocumentFacts.page_norms;
    cbn [pages ConvertTheorems.page_of page_dpi dpix dpiy];
    repeat (destruct (decide (150 = 0)) as [H0|_]; [lra|]); reflexivity.
Qed.

Lemma zip_list_to_dict_samples_witness :
  @None unit = None
  /\ length [labelled_sample] = length [labelled_pages]
  /\ (forall Y', Some [[pronoun]] = Some Y' -> length Y' = length [labelled_pages])
  /\ forall i x s, [labelled_pages] !! i = Some x -> [labelled_sample] !! i = Some s ->
                   sample_of true (Some [[pronoun]]) i x s.
Proof.
  apply (zip_list_to_dict_samples true [labelled_pages] (Some [[pronoun]]) None
           [labelled_sample]).
  unfold zip_list_to_dict, enumerate.
  rewrite bool_decide_eq_true_2 by reflexivity.
  cbn [py_assert and_then length decide seq zip zip_with for_loop].
  unfold zip_sample, _single_convert_to_finetune.
  rewrite labelled_pages_context. reflexivity.
Defined.

End ZipTheorems.

Module TextToIdsFacts.
Import DocumentLabeling.

Lemma py_slice_shift {A : Type} (pre mid post : list A) (s e : Z) :
  (0 <= s <= e)%Z -> (e <= Z.of_nat (length mid))%Z ->
  py_slice (pre ++ mid ++ post) (s + Z.of_nat (length pre)) (e + Z.of_nat (length pre))
  = py_slice mid s e.
Proof.
  intros Hse He. unfold py_slice, slice_index. rewrite !length_app.
  destruct (Z.ltb_spec (s + Z.of_nat (length pre)) 0) as [Hneg|_]; [lia|].
  destruct (Z.ltb_spec (e + Z.of_nat (length pre)) 0) as [Hneg|_]; [lia|].
  destruct (Z.ltb_spec s 0) as [Hneg|_]; [lia|].
  destruct (Z.ltb_spec e 0) as [Hneg|_]; [lia|].
  rewrite !Z.min_l by lia.
  replace (e + Z.of_nat (length pre) - (s + Z.of_nat (length pre)))%Z with (e - s)%Z by lia.
  replace (Z.to_nat (s + Z.of_nat (length pre))) with (length pre + Z.to_nat s)%nat by lia.
  rewrite drop_app_add, drop_app_le by lia.
  apply take_app_le. rewrite length_drop. lia.
Qed.

Section WithEncoder.
Context {P : Type}.
Variable super_text_to_ids : text -> list (encoded_output P).

(** The assertion of the loop body. *)
Definition same_length (chunk : encoded_output P) : Prop :=
  length (token_starts chunk) = length (token_ends chunk).

Definition encodes_well (X_page : text) : Prop :=
  Forall same_length (super_text_to_ids X_page).

Lemma yield_chunks_ok (offset : Z) (chunks : list (encoded_output P)) :
  Forall same_length chunks ->
  yield_chunks offset chunks = (map (shift_chunk offset) chunks, None).
Proof.
  induction 1 as [|chunk chunks Hc _ IH]; [reflexivity|].
  cbn [yield_chunks map]. unfold same_length in Hc.
  destruct (decide _) as [_|Hne]; [|contradiction]. now rewrite IH.
Qed.

Lemma yield_chunks_fail (offset : Z) (good rest : list (encoded_output P))
    (bad : encoded_output P) :
  Forall same_length good -> ~ same_length bad ->
  yield_chunks offset (good ++ bad :: rest)
  = (map (shift_chunk offset) good, Some AssertionError).
Proof.
  intros Hgood Hbad. induction Hgood as [|chunk good Hc _ IH].
  - cbn [app yield_chunks map]. unfold same_length in Hbad.
    destruct (decide _) as [He|_]; [contradiction | reflexivity].
  - cbn [app yield_chunks map]. unfold same_length in Hc.
    destruct (decide _) as [_|Hne]; [|contradiction]. now rewrite IH.
Qed.

(** The loop over the pages, cut in two: the second part starts at the
    offset that the first part has reached, unless the first part raised. *)
Lemma text_to_ids_from_app (offset : Z) (pre X : list text) :
  text_to_ids_from super_text_to_ids offset (pre ++ X)
  = match text_to_ids_from super_text_to_ids offset pre with
    | (yielded, Some exc) => (yielded, Some exc)
    | (yielded, None) =>
        let '(rest, exc) :=
          text_to_ids_from super_text_to_ids
                           (offset + Z.of_nat (length (concat pre)))%Z X in
        (yielded ++ rest, exc)
    end.
Proof.
  revert offset. induction pre as [|X_page pre IH]; intros offset.
  - cbn [app text_to_ids_from concat length]. rewrite Z.add_0_r.
    now destruct (text_to_ids_from super_text_to_ids offset X).
  - cbn [app text_to_ids_from concat].
    destruct (yield_chunks offset (super_text_to_ids X_page)) as [yielded [exc|]];
      [reflexivity|].
    rewrite IH.
    destruct (text_to_ids_from super_text_to_ids _ pre) as [yielded' [exc|]];
      [reflexivity|].
    rewrite length_app, Nat2Z.inj_add, Z.add_assoc.
    destruct (text_to_ids_from super_text_to_ids _ X) as [rest exc].
    now rewrite app_assoc.
Qed.

Lemma text_to_ids_from_ok (offset : Z) (X : list text) :
  Forall encodes_well X ->
  snd (text_to_ids_from super_text_to_ids offset X) = None.
Proof.
  intros HX. revert offset. induction HX as [|X_page X Hp _ IH]; intros offset;
    [reflexivity|].
  cbn [text_to_ids_from]. rewrite (yield_chunks_ok _ _ Hp).
  specialize (IH (offset + Z.of_nat (length X_page))%Z).
  now destruct (text_to_ids_from super_text_to_ids _ X) as [rest exc].
Qed.

(** The chunks of a page arrive shifted by the length of the pages before
    it. *)
Lemma text_to_ids_from_page (offset : Z) (pre post : list text) (X_page : text) :
  Forall encodes_well (pre ++ X_page :: post) ->
  exists before after,
    fst (text_to_ids_from super_text_to_ids offset (pre ++ X_page :: post))
    = before
      ++ map (shift_chunk (offset + Z.of_nat (length (concat pre))))
             (super_text_to_ids X_page)
      ++ after.
Proof.
  intros HX. rewrite text_to_ids_from_app.
  apply Forall_app in HX as [Hpre HX]. apply Forall_cons in HX as [Hpage Hpost].
  pose proof (text_to_ids_from_ok offset pre Hpre) as Hnone.
  destruct (text_to_ids_from super_text_to_ids offset pre) as [before exc].
  cbn [snd] in Hnone. subst exc. cbn [text_to_ids_from].
  rewrite (yield_chunks_ok _ _ Hpage).
  destruct (text_to_ids_from super_text_to_ids _ post) as [after exc].
  cbn [fst]. eauto.
Qed.

Lemma text_to_ids_from_origin (offset : Z) (X : list text) (y : encoded_output P) :
  Forall encodes_well X ->
  In y (fst (text_to_ids_from super_text_to_ids offset X)) ->
  exists pre X_page post chunk,
    X = pre ++ X_page :: post
    /\ In chunk (super_text_to_ids X_page)
    /\ y = shift_chunk (offset + Z.of_nat (length (concat pre))) chunk.
Proof.
  intros HX. revert offset. induction HX as [|X_page X Hp _ IH]; intros offset;
    [contradiction|].
  cbn [text_to_ids_from]. rewrite (yield_chunks_ok _ _ Hp).
  specialize (IH (offset + Z.of_nat (length X_page))%Z).
  destruct (text_to_ids_from super_text_to_ids _ X) as [rest exc]. cbn [fst] in *.
  intros Hy. apply in_app_or in Hy as [Hy | Hy].
  - apply in_map_iff in Hy as (chunk & <- & Hchunk).
    exists [], X_page, X, chunk. cbn [app concat length]. rewrite Z.add_0_r. auto.
  - destruct (IH Hy) as (pre & pg & post & chunk & -> & Hchunk & ->).
    exists (X_page :: pre), pg, post, chunk. cbn [app concat].
    rewrite length_app, Nat2Z.inj_add, Z.add_assoc. auto.
Qed.

(** What the generator is to yield: page after page, the chunks of the
    page in their order, shifted by the total length of the pages before
    it. *)
Definition shifted_chunks (offset : Z) (X : list text) : list (encoded_output P) :=
  concat (imap (fun i X_page =>
                  map (shift_chunk (offset + Z.of_nat (length (concat (take i X)))))
                      (super_text_to_ids X_page))
               X).

Lemma text_to_ids_from_exact (offset : Z) (X : list text) :
  Forall encodes_well X ->
  text_to_ids_from super_text_to_ids offset X = (shifted_chunks offset X, None).
Proof.
  intros HX. revert offset. induction HX as [|X_page X Hp _ IH]; intros offset;
    [reflexivity|].
  cbn [text_to_ids_from]. rewrite (yield_chunks_ok _ _ Hp).
  rewrite (IH (offset + Z.of_nat (length X_page))%Z).
  unfold shifted_chunks. rewrite imap_cons. cbn [concat take length].
  rewrite Z.add_0_r. do 3 f_equal. apply imap_ext. intros i pg _.
  unfold compose. cbn [take concat].
  now rewrite length_app, Nat2Z.inj_add, Z.add_assoc.
Qed.

End WithEncoder.

End TextToIdsFacts.

Module TextToIdsTheorems.
Import DocumentLabeling TextToIdsFacts.

Lemma lookup_map {A B : Type} (f : A -> B) (l : list A) (j : nat) (x : A) :
  l !! j = Some x -> map f l !! j = Some (f x).
Proof.
  revert j. induction l as [|a l IH]; intros [|j] Hj; try discriminate.
  - now injection Hj as ->.
  - now apply IH.
Qed.

Section WithEncoder.
Context {P : Type}.
Variable super_text_to_ids : text -> list (encoded_output P).

(** X19 ([_text_to_ids], shifted chunks).  When every chunk of the base
    encoder has as many token starts as token ends, the generator ends
    without an exception, and what it yields is exactly, in this order
    and once each, the chunks of the first page, then those of the second
    page, and so on, each with its token starts and ends shifted by the
    total length of the pages before its page and its other fields
    unchanged.  So a chunk is yielded exactly when it is the shifted
    chunk of some page. *)
Theorem text_to_ids_yields_shifted_chunks (X : list text) :
  Forall (encodes_well super_text_to_ids) X ->
  _text_to_ids super_text_to_ids X
  = (concat (imap (fun i X_page =>
                     map (fun chunk =>
                            {| token_starts :=
                                 map (fun start =>
                                        (start + Z.of_nat (length (concat (take i X))))%Z)
                                     (token_starts chunk);
                               token_ends :=
                                 map (fun start =>
                                        (start + Z.of_nat (length (concat (take i X))))%Z)
                                     (token_ends chunk);
                               other_fields := other_fields chunk |})
                         (super_text_to_ids X_page))
                  X),
     None)
  /\ forall y,
       In y (fst (_text_to_ids super_text_to_ids X))
       <-> exists pre X_page post chunk,
             X = pre ++ X_page :: post
             /\ In chunk (super_text_to_ids X_page)
             /\ y = shift_chunk (Z.of_nat (length (concat pre))) chunk.
Proof.
  intros HX. unfold _text_to_ids. split.
  { rewrite (text_to_ids_from_exact super_text_to_ids 0 X HX). reflexivity. }
  intros y. split.
  - intros Hy. apply (text_to_ids_from_origin super_text_to_ids 0 X y HX Hy).
  - intros (pre & X_page & post & chunk & -> & Hchunk & ->).
    destruct (text_to_ids_from_page super_text_to_ids 0 pre post X_page HX)
      as (before & after & ->).
    apply in_or_app. right. apply in_or_app. left.
    rewrite Z.add_0_l. now apply in_map.
Qed.

(** X20 ([_text_to_ids], spans of the joined text).  The shift makes the
    token spans of a page index the joined document: a span that lies
    inside its page cuts, once shifted, the same text out of the
    concatenation of all pages as it did out of the page. *)
Theorem text_to_ids_spans_index_joined_text (X pre post : list text) (X_page : text)
    (chunk : encoded_output P) (j : nat) (s e : Z) :
  Forall (encodes_well super_text_to_ids) X ->
  X = pre ++ X_page :: post ->
  In chunk (super_text_to_ids X_page) ->
  token_starts chunk !! j = Some s ->
  token_ends chunk !! j = Some e ->
  (0 <= s <= e)%Z -> (e <= Z.of_nat (length X_page))%Z ->
  exists y s' e',
    In y (fst (_text_to_ids super_text_to_ids X))
    /\ other_fields y = other_fields chunk
    /\ token_starts y !! j = Some s'
    /\ token_ends y !! j = Some e'
    /\ py_slice (concat X) s' e' = py_slice X_page s e.
Proof.
  intros HX -> Hchunk Hs He Hse Hlen.
  exists (shift_chunk (Z.of_nat (length (concat pre))) chunk),
         (s + Z.of_nat (length (concat pre)))%Z, (e + Z.of_nat (length (concat pre)))%Z.
  split.
  { unfold _text_to_ids.
    destruct (text_to_ids_from_page super_text_to_ids 0 pre post X_page HX)
      as (before & after & ->).
    apply in_or_app. right. apply in_or_app. left.
    rewrite Z.add_0_l. now apply in_map. }
  split; [reflexivity|].
  split; [apply (lookup_map (fun start => (start + _)%Z) _ _ _ Hs)|].
  split; [apply (lookup_map (fun start => (start + _)%Z) _ _ _ He)|].
  rewrite concat_app. cbn [concat]. now apply py_slice_shift.
Qed.

(** X21 ([_text_to_ids], failed assertion).  The first chunk whose token
    starts and ends differ in number ends the generator with an
    AssertionError: the chunks before it, of the earlier pages and of its
    own page, have been yielded, and no later chunk or page is. *)
Theorem text_to_ids_assertion_ends_generator (pre post : list text) (X_page : text)
    (good rest : list (encoded_output P)) (bad : encoded_output P) :
  Forall (encodes_well super_text_to_ids) pre ->
  super_text_to_ids X_page = good ++ bad :: rest ->
  Forall same_length good ->
  ~ same_length bad ->
  _text_to_ids super_text_to_ids (pre ++ X_page :: post)
  = (fst (_text_to_ids super_text_to_ids pre)
     ++ map (shift_chunk (Z.of_nat (length (concat pre)))) good,
     Some AssertionError).
Proof.
  intros Hpre Hpage Hgood Hbad. unfold _text_to_ids.
  rewrite text_to_ids_from_app.
  pose proof (text_to_ids_from_ok super_text_to_ids 0 pre Hpre) as Hnone.
  destruct (text_to_ids_from super_text_to_ids 0 pre) as [before exc].
  cbn [snd fst] in *. subst exc. cbn [text_to_ids_from].
  rewrite Hpage, (yield_chunks_fail _ _ _ _ Hgood Hbad), Z.add_0_l. reflexivity.
Qed.

End WithEncoder.

(** An encoder with one chunk per page, of one token that spans the
    page. *)
Definition page_encoder (X_page : text) : list (encoded_output unit) :=
  [{| token_starts := [0%Z]; token_ends := [Z.of_nat (length X_page)];
      other_fields := tt |}].

(** An encoder that, on a page of more than three characters, loses the
    token ends of its second chunk. *)
Definition broken_encoder (X_page : text) : list (encoded_output unit) :=
  if (length X_page <=? 3)%nat
  then page_encoder X_page
  else page_encoder X_page
       ++ [{| token_starts := [0%Z]; token_ends := []; other_fields := tt |}]
       ++ page_encoder X_page.

Definition page_texts : list text :=
  map ConvertFacts.page_line ConvertTheorems.two_pages.

Lemma page_encoder_encodes_well (X : list text) :
  Forall (encodes_well page_encoder) X.
Proof. apply Forall_forall. intros X_page _. repeat constructor. Qed.

(** On the two pages "Hi" and "you", each followed by a newline: the
    chunk of the first page, then the chunk of the second page shifted
    by 3. *)
Lemma text_to_ids_yields_shifted_chunks_witness :
  _text_to_ids page_encoder page_texts
  = ([{| token_starts := [0%Z]; token_ends := [3%Z]; other_fields := tt |};
      {| token_starts := [3%Z]; token_ends := [7%Z]; other_fields := tt |}],
     None).
Proof.
  destruct (text_to_ids_yields_shifted_chunks page_encoder page_texts
              (page_encoder_encodes_well page_texts)) as [Hexact _].
  rewrite Hexact. reflexivity.
Defined.

Lemma text_to_ids_spans_index_joined_text_witness :
  exists y s' e',
    In y (fst (_text_to_ids page_encoder page_texts))
    /\ other_fields y = tt
    /\ token_starts y !! 0%nat = Some s'
    /\ token_ends y !! 0%nat = Some e'
    /\ py_slice (concat page_texts) s' e'
       = py_slice (ConvertTheorems.word [121; 111; 117; 10]%nat) 0 4.
Proof.
  apply (text_to_ids_spans_index_joined_text page_encoder page_texts
           [ConvertTheorems.word [72; 105; 10]%nat] []
           (ConvertTheorems.word [121; 111; 117; 10]%nat)
           {| token_starts := [0%Z]; token_ends := [4%Z]; other_fields := tt |}
           0%nat 0%Z 4%Z).
  - apply page_encoder_encodes_well.
  - reflexivity.
  - left. reflexivity.
  - reflexivity.
  - reflexivity.
  - lia.
  - cbn. lia.
Defined.

Lemma text_to_ids_assertion_ends_generator_witness :
  _text_to_ids broken_encoder
    ([ConvertTheorems.word [72; 105; 10]%nat]
     ++ ConvertTheorems.word [121; 111; 117; 10]%nat :: page_texts)
  = (fst (_text_to_ids broken_encoder [ConvertTheorems.word [72; 105; 10]%nat])
     ++ map (shift_chunk
               (Z.of_nat (length (concat [ConvertTheorems.word [72; 105; 10]%nat]))))
            (page_encoder (ConvertTheorems.word [121; 111; 117; 10]%nat)),
     Some AssertionError).
Proof.
  apply (text_to_ids_assertion_ends_generator broken_encoder
           [ConvertTheorems.word [72; 105; 10]%nat] page_texts
           (ConvertTheorems.word [121; 111; 117; 10]%nat)
           (page_encoder (ConvertTheorems.word [121; 111; 117; 10]%nat))
           (page_encoder (ConvertTheorems.word [121; 111; 117; 10]%nat))
           {| token_starts := [0%Z]; token_ends := []; other_fields := tt |}).
  - repeat constructor.
  - reflexivity.
  - repeat constructor.
  - unfold same_length. cbn. discriminate.
Defined.

End TextToIdsTheorems.

(** ** The sequence labeler with associations *)

Module AssociationFacts.
Import Association.

Lemma Forall3_concat {A B C : Type} (P : A -> B -> C -> Prop)
    (xs : list (list A)) (ys : list (list B)) (zs : list (list C)) :
  Forall3 (Forall3 P) xs ys zs -> Forall3 P (concat xs) (concat ys) (concat zs).
Proof.
  induction 1 as [|x y z xs ys zs Hxyz _ IH]; cbn [concat]; [constructor|].
  now apply Forall3_app.
Qed.

Lemma Forall3_seq {A B C : Type} (P : A -> B -> C -> Prop) (f : nat -> C) (d1 : A) (d2 : B)
    (l1 : list A) (l2 : list B) (s n : nat) :
  length l1 = n -> length l2 = n ->
  (forall k, (k < n)%nat -> P (nth k l1 d1) (nth k l2 d2) (f (s + k)%nat)) ->
  Forall3 P l1 l2 (map f (seq s n)).
Proof.
  revert l1 l2 s. induction n as [|n IH]; intros [|x l1] [|y l2] s H1 H2 HP;
    cbn [length] in H1, H2; try discriminate; cbn [seq map]; constructor.
  - specialize (HP 0%nat). rewrite Nat.add_0_r in HP. apply HP. lia.
  - apply IH; [lia | lia |]. intros k Hk. specialize (HP (S k)).
    rewrite Nat.add_succ_r in HP. apply HP. lia.
Qed.

(** Two labels agree, or their weight is zero. *)
Definition agree_or_masked (y1 y2 : nat) (w : R) : Prop := w = 0 \/ y1 = y2.

Lemma weighted_losses_masked (logits : mat) (lab1 lab2 : list nat) (w : vec) :
  Forall3 agree_or_masked lab1 lab2 w ->
  zip_with Rmult (zip_with token_xent logits lab1) w
  = zip_with Rmult (zip_with token_xent logits lab2) w.
Proof.
  intros H. revert logits.
  induction H as [|y1 y2 w0 lab1 lab2 w Hy _ IH]; intros [|r logits]; cbn [zip_with];
    try reflexivity.
  f_equal; [|apply IH]. destruct Hy as [-> | ->]; [ring | reflexivity].
Qed.

Lemma sparse_xent_masked (logits : mat) (lab1 lab2 : list nat) (w : vec) :
  Forall3 agree_or_masked lab1 lab2 w ->
  sparse_softmax_cross_entropy [lab1] [logits] [w]
  = sparse_softmax_cross_entropy [lab2] [logits] [w].
Proof.
  intros H. unfold sparse_softmax_cross_entropy. cbn [zip_with].
  now rewrite (weighted_losses_masked logits lab1 lab2 w H).
Qed.

Lemma nth_row_length {A : Type} (b s i : nat) (t : list (list A)) :
  has_shape2 b s t -> (i < b)%nat -> length (nth i t []) = s.
Proof.
  intros [Hb Hs] Hi. apply (proj1 (Forall_nth _ [] t) Hs). lia.
Qed.

(** Labels that agree on the pairs of positions inside a sequence agree
    wherever the mask of the pairs is not zero. *)
Lemma pair_mask_agree (len L : nat) (a1 a2 : list (list nat)) :
  has_shape2 L L a1 -> has_shape2 L L a2 ->
  (forall i j, (i < len)%nat -> (j < len)%nat ->
               nth j (nth i a1 []) 0%nat = nth j (nth i a2 []) 0%nat) ->
  Forall3 (Forall3 agree_or_masked) a1 a2
          (map (fun mi => map (fun mj => mj * mi) (Crf.sequence_mask len L))
               (Crf.sequence_mask len L)).
Proof.
  intros H1 H2 Hagree. unfold Crf.sequence_mask at 2. rewrite map_map.
  apply (Forall3_seq _ _ [] []); [apply H1 | apply H2 |].
  intros i Hi. unfold Crf.sequence_mask. rewrite map_map.
  apply (Forall3_seq _ _ 0%nat 0%nat);
    [now apply (nth_row_length L L) | now apply (nth_row_length L L) |].
  intros j Hj. cbn [Nat.add]. unfold agree_or_masked.
  destruct (Nat.ltb_spec i len) as [Hil|Hil]; [|left; ring].
  destruct (Nat.ltb_spec j len) as [Hjl|Hjl]; [|left; ring].
  right. now apply Hagree.
Qed.

Lemma sequence_mask_nonneg (len L : nat) : Forall (fun m => 0 <= m) (Crf.sequence_mask len L).
Proof.
  unfold Crf.sequence_mask. apply Forall_map, Forall_true. intros t.
  change (0 <= (if (t <? len)%nat then 1 else 0)).
  destruct (t <? len)%nat; lra.
Qed.

Lemma pair_mask_nonneg (lengths : list nat) (L : nat) :
  Forall (fun w => 0 <= w) (concat (concat (pair_mask lengths L))).
Proof.
  do 2 apply Forall_concat. unfold pair_mask.
  apply Forall_map, Forall_true. intros len. cbn.
  pose proof (sequence_mask_nonneg len L) as Hm.
  apply Forall_map. eapply Forall_impl; [exact Hm|]. intros mi Hmi. cbn.
  apply Forall_map. eapply Forall_impl; [exact Hm|]. intros mj Hmj. cbn.
  now apply Rmult_le_pos.
Qed.

(** The weighted cross-entropy is not negative when the weights are not
    and the labels index the logits. *)
Lemma sparse_xent_nonneg (K : nat) (logits : mat) (lab : list nat) (w : vec) :
  Forall (fun r => length r = K) logits ->
  Forall (fun y => (y < K)%nat) lab ->
  Forall (fun x => 0 <= x) w ->
  0 <= sparse_softmax_cross_entropy [lab] [logits] [w].
Proof.
  intros Hlogits Hlab Hw. unfold sparse_softmax_cross_entropy. cbn [zip_with].
  destruct (count_nonzero [w] =? 0)%nat eqn:Hc; [lra|].
  apply Nat.eqb_neq in Hc.
  apply Rmult_le_pos; [|left; apply Rinv_0_lt_compat, lt_0_INR; lia].
  unfold reduce_sum2. cbn [map]. rewrite reduce_sum_cons.
  assert (0 <= reduce_sum (zip_with Rmult (zip_with token_xent logits lab) w)).
  { apply reduce_sum_nonneg.
    apply (ClassifierFacts.Forall_zip_with2 (fun x => 0 <= x) (fun x => 0 <= x));
      [intros x y Hx Hy; now apply Rmult_le_pos | | exact Hw].
    apply (ClassifierFacts.Forall_zip_with2 (fun r => length r = K) (fun y => (y < K)%nat));
      [|exact Hlogits | exact Hlab].
    intros r y Hr Hy. unfold token_xent.
    pose proof (CrfFacts.logsumexp_ge r y) as Hge. rewrite Hr in Hge.
    specialize (Hge Hy). lra. }
  unfold reduce_sum at 2. cbn [foldr]. lra.
Qed.

End AssociationFacts.

Module AssociationTheorems.
Import Association AssociationFacts.

Section WithAttention.
Variable attn : bool -> list nat -> ten3 -> ten3.
Variable norm : ten3 -> ten3.

(** X22 ([association], pairs with padding).  The association loss is
    weighted by the product of the sequence masks of the two positions, so
    the association targets of a pair with a position at or after the
    length of its sequence do not count: two target dicts with the same
    labels, whose associations (all of them ids of association classes)
    agree on the pairs inside the sequences, give the same result. *)
Theorem association_ignores_padding_pairs (vars : association_vars)
    (acfg : association_config) (cfg : config) (hidden : ten3) (lengths : list nat)
    (t1 t2 : association_targets) (n_targets : nat) (train : bool)
    (class_weights : option ten3) (kw_max_length : nat) :
  labels t1 = labels t2 ->
  Forall (Forall (Forall (fun y => (y < length (association_types acfg) + 1)%nat)))
         (associations t1 ++ associations t2) ->
  Forall3 (fun len a1 a2 =>
             has_shape2 (max_length acfg) (max_length acfg) a1
             /\ has_shape2 (max_length acfg) (max_length acfg) a2
             /\ forall i j, (i < len)%nat -> (j < len)%nat ->
                            nth j (nth i a1 []) 0%nat = nth j (nth i a2 []) 0%nat)
          lengths (associations t1) (associations t2) ->
  association attn norm vars acfg cfg hidden lengths (Some t1) n_targets train
              class_weights kw_max_length
  = association attn norm vars acfg cfg hidden lengths (Some t2) n_targets train
                class_weights kw_max_length.
Proof.
  intros Hlabels _ Hassoc. unfold association.
  destruct (if low_memory_mode cfg && train then _ else _) as [[[lg flat] assoc]|e];
    [|reflexivity].
  cbn [bind]. rewrite Hlabels. do 3 f_equal.
  apply map_ext. intros ll. do 2 f_equal.
  apply sparse_xent_masked. do 2 apply Forall3_concat. unfold pair_mask.
  clear -Hassoc. induction Hassoc as [|len a1 a2 lengths as1 as2 (H1 & H2 & Hag) _ IH];
    cbn [map]; constructor; [|exact IH].
  now apply pair_mask_agree.
Qed.

(** X23 ([association], a labeled batch).  On a batch of [b] sequences of
    the configured maximum length, with labels and association targets in
    range and a weight of the association loss that is not negative,
    [association] returns sequence logits of shape [b, s, n_targets] and a
    loss vector with one entry per example, none negative: the CRF
    negative log-likelihood over the first [max_length] positions of the
    example plus the weighted association loss of the batch. *)
Theorem association_labeled_batch (vars : association_vars) (acfg : association_config)
    (cfg : config) (hidden : ten3) (lengths : list nat) (t : association_targets)
    (n_targets : nat) (train : bool) (class_weights : option ten3) (kw_max_length : nat)
    (b s : nat) :
  (0 < b)%nat ->
  has_shape2 b s hidden ->
  s = max_length acfg ->
  has_shape2 b s (norm (SeqLab.add3 (attn train lengths hidden) hidden)) ->
  length (bias vars) = n_targets ->
  length (Transition_matrix vars) = n_targets ->
  length (pair_bias vars) = (length (association_types acfg) + 1)%nat ->
  has_shape2 b s (labels t) ->
  Forall (Forall (fun y => (y < n_targets)%nat)) (labels t) ->
  Forall (Forall (Forall (fun y => (y < length (association_types acfg) + 1)%nat)))
         (associations t) ->
  (kw_max_length <= s)%nat ->
  0 <= assocation_loss_weight acfg ->
  exists out v,
    association attn norm vars acfg cfg hidden lengths (Some t) n_targets train
                class_weights kw_max_length = Ok out
    /\ has_shape3 b s n_targets (l_sequence (logits out))
    /\ losses out = Vector v
    /\ length v = b
    /\ Forall (fun l => 0 <= l) v.
Proof.
  intros Hb Hh Hs Hn Hbias Htrans Hpair [Hyb Hys] Hyn Han Hkw Hw.
  set (n := norm (SeqLab.add3 (attn train lengths hidden) hidden)) in *.
  set (lg := SeqLab.reshape3 (dense n_targets (kernel vars) (bias vars) n) b s).
  assert (Hlg : has_shape3 b s n_targets lg).
  { apply reshape3_shape. now apply dense_shape. }
  assert (Hhd : length (hd [] hidden) = s) by now apply (has_shape2_hd b s).
  set (head := SeqLab.reshape3 (dense (n_embed acfg) (head_kernel vars) (head_bias vars) n)
                               b s).
  set (flat := matmul_add (length (association_types acfg) + 1)
                          (concat (concat (map (pair_features (max_length acfg)) head)))
                          (pair_kernel vars) (pair_bias vars)).
  assert (Hinternal : seq_lab_internal attn norm vars acfg n_targets train lengths hidden
                      = Ok (lg, flat, reshape_pairs flat (max_length acfg))).
  { unfold seq_lab_internal. cbv zeta. rewrite Hhd, (proj1 Hh).
    destruct (decide (s = max_length acfg)) as [_|Hne]; [reflexivity | contradiction]. }
  assert (Hflat : Forall (fun r => length r = (length (association_types acfg) + 1)%nat) flat).
  { apply matmul_add_shape. exact Hpair. }
  set (al := sparse_softmax_cross_entropy [concat (concat (associations t))] [flat]
               [concat (concat (pair_mask lengths (max_length acfg)))]).
  assert (Hal : 0 <= al).
  { apply (sparse_xent_nonneg (length (association_types acfg) + 1)); [exact Hflat | |].
    - do 2 apply Forall_concat. exact Han.
    - apply pair_mask_nonneg. }
  set (ll := fst (Crf.crf_log_likelihood lg (labels t)
                    (replicate (length (labels t)) kw_max_length)
                    (Transition_matrix vars))).
  assert (Hll : Forall (fun x => x <= 0) ll).
  { apply (CrfFacts.crf_log_likelihood_nonpos n_targets); [exact Htrans|].
    apply (valid_batch_intro n_targets s); [apply Hlg | |].
    - clear -Hys Hyn. induction Hys as [|r y Hr _ IH]; [constructor|].
      apply Forall_cons in Hyn as [Hrn Hyn]. constructor; [now split | now apply IH].
    - apply Forall_forall. intros len Hin. apply elem_of_replicate in Hin as [-> _].
      exact Hkw. }
  assert (Hlen : length ll = b).
  { unfold ll, Crf.crf_log_likelihood. cbn [fst].
    rewrite length_zip_with, length_zip, length_replicate, Hyb, (proj1 Hlg). lia. }
  exists {| logits := {| l_sequence := lg;
                         l_association := reshape_pairs flat (max_length acfg) |};
            losses := Vector (map (fun l => - l + assocation_loss_weight acfg * al) ll);
            transition_matrix := Transition_matrix vars |},
         (map (fun l => - l + assocation_loss_weight acfg * al) ll).
  split.
  { unfold association. cbv zeta.
    destruct (low_memory_mode cfg && train); cbv beta; rewrite Hinternal;
      destruct class_weights; reflexivity. }
  cbn [logits l_sequence losses]. split; [exact Hlg|]. split; [reflexivity|].
  split; [now rewrite length_map|].
  apply Forall_map. eapply Forall_impl; [exact Hll|]. intros l Hl. cbn.
  pose proof (Rmult_le_pos _ _ Hw Hal). lra.
Qed.

End WithAttention.

(** An example: one sequence of two tokens with one feature, attention and
    normalization that return their input, two labels and one association
    type. *)
Definition plain_attn (train : bool) (lengths : list nat) (hidden : ten3) : ten3 := hidden.
Definition plain_norm (x : ten3) : ten3 := x.

Definition pair_vars : association_vars :=
  {| kernel := [[1; 0]]; bias := [0; 0];
     head_kernel := [[1]]; head_bias := [0];
     pair_kernel := [[1; 0]; [0; 1]; [1; 0]; [0; 1]]; pair_bias := [0; 0];
     Transition_matrix := [[0; 0]; [0; 0]] |}.

Definition pair_config : association_config :=
  {| n_embed := 1; max_length := 2; association_types := ["follows"%string];
     assocation_loss_weight := 1 |}.

Definition memory_config : config :=
  {| clf_p_drop := 0; regression_loss := "L2"; is_bidirectional := false;
     low_memory_mode := true; tsa_method := None; ssl_loss_coef := 1;
     pseudo_thresh := 1; ema_decay := 0 |}.

Definition pair_hidden : ten3 := [[[1]; [2]]].

Definition pair_targets (a : list (list nat)) : association_targets :=
  {| labels := [[0; 1]%nat]; associations := [a] |}.

Lemma association_ignores_padding_pairs_witness :
  association plain_attn plain_norm pair_vars pair_config memory_config pair_hidden
              [1%nat] (Some (pair_targets [[0; 1]; [1; 0]]%nat)) 2 true None 2
  = association plain_attn plain_norm pair_vars pair_config memory_config pair_hidden
                [1%nat] (Some (pair_targets [[0; 0]; [0; 0]]%nat)) 2 true None 2.
Proof.
  apply association_ignores_padding_pairs; [reflexivity | repeat constructor |].
  constructor; [|constructor].
  split; [split; [reflexivity | repeat constructor]|].
  split; [split; [reflexivity | repeat constructor]|].
  intros i j Hi Hj. assert (i = 0%nat) as -> by lia. assert (j = 0%nat) as -> by lia.
  reflexivity.
Defined.

Lemma association_labeled_batch_witness :
  exists out v,
    association plain_attn plain_norm pair_vars pair_config memory_config pair_hidden
                [1%nat] (Some (pair_targets [[0; 1]; [1; 0]]%nat)) 2 true None 2 = Ok out
    /\ has_shape3 1 2 2 (l_sequence (logits out))
    /\ losses out = Vector v
    /\ length v = 1%nat
    /\ Forall (fun l => 0 <= l) v.
Proof.
  apply (association_labeled_batch plain_attn plain_norm pair_vars pair_config
           memory_config pair_hidden [1%nat] (pair_targets [[0; 1]; [1; 0]]%nat) 2 true
           None 2 1 2).
  - lia.
  - split; [reflexivity | repeat constructor].
  - reflexivity.
  - split; [reflexivity | repeat constructor].
  - reflexivity.
  - reflexivity.
  - reflexivity.
  - split; [reflexivity | repeat constructor].
  - repeat constructor.
  - repeat constructor.
  - lia.
  - cbn. lra.
Defined.

End AssociationTheorems.
